(** * Centro Medico - ledger core of [Dashboard.tsx]

    A shallow embedding of the record store, the persistence effects, the
    ledger aggregations and the commission split of the clinic dashboard
    (src/components/Dashboard.tsx; the older revision kept in
    src/unnamed/part_000 is embedded where it differs: its load and save
    effects, its daily list and its per-professional memo, each with the
    suffix [_part_000]), and the properties of the specification that are
    decided on them.

    Conventions of the embedding.
    - A JavaScript [number] is a rational ([Q]). Where the program
      computes with amounts it is embedded twice: with the exact
      operations of [Q], for the properties in which rounding takes no
      part (what is stored, listed, filtered and sorted, and the amounts
      that binary64 computes exactly), and in [Binary64] with every
      operation rounded to the nearest binary64 number, for the
      properties that compare amounts computed along different paths,
      which hold up to rounding only. [NaN] and the infinities are not
      values of [Q]: a [NaN] result of [parseInt], [parseFloat] or
      [getMonth] is [None] where the program tests it, a state that
      holds a [NaN] (which [JSON.stringify] writes as [null]) is outside
      the embedding, and what the program computes from a [NaN] is shown
      on the numbers of the kernel ([Binary64.Kernel]).
    - Strings are [string]; [localeCompare] is the code-unit order
      [String.compare], which is the collation order on the fixed-width
      timestamps [YYYY-MM-DDTHH:MM:SS] the program writes.
    - A text handed to [JSON.parse] is represented by what [JSON.parse]
      makes of it (see [Text]); the objects read back are typed, a field
      that is absent (or falsy) being [None].
    - Handlers and effects are computations in a small state-and-exception
      monad ([Eff]) over the component state, the [localStorage] slot and
      the trace of dialogs and storage writes; what the user answers to a
      [confirm] and what the clock and the id generator return are
      arguments. *)

From Stdlib Require Import QArith String Ascii List Bool Arith Lia.
From Stdlib Require Import Sorted Permutation DecimalString OrderedTypeEx.
From Stdlib Require Import Qround Qabs Qpower Lqa Floats.
From stdpp Require Import gmap strings.
Import ListNotations.

Local Open Scope string_scope.
Local Open Scope list_scope.

(** ** Data model (src/types.ts) *)

(** [number]: see the conventions above. *)
Abbreviation number := Q.

Module Professional.
Record t := mk {
    id : string;
    name : string;
    specialty : string;
    phone : string;
    percentage : number;
    createdAt : string
}.
End Professional.

Module Patient.
Record t := mk {
    id : string;
    name : string;
    phone : string;
    email : option string;
    address : option string;
    birthDate : option string;
    createdAt : string
}.
End Patient.

Module Receipt.
Record t := mk {
    id : string;
    grossValue : number;
    netClinic : number;
    professionalValue : number;
    professionalId : string;
    professionalName : string;
    serviceType : string;
    paymentMethod : string;
    date : string
}.
End Receipt.

Module Expense.
Record t := mk {
    id : string;
    value : number;
    category : string;
    description : string;
    paymentMethod : string;
    date : string
}.
End Expense.

Module Product.
Record t := mk {
    id : string;
    name : string;
    quantity : number;
    minQuantity : number
}.
End Product.

Module DailyConfig.
Record t := mk {
    date : string;
    initialCash : number
}.
End DailyConfig.

Module ServiceType.
Record t := mk {
    nome : string;
    valor : string
}.
End ServiceType.

(** The [useState] cells of the component that the ledger depends on. *)
Record State := mkState {
  isLoaded : bool;
  currentDate : string;
  professionals : list Professional.t;
  patients : list Patient.t;
  receipts : list Receipt.t;
  expenses : list Expense.t;
  products : list Product.t;
  dailyConfigs : list DailyConfig.t;
  serviceTypes : list ServiceType.t
}.

Definition defaultServiceTypes : list ServiceType.t :=
  [ ServiceType.mk "Consulta" "consulta";
    ServiceType.mk "Procedimento" "procedimento";
    ServiceType.mk "Retorno" "retorno";
    ServiceType.mk "Cirurgia" "cirurgia" ].

(** The state of the first render; [today] is [getTodayString()]. *)
Definition initialState (today : string) : State :=
  {| isLoaded := false;
     currentDate := today;
     professionals := [];
     patients := [];
     receipts := [];
     expenses := [];
     products := [];
     dailyConfigs := [];
     serviceTypes := defaultServiceTypes |}.

(** State setters, one per [useState] cell that the handlers write. *)
Definition setIsLoaded (b : bool) (st : State) : State :=
  mkState b (currentDate st) (professionals st) (patients st) (receipts st)
          (expenses st) (products st) (dailyConfigs st) (serviceTypes st).
Definition setCurrentDate (d : string) (st : State) : State :=
  mkState (isLoaded st) d (professionals st) (patients st) (receipts st)
          (expenses st) (products st) (dailyConfigs st) (serviceTypes st).
Definition setProfessionals (v : list Professional.t) (st : State) : State :=
  mkState (isLoaded st) (currentDate st) v (patients st) (receipts st)
          (expenses st) (products st) (dailyConfigs st) (serviceTypes st).
Definition setPatients (v : list Patient.t) (st : State) : State :=
  mkState (isLoaded st) (currentDate st) (professionals st) v (receipts st)
          (expenses st) (products st) (dailyConfigs st) (serviceTypes st).
Definition setReceipts (v : list Receipt.t) (st : State) : State :=
  mkState (isLoaded st) (currentDate st) (professionals st) (patients st) v
          (expenses st) (products st) (dailyConfigs st) (serviceTypes st).
Definition setExpenses (v : list Expense.t) (st : State) : State :=
  mkState (isLoaded st) (currentDate st) (professionals st) (patients st)
          (receipts st) v (products st) (dailyConfigs st) (serviceTypes st).
Definition setProducts (v : list Product.t) (st : State) : State :=
  mkState (isLoaded st) (currentDate st) (professionals st) (patients st)
          (receipts st) (expenses st) v (dailyConfigs st) (serviceTypes st).
Definition setDailyConfigs (v : list DailyConfig.t) (st : State) : State :=
  mkState (isLoaded st) (currentDate st) (professionals st) (patients st)
          (receipts st) (expenses st) (products st) v (serviceTypes st).
Definition setServiceTypes (v : list ServiceType.t) (st : State) : State :=
  mkState (isLoaded st) (currentDate st) (professionals st) (patients st)
          (receipts st) (expenses st) (products st) (dailyConfigs st) v.

(** ** Strings and clock *)

(** [String(n)] for a non-negative integer. *)
Definition String_of (n : nat) : string :=
  NilEmpty.string_of_uint (Nat.to_uint n).

(** [s.padStart(target, pad)] for a one-character pad. *)
Definition padStart (target : nat) (pad : ascii) (s : string) : string :=
  (string_of_list_ascii (repeat pad (target - String.length s)) ++ s)%string.

(** What [new Date()] gives the handlers: the local wall clock. *)
Record Clock := mkClock {
  getHours : nat;
  getMinutes : nat;
  getSeconds : nat
}.

(** ** Texts and [JSON] *)

(** The [data] object that the save effect serialises and that load and
    import read back: one field per collection. [None] is a field that is
    absent or falsy ([null], [0], the empty string); [Some l] is an array
    of records, which is truthy also when it is empty. A field holding
    anything else is outside the embedding: the program trusts the
    declared types and stores what it reads unchecked. *)
Record Data := mkData {
  data_professionals : option (list Professional.t);
  data_patients : option (list Patient.t);
  data_receipts : option (list Receipt.t);
  data_expenses : option (list Expense.t);
  data_products : option (list Product.t);
  data_dailyConfigs : option (list DailyConfig.t);
  data_serviceTypes : option (list ServiceType.t)
}.

(** What [JSON.parse] returns, as far as the program inspects it: [null],
    on which a property access throws, or a value with properties (a value
    without any of the seven has every field [None]). *)
Inductive JSValue :=
| JSNull
| JSObject (data : Data).

(** A text is known by what [JSON.parse] makes of it: [Malformed raw] is
    a text [raw] that is rejected with a [SyntaxError] (the empty text is
    [Malformed ""]), [WellFormed v] is a text that parses to [v]; so the
    text that [JSON.stringify] writes for an object is the one that
    parses to it. This is the behaviour of the platform for the objects
    of the embedding, whose numbers are finite; a [NaN] in the store
    (the first revision of the stock form stores one as [minQuantity],
    having no such field) is written as [null] and is not read back. *)
Inductive Text :=
| Malformed (raw : string)
| WellFormed (v : JSValue).

(** Truthiness of a string: only the empty one is falsy. *)
Definition nonEmpty (t : Text) : bool :=
  match t with
  | Malformed "" => false
  | _ => true
  end.

(** ** The effect monad *)

Inductive Event :=
| Alert (msg : string)
| Confirm (msg : string)
| ConsoleError (msg : string)
| SetItem (text : Text)
| RemoveItem.

(** [scheduled]: the save effect is due at the next render, because a
    cell among its dependencies was set since the last one. Every call
    of such a setter in the program passes a fresh array or a flag that
    changes. *)
Record World := mkWorld {
  state : State;
  scheduled : bool;
  localStorage : option Text;
  trace : list Event
}.

Inductive Exception := SyntaxError | TypeError.

Inductive Completion (A : Type) :=
| Normal (a : A)
| Throw (e : Exception).
Arguments Normal {A} a.
Arguments Throw {A} e.

Definition Eff (A : Type) : Type := World -> Completion A * World.

Definition ret {A} (a : A) : Eff A := fun w => (Normal a, w).

Definition bind {A B} (m : Eff A) (k : A -> Eff B) : Eff B :=
  fun w =>
    match m w with
    | (Normal a, w') => k a w'
    | (Throw e, w') => (Throw e, w')
    end.

Declare Scope eff_scope.
Delimit Scope eff_scope with eff.
Bind Scope eff_scope with Eff.
Notation "x <- m ;; k" := (bind m (fun x => k))
  (at level 100, m at next level, right associativity) : eff_scope.
Notation "m ;; k" := (bind m (fun _ => k))
  (at level 100, right associativity) : eff_scope.
Local Open Scope eff_scope.

Definition throw {A} (e : Exception) : Eff A := fun w => (Throw e, w).

(** [try { body } catch (e) { handler }]: what [body] did before it threw
    stays done. *)
Definition try_catch (body : Eff unit) (handler : Exception -> Eff unit)
    : Eff unit :=
  fun w =>
    match body w with
    | (Normal a, w') => (Normal a, w')
    | (Throw e, w') => handler e w'
    end.

(** A call of the setter of a cell the save effect depends on. *)
Definition update (f : State -> State) : Eff unit :=
  fun w => (Normal tt, mkWorld (f (state w)) true (localStorage w) (trace w)).

(** A call of [setCurrentDate], on which the save effect does not depend. *)
Definition update_currentDate (d : string) : Eff unit :=
  fun w =>
    (Normal tt,
     mkWorld (setCurrentDate d (state w)) (scheduled w) (localStorage w)
             (trace w)).

Definition emit (e : Event) : Eff unit :=
  fun w =>
    (Normal tt, mkWorld (state w) (scheduled w) (localStorage w) (trace w ++ [e])).

Definition alert (msg : string) : Eff unit := emit (Alert msg).
Definition console_error (msg : string) : Eff unit := emit (ConsoleError msg).

(** [confirm(msg)], the user answering [answer]. *)
Definition confirm (msg : string) (answer : bool) : Eff bool :=
  emit (Confirm msg) ;; ret answer.

Definition getItem : Eff (option Text) :=
  fun w => (Normal (localStorage w), w).

Definition setItem (text : Text) : Eff unit :=
  fun w =>
    (Normal tt,
     mkWorld (state w) (scheduled w) (Some text) (trace w ++ [SetItem text])).

Definition removeItem : Eff unit :=
  fun w =>
    (Normal tt, mkWorld (state w) (scheduled w) None (trace w ++ [RemoveItem])).

Definition JSON_parse (text : Text) : Eff JSValue :=
  match text with
  | Malformed _ => throw SyntaxError
  | WellFormed v => ret v
  end.

Definition JSON_stringify (data : Data) : Text := WellFormed (JSObject data).

(** [data.field]: a [TypeError] on [null]. *)
Definition prop {A} (data : JSValue) (field : Data -> option A)
    : Eff (option A) :=
  match data with
  | JSNull => throw TypeError
  | JSObject d => ret (field d)
  end.

(** [if (x) k(x)]. *)
Definition when_truthy {A} (x : option A) (k : A -> Eff unit) : Eff unit :=
  match x with
  | Some v => k v
  | None => ret tt
  end.

(** [x || []]. *)
Definition or_empty {A} (x : option (list A)) : list A :=
  match x with
  | Some v => v
  | None => []
  end.

(** The world with the state the component has just been rendered with. *)
Definition rendered_with (st : State) : Eff unit :=
  fun w => (Normal tt, mkWorld st false (localStorage w) (trace w)).

(** ** Persistence (Dashboard.tsx, the two [useEffect]s, import) *)

(** The [data] object literal [{ professionals, patients, ... }]. *)
Definition dataOf (st : State) : Data :=
  {| data_professionals := Some (professionals st);
     data_patients := Some (patients st);
     data_receipts := Some (receipts st);
     data_expenses := Some (expenses st);
     data_products := Some (products st);
     data_dailyConfigs := Some (dailyConfigs st);
     data_serviceTypes := Some (serviceTypes st) |}.

(** Initial load. *)
Definition loadEffect : Eff unit :=
  saved <- getItem ;;
  match saved with
  | Some text =>
    if nonEmpty text then
      try_catch
        (data <- JSON_parse text ;;
         v <- prop data data_professionals ;;
         when_truthy v (fun v => update (setProfessionals v)) ;;
         v <- prop data data_patients ;;
         when_truthy v (fun v => update (setPatients v)) ;;
         v <- prop data data_receipts ;;
         when_truthy v (fun v => update (setReceipts v)) ;;
         v <- prop data data_expenses ;;
         when_truthy v (fun v => update (setExpenses v)) ;;
         v <- prop data data_products ;;
         when_truthy v (fun v => update (setProducts v)) ;;
         v <- prop data data_dailyConfigs ;;
         when_truthy v (fun v => update (setDailyConfigs v)) ;;
         v <- prop data data_serviceTypes ;;
         when_truthy v (fun v => update (setServiceTypes v)))
        (fun e => console_error "Falha ao restaurar banco local:")
    else ret tt
  | None => ret tt
  end ;;
  update (setIsLoaded true).

(** Automatic persistence; [rendered] is the state of the render whose
    effect this is. *)
Definition saveEffect (rendered : State) : Eff unit :=
  if isLoaded rendered
  then setItem (JSON_stringify (dataOf rendered))
  else ret tt.

(** The same effect in the older revision (src/unnamed/part_000), which
    has no [isLoaded] cell. *)
Definition saveEffect_part_000 (rendered : State) : Eff unit :=
  setItem (JSON_stringify (dataOf rendered)).

(** The load effect of the older revision. *)
Definition loadEffect_part_000 : Eff unit :=
  saved <- getItem ;;
  match saved with
  | Some text =>
    if nonEmpty text then
      try_catch
        (data <- JSON_parse text ;;
         v <- prop data data_professionals ;;
         update (setProfessionals (or_empty v)) ;;
         v <- prop data data_patients ;;
         update (setPatients (or_empty v)) ;;
         v <- prop data data_receipts ;;
         update (setReceipts (or_empty v)) ;;
         v <- prop data data_expenses ;;
         update (setExpenses (or_empty v)) ;;
         v <- prop data data_products ;;
         update (setProducts (or_empty v)) ;;
         v <- prop data data_dailyConfigs ;;
         update (setDailyConfigs (or_empty v)) ;;
         v <- prop data data_serviceTypes ;;
         when_truthy v (fun v => update (setServiceTypes v)))
        (fun e => console_error "Erro ao carregar")
    else ret tt
  | None => ret tt
  end.

(** [reader.onload] of [importData]; [file] is the text of the chosen
    file ([None]: no file chosen), [answer] the reply to the [confirm]. *)
Definition importData (file : option Text) (answer : bool) (rendered : State)
    : Eff unit :=
  match file with
  | None => ret tt
  | Some text =>
    try_catch
      (data <- JSON_parse text ;;
       ok <- confirm "Isso irá substituir todos os dados atuais. Deseja continuar?" answer ;;
       if ok : bool then
         v <- prop data data_professionals ;;
         update (setProfessionals (or_empty v)) ;;
         v <- prop data data_patients ;;
         update (setPatients (or_empty v)) ;;
         v <- prop data data_receipts ;;
         update (setReceipts (or_empty v)) ;;
         v <- prop data data_expenses ;;
         update (setExpenses (or_empty v)) ;;
         v <- prop data data_products ;;
         update (setProducts (or_empty v)) ;;
         v <- prop data data_dailyConfigs ;;
         update (setDailyConfigs (or_empty v)) ;;
         v <- prop data data_serviceTypes ;;
         when_truthy v (fun v => update (setServiceTypes v)) ;;
         alert "Dados importados com sucesso!"
       else ret tt)
      (fun err => alert "Erro ao importar: Arquivo inválido.")
  end.

(** [clearBank]: the slot is removed and the page reloaded (see [mount]
    and [perform]). *)
Definition clearBank (answer : bool) (reload : Eff unit) (rendered : State)
    : Eff unit :=
  ok <- confirm "ATENÇÃO: Isso apagará TODOS os dados cadastrados. Tem certeza?" answer ;;
  if ok : bool then removeItem ;; reload else ret tt.

(** *** Rendering

    Effects run after the render they belong to, in the order they are
    declared, each on the state of that render; the setter calls they
    make take effect afterwards and cause another render, after which
    the save effect runs again if one of its dependencies (the loaded
    flag and the seven collections) was set. *)

Definition rerender (save : State -> Eff unit) : Eff unit :=
  fun w =>
    if scheduled w
    then (rendered_with (state w) ;; save (state w)) w
    else (Normal tt, w).

(** Mounting the component (page load); [today] is [getTodayString()]. *)
Definition mount (today : string) : Eff unit :=
  let rendered := initialState today in
  rendered_with rendered ;;
  loadEffect ;;
  saveEffect rendered ;;
  rerender saveEffect.

(** Mounting the older revision (src/unnamed/part_000). *)
Definition mount_part_000 (today : string) : Eff unit :=
  let rendered := initialState today in
  rendered_with rendered ;;
  loadEffect_part_000 ;;
  saveEffect_part_000 rendered ;;
  rerender saveEffect_part_000.

(** ** Handlers of the record store *)

(** Deleting a receipt (the bin button of the history table). *)
Definition removeReceipt (rec : Receipt.t) (answer : bool) (rendered : State)
    : Eff unit :=
  ok <- confirm "Excluir este lançamento?" answer ;;
  if ok : bool then
    update (fun prev =>
      setReceipts
        (List.filter
           (fun r => negb (String.eqb (Receipt.id r) (Receipt.id rec)))
           (receipts prev))
        prev)
  else ret tt.

(** Deleting a professional (the cross button of the professional card). *)
Definition removeProfessional (prof : Professional.t) (answer : bool)
    (rendered : State) : Eff unit :=
  ok <- confirm ("Excluir " ++ Professional.name prof ++ "?")%string answer ;;
  if ok : bool then
    update (fun prev =>
      setProfessionals
        (List.filter
           (fun p => negb (String.eqb (Professional.id p) (Professional.id prof)))
           (professionals prev))
        prev)
  else ret tt.

(** The form of the new-professional dialog; [prof_perc] is
    [parseInt(fd.get('perc'))] of a required numeric field, for a field
    that [parseInt] reads. The handler stores the result as it is (it
    has no [|| 100], which [handleEditProfSave] has): for a field that
    [parseInt] cannot read it stores [NaN], which is not a value of
    [number]; what [addReceipt] then computes for that professional is
    [Binary64.Kernel.profValue] and [Binary64.Kernel.net] at [nan]. *)
Record ProfessionalForm := mkProfessionalForm {
  prof_name : string;
  prof_spec : string;
  prof_phone : string;
  prof_perc : Z
}.

Definition addProfessional (temPorcentagem : option bool)
    (fd : ProfessionalForm) (newId : string) (nowISO : string)
    (rendered : State) : Eff unit :=
  match temPorcentagem with
  | None => alert "Defina o regime de comissão."
  | Some tem =>
    let finalPerc := if tem then inject_Z (prof_perc fd) else 100%Q in
    update (fun prev =>
      setProfessionals
        (professionals prev ++
           [ {| Professional.id := newId;
                Professional.name := prof_name fd;
                Professional.specialty := prof_spec fd;
                Professional.phone := prof_phone fd;
                Professional.percentage := finalPerc;
                Professional.createdAt := nowISO |} ])
        prev)
  end.

(** [parseInt(fd.get('perc')) || 100]: [None] is [NaN]. *)
Definition perc_or_100 (perc : option Z) : number :=
  match perc with
  | Some p => if (p =? 0)%Z then 100%Q else inject_Z p
  | None => 100%Q
  end.

Definition handleEditProfSave (editingProf : option Professional.t)
    (name spec phone : string) (perc : option Z) (rendered : State)
    : Eff unit :=
  match editingProf with
  | None => ret tt
  | Some editing =>
    update (fun prev =>
      setProfessionals
        (List.map
           (fun p =>
              if String.eqb (Professional.id p) (Professional.id editing)
              then {| Professional.id := Professional.id p;
                      Professional.name := name;
                      Professional.specialty := spec;
                      Professional.phone := phone;
                      Professional.percentage := perc_or_100 perc;
                      Professional.createdAt := Professional.createdAt p |}
              else p)
           (professionals prev))
        prev)
  end.

(** The day navigation buttons: [setCurrentDate(d)]. *)
Definition goToDate (d : string) (rendered : State) : Eff unit :=
  update_currentDate d.

(** ** Receipt creation (Dashboard.tsx, [addReceipt]) *)

(** The submitted form, each field as the handler reads it:
    [parseInt(formData.get('professional'))] and
    [parseFloat(formData.get('value'))] are [None] when they are [NaN]
    (a negative index selects nothing either). *)
Record ReceiptForm := mkReceiptForm {
  form_professional : option nat;
  form_value : option number;
  form_type : string;
  form_method : string
}.

Definition addReceipt (formData : ReceiptForm) (now : Clock) (newId : string)
    (rendered : State) : Eff unit :=
  let prof :=
    match form_professional formData with
    | Some profIndex => nth_error (professionals rendered) profIndex
    | None => None
    end in
  match prof with
  | None => alert "Selecione um profissional"
  | Some prof =>
    match form_value formData with
    | None => alert "Valor inválido"
    | Some gross =>
      let profValue :=
        if Qeq_bool (Professional.percentage prof) 100
        then 0%Q
        else (gross * (Professional.percentage prof / 100))%Q in
      let net := (gross - profValue)%Q in
      let hours := padStart 2 "0" (String_of (getHours now)) in
      let minutes := padStart 2 "0" (String_of (getMinutes now)) in
      let seconds := padStart 2 "0" (String_of (getSeconds now)) in
      let localFullDate :=
        (currentDate rendered ++ "T" ++ hours ++ ":" ++ minutes ++ ":" ++ seconds)%string in
      let newRec :=
        {| Receipt.id := newId;
           Receipt.grossValue := gross;
           Receipt.professionalValue := profValue;
           Receipt.netClinic := net;
           Receipt.professionalId := Professional.id prof;
           Receipt.professionalName := Professional.name prof;
           Receipt.serviceType := form_type formData;
           Receipt.paymentMethod := form_method formData;
           Receipt.date := localFullDate |} in
      update (fun prev => setReceipts (receipts prev ++ [newRec]) prev)
    end
  end.

(** The expense form; [exp_value] is [parseFloat(fd.get('value'))]. *)
Record ExpenseForm := mkExpenseForm {
  exp_value : option number;
  exp_category : string;
  exp_desc : string;
  exp_method : string
}.

Definition addExpense (fd : ExpenseForm) (now : Clock) (newId : string)
    (rendered : State) : Eff unit :=
  match exp_value fd with
  | None => alert "Valor inválido"
  | Some val =>
    let localTime :=
      (padStart 2 "0" (String_of (getHours now)) ++ ":" ++
       padStart 2 "0" (String_of (getMinutes now)) ++ ":" ++
       padStart 2 "0" (String_of (getSeconds now)))%string in
    update (fun prev =>
      setExpenses
        (expenses prev ++
           [ {| Expense.id := newId;
                Expense.value := val;
                Expense.category := exp_category fd;
                Expense.description := exp_desc fd;
                Expense.paymentMethod := exp_method fd;
                Expense.date := (currentDate rendered ++ "T" ++ localTime)%string |} ])
        prev)
  end.

(** ** The component as a transition system *)

Inductive Action :=
| AddReceipt (formData : ReceiptForm) (now : Clock) (newId : string)
| RemoveReceipt (rec : Receipt.t) (answer : bool)
| AddProfessional (temPorcentagem : option bool) (fd : ProfessionalForm)
    (newId nowISO : string)
| RemoveProfessional (prof : Professional.t) (answer : bool)
| EditProfessional (editingProf : option Professional.t)
    (name spec phone : string) (perc : option Z)
| AddExpense (fd : ExpenseForm) (now : Clock) (newId : string)
| ImportData (file : option Text) (answer : bool)
| GoToDate (d : string)
| ClearBank (answer : bool) (today : string)
| Reload (today : string).

Definition handler (a : Action) : State -> Eff unit :=
  match a with
  | AddReceipt formData now newId => addReceipt formData now newId
  | RemoveReceipt rec answer => removeReceipt rec answer
  | AddProfessional tem fd newId nowISO => addProfessional tem fd newId nowISO
  | RemoveProfessional prof answer => removeProfessional prof answer
  | EditProfessional editing name spec phone perc =>
      handleEditProfSave editing name spec phone perc
  | AddExpense fd now newId => addExpense fd now newId
  | ImportData file answer => importData file answer
  | GoToDate d => goToDate d
  | ClearBank answer today => clearBank answer (mount today)
  | Reload today => fun _ => mount today
  end.

(** One user action on a settled component: the handler runs on the state
    of the last render, then the component renders again. A reload (also
    the one of [clearBank]) mounts the component afresh on the slot. The
    handlers of patients and of the stock write their own cells only and
    are left out. *)
Definition perform (a : Action) (w : World) : World :=
  match a with
  | Reload today => snd (mount today w)
  | ClearBank answer today => snd (clearBank answer (mount today) (state w) w)
  | _ => snd ((handler a (state w) ;; rerender saveEffect) w)
  end.

(** The page opened on a browser whose slot holds [slot]. *)
Definition boot (slot : option Text) (today : string) : World :=
  snd (mount today (mkWorld (initialState today) false slot [])).

Definition performAll (actions : list Action) (w : World) : World :=
  fold_left (fun w a => perform a w) actions w.

(** ** Arrays, strings and dates of the platform *)

(** [a.localeCompare(b)]: [Lt] is a negative result, [Gt] a positive one. *)
Definition localeCompare (a b : string) : comparison := String.compare a b.

(** [Array.prototype.sort(compareFn)], which is stable: an element goes
    before the first later element it does not compare greater than. *)
Fixpoint sort_insert {A} (compareFn : A -> A -> comparison) (x : A)
    (l : list A) : list A :=
  match l with
  | [] => [x]
  | y :: l' =>
    match compareFn x y with
    | Gt => y :: sort_insert compareFn x l'
    | _ => x :: y :: l'
    end
  end.

Definition Array_sort {A} (compareFn : A -> A -> comparison) (l : list A)
    : list A :=
  fold_right (sort_insert compareFn) [] l.

(** [l.reduce(f, init)]. *)
Definition Array_reduce {A B} (f : B -> A -> B) (init : B) (l : list A) : B :=
  fold_left f l init.

(** [s.split(sep)[0]]: the part of [s] before the first [sep]. *)
Fixpoint split_0 (sep : ascii) (s : string) : string :=
  match s with
  | EmptyString => EmptyString
  | String c s' =>
    if Ascii.eqb c sep then EmptyString else String c (split_0 sep s')
  end.

(** Truthiness of a string. *)
Definition truthy (s : string) : bool := negb (String.eqb s "").

(** A valid [Date] object, in local time. *)
Record DateFields := mkDateFields {
  df_year : nat;
  df_month : nat;
  df_day : nat;
  df_hours : nat;
  df_minutes : nat;
  df_seconds : nat
}.

(** A [Date] object; [None] is [Invalid Date]. *)
Definition JSDate := option DateFields.

Definition digit (c : ascii) : option nat :=
  let n := nat_of_ascii c in
  if ((48 <=? n) && (n <=? 57))%nat then Some (n - 48) else None.

Fixpoint decimal (acc : nat) (cs : list ascii) : option nat :=
  match cs with
  | [] => Some acc
  | c :: cs' =>
    match digit c with
    | Some d => decimal (10 * acc + d) cs'
    | None => None
    end
  end.

Definition isLeapYear (y : nat) : bool :=
  (((y mod 4 =? 0) && negb (y mod 100 =? 0)) || (y mod 400 =? 0))%nat.

Definition daysInMonth (y m : nat) : nat :=
  match m with
  | 1 | 3 | 5 | 7 | 8 | 10 | 12 => 31
  | 4 | 6 | 9 | 11 => 30
  | 2 => if isLeapYear y then 29 else 28
  | _ => 0
  end.

(** [new Date(s)] for a date-time text [YYYY-MM-DDTHH:MM:SS] without
    offset, which is read as local time: the fields of the date are the
    ones written (a wall-clock time skipped by a change of the clocks is
    not modelled). A text of another shape, or with a field out of range,
    is [Invalid Date] here. *)
Definition new_Date (s : string) : JSDate :=
  match list_ascii_of_string s with
  | [y1; y2; y3; y4; c1; m1; m2; c2; d1; d2; t;
     h1; h2; c3; i1; i2; c4; s1; s2] =>
    if Ascii.eqb c1 "-" && Ascii.eqb c2 "-" && Ascii.eqb t "T"
       && Ascii.eqb c3 ":" && Ascii.eqb c4 ":"
    then
      match decimal 0 [y1; y2; y3; y4], decimal 0 [m1; m2],
            decimal 0 [d1; d2], decimal 0 [h1; h2],
            decimal 0 [i1; i2], decimal 0 [s1; s2] with
      | Some y, Some m, Some d, Some h, Some i, Some sec =>
        if ((1 <=? m) && (m <=? 12) && (1 <=? d) && (d <=? daysInMonth y m)
            && (h <=? 23) && (i <=? 59) && (sec <=? 59))%nat
        then Some (mkDateFields y m d h i sec)
        else None
      | _, _, _, _, _, _ => None
      end
    else None
  | _ => None
  end.

(** [d.getMonth()] (January is 0) and [d.getFullYear()]; [None] is [NaN]. *)
Definition getMonth (d : JSDate) : option nat :=
  match d with
  | Some f => Some (df_month f - 1)
  | None => None
  end.

Definition getFullYear (d : JSDate) : option nat :=
  match d with
  | Some f => Some (df_year f)
  | None => None
  end.

(** [a === b] on numbers: [NaN] equals nothing. *)
Definition strict_eq (a b : option nat) : bool :=
  match a, b with
  | Some x, Some y => (x =? y)%nat
  | _, _ => false
  end.

(** [getTodayString()], [d] being the local date of [new Date()]. *)
Definition getTodayString (d : DateFields) : string :=
  let year := String_of (df_year d) in
  let month := padStart 2 "0" (String_of (df_month d - 1 + 1)) in
  let day := padStart 2 "0" (String_of (df_day d)) in
  (year ++ "-" ++ month ++ "-" ++ day)%string.

(** ** Ledger aggregation *)

Definition dailyReceipts (receipts : list Receipt.t) (currentDate : string)
    : list Receipt.t :=
  Array_sort
    (fun a b => localeCompare (Receipt.date b) (Receipt.date a))
    (List.filter
       (fun r => truthy (Receipt.date r)
                 && String.eqb (split_0 "T" (Receipt.date r)) currentDate)
       receipts).

(** The same list in the older revision (src/unnamed/part_000), which
    keeps the receipts whose date starts with the reference date. *)
Definition dailyReceipts_part_000 (receipts : list Receipt.t)
    (currentDate : string) : list Receipt.t :=
  Array_sort
    (fun a b => localeCompare (Receipt.date b) (Receipt.date a))
    (List.filter
       (fun r => String.prefix currentDate (Receipt.date r))
       receipts).

Definition dailyExpenses (expenses : list Expense.t) (currentDate : string)
    : list Expense.t :=
  List.filter
    (fun e => truthy (Expense.date e)
              && String.eqb (split_0 "T" (Expense.date e)) currentDate)
    expenses.

Record DailyTotals := mkDailyTotals {
  rec : number;
  exp : number;
  liq : number
}.

Definition dailyTotals (dailyReceipts : list Receipt.t)
    (dailyExpenses : list Expense.t) : DailyTotals :=
  let rec := Array_reduce (fun s r => s + Receipt.grossValue r)%Q 0%Q dailyReceipts in
  let exp := Array_reduce (fun s e => s + Expense.value e)%Q 0%Q dailyExpenses in
  let liq := Array_reduce (fun s r => s + Receipt.netClinic r)%Q 0%Q dailyReceipts in
  mkDailyTotals rec exp liq.

(** The object literal [{ pix: 0, dinheiro: 0, cartao: 0, unimed: 0 }]. *)
Definition zeroAccount : gmap string Q :=
  <["pix" := 0%Q]> (<["dinheiro" := 0%Q]> (<["cartao" := 0%Q]>
    (<["unimed" := 0%Q]> ∅))).

(** [if (acc.hasOwnProperty(method)) acc[method] += value]. *)
Definition addToAccount (acc : gmap string Q) (method : string) (value : Q)
    : gmap string Q :=
  match acc !! method with
  | Some v => <[method := (v + value)%Q]> acc
  | None => acc
  end.

(** [dailyAccountTotals] computes with amounts only; it is
    [Binary64.dailyAccountTotals]. *)

Definition monthlyReceipts (receipts : list Receipt.t) (currentDate : string)
    : list Receipt.t :=
  let targetDate := new_Date (currentDate ++ "T12:00:00")%string in
  let targetMonth := getMonth targetDate in
  let targetYear := getFullYear targetDate in
  List.filter
    (fun r =>
       let d := new_Date (Receipt.date r) in
       strict_eq (getMonth d) targetMonth
       && strict_eq (getFullYear d) targetYear)
    receipts.

(** The memo [selectedProfDetails]. *)
Record ProfDetails := mkProfDetails {
  prof : Professional.t;
  profRecs : list Receipt.t;
  paymentTotals : gmap string Q;
  bVal : number;
  pVal : number;
  cVal : number
}.

Definition selectedProfDetails (selectedProfIndex : option nat)
    (professionals : list Professional.t) (dailyReceipts : list Receipt.t)
    : option ProfDetails :=
  match selectedProfIndex with
  | None => None
  | Some i =>
    match nth_error professionals i with
    | None => None
    | Some prof =>
      let profRecs :=
        List.filter
          (fun r => String.eqb (Receipt.professionalId r) (Professional.id prof))
          dailyReceipts in
      let paymentTotals :=
        fold_left
          (fun acc r =>
             addToAccount acc (Receipt.paymentMethod r) (Receipt.grossValue r))
          profRecs zeroAccount in
      let bVal := Array_reduce (fun s r => s + Receipt.grossValue r)%Q 0%Q profRecs in
      let pVal := Array_reduce (fun s r => s + Receipt.professionalValue r)%Q 0%Q profRecs in
      let cVal := Array_reduce (fun s r => s + Receipt.netClinic r)%Q 0%Q profRecs in
      Some (mkProfDetails prof profRecs paymentTotals bVal pVal cVal)
    end
  end.

(** The same memo in the older revision (src/unnamed/part_000), where
    [prof] is not tested before [prof.id] is read by the filter: with no
    professional at the index, the first receipt looked at raises a
    [TypeError]; with no receipt to look at, the memo has no [prof]. *)
Inductive ProfDetails_part_000 :=
| NoSelection
| Details (d : ProfDetails)
| DetailsWithoutProf.

Definition selectedProfDetails_part_000 (selectedProfIndex : option nat)
    (professionals : list Professional.t) (dailyReceipts : list Receipt.t)
    : Completion ProfDetails_part_000 :=
  match selectedProfIndex with
  | None => Normal NoSelection
  | Some i =>
    match nth_error professionals i with
    | None =>
      match dailyReceipts with
      | [] => Normal DetailsWithoutProf
      | _ :: _ => Throw TypeError
      end
    | Some _ =>
      match selectedProfDetails (Some i) professionals dailyReceipts with
      | Some d => Normal (Details d)
      | None => Normal NoSelection
      end
    end
  end.

(** The cells [activeModal] and [selectedProfIndex] of the older revision
    (src/unnamed/part_000 29-30), the only revision in which a selection
    is ever made: in Dashboard.tsx [setSelectedProfIndex] is not called. *)
Record Dialog_part_000 := mkDialog_part_000 {
  dialog_activeModal : option string;
  dialog_selectedProfIndex : option nat
}.

(** The click on the card at position [idx] of the section of the day
    (part_000 391), and the close button of the dialog (part_000 465),
    the only place where the selection is reset. The dialog is drawn
    over the page, which stays in the document behind it: its buttons
    are not disabled and keep their place in the keyboard order. *)
Definition openDetail_part_000 (idx : nat) : Dialog_part_000 :=
  mkDialog_part_000 (Some "profDetail") (Some idx).

Definition closeDetail_part_000 : Dialog_part_000 :=
  mkDialog_part_000 None None.

(** The cross button of a professional in the older revision (part_000
    280): the list that is filtered is the one of the render. *)
Definition removeProfessional_part_000 (prof : Professional.t) (answer : bool)
    (rendered : State) : Eff unit :=
  ok <- confirm ("Remover " ++ Professional.name prof ++ "?")%string answer ;;
  if ok : bool then
    update
      (setProfessionals
         (List.filter
            (fun p => negb (String.eqb (Professional.id p) (Professional.id prof)))
            (professionals rendered)))
  else ret tt.

(** The memo as a render of the older revision computes it. *)
Definition render_selectedProfDetails_part_000 (dialog : Dialog_part_000)
    (rendered : State) : Completion ProfDetails_part_000 :=
  selectedProfDetails_part_000
    (dialog_selectedProfIndex dialog) (professionals rendered)
    (dailyReceipts_part_000 (receipts rendered) (currentDate rendered)).

(** * The rest of the dashboard

    The handlers and memos of the component that the properties of the
    specification leave aside: the backup file, the stock, the cash of
    the day, the chart of the month, the day navigation, and the session
    kept by [App] (src/unnamed/part_002) with its login
    form. Dashboard.tsx holds two revisions of the component, one after
    the other; the second one is the text from its line 483 on, and
    what is taken from it, or from the older src/unnamed/part_000, says
    so. *)

(** A handler that is not an [Action], run as [perform] runs one: on the
    state of the last render, followed by the next render. *)
Definition dispatch (h : State -> Eff unit) (w : World) : World :=
  snd ((h (state w) ;; rerender saveEffect) w).

(** ** Backup file (Dashboard.tsx, [exportData]) *)

(** The link that [exportData] builds and clicks: the name of the file
    and the text of the blob behind its url. [JSON.stringify(data, null,
    2)] is the text of [JSON.stringify(data)] with white space added, so
    it parses to the same object. *)
Record Link := mkLink {
  download : string;
  href : Text
}.

Definition exportData (rendered : State) : Link :=
  let data := dataOf rendered in
  {| href := JSON_stringify data;
     download := ("backup_centro_medico_" ++ currentDate rendered ++ ".json")%string |}.

(** ** Stock (Dashboard.tsx, the stock dialog of the second revision) *)

(** [x > 0]. *)
Definition gt_0 (x : number) : bool := negb (Qle_bool x 0).

(** The form of the stock dialog; [prod_qty] and [prod_min] are the
    [parseInt] of its two required numeric fields. *)
Record ProductForm := mkProductForm {
  prod_name : string;
  prod_qty : Z;
  prod_min : Z
}.

Definition addProduct (fd : ProductForm) (newId : string) (rendered : State)
    : Eff unit :=
  update (fun prev =>
    setProducts
      (products prev ++
         [ {| Product.id := newId;
              Product.name := prod_name fd;
              Product.quantity := inject_Z (prod_qty fd);
              Product.minQuantity := inject_Z (prod_min fd) |} ])
      prev).

(** The [-] button of the product [p]. *)
Definition decrementProduct (p : Product.t) (rendered : State) : Eff unit :=
  update (fun prev =>
    setProducts
      (List.map
         (fun x =>
            if String.eqb (Product.id x) (Product.id p)
               && gt_0 (Product.quantity x)
            then {| Product.id := Product.id x;
                    Product.name := Product.name x;
                    Product.quantity := (Product.quantity x - 1)%Q;
                    Product.minQuantity := Product.minQuantity x |}
            else x)
         (products prev))
      prev).

(** The [+] button of the product [p]. *)
Definition incrementProduct (p : Product.t) (rendered : State) : Eff unit :=
  update (fun prev =>
    setProducts
      (List.map
         (fun x =>
            if String.eqb (Product.id x) (Product.id p)
            then {| Product.id := Product.id x;
                    Product.name := Product.name x;
                    Product.quantity := (Product.quantity x + 1)%Q;
                    Product.minQuantity := Product.minQuantity x |}
            else x)
         (products prev))
      prev).

(** The bin button of the product [p]. *)
Definition removeProduct (p : Product.t) (answer : bool) (rendered : State)
    : Eff unit :=
  ok <- confirm "Remover?" answer ;;
  if ok : bool then
    update (fun prev =>
      setProducts
        (List.filter
           (fun x => negb (String.eqb (Product.id x) (Product.id p)))
           (products prev))
        prev)
  else ret tt.

(** ** Cash of the day (src/unnamed/part_000, the cash dialog) *)

(** [l.findIndex(f)]: [None] is [-1]. *)
Fixpoint findIndex {A} (f : A -> bool) (l : list A) : option nat :=
  match l with
  | [] => None
  | x :: l' => if f x then Some 0%nat else option_map S (findIndex f l')
  end.

(** [x || 0] on a number. *)
Definition or_0 (x : number) : number := if Qeq_bool x 0 then 0%Q else x.

(** The memo [initialCash]. *)
Definition initialCash (dailyConfigs : list DailyConfig.t)
    (currentDate : string) : number :=
  match List.find (fun c => String.eqb (DailyConfig.date c) currentDate)
                  dailyConfigs with
  | Some c => or_0 (DailyConfig.initialCash c)
  | None => 0%Q
  end.

(** The submit handler of the cash dialog; [val] is
    [parseFloat(fd.get('cash'))] of a field that holds a number. The
    arrays it passes to the setter are built from the [dailyConfigs] of
    the render; [nc[idx].initialCash = val] writes the field of the
    record at [idx] of the copy. *)
Definition saveInitialCash (val : number) (rendered : State) : Eff unit :=
  let idx :=
    findIndex (fun c => String.eqb (DailyConfig.date c) (currentDate rendered))
              (dailyConfigs rendered) in
  match idx with
  | Some idx =>
    let nc :=
      alter (fun c => {| DailyConfig.date := DailyConfig.date c;
                         DailyConfig.initialCash := val |})
            idx (dailyConfigs rendered) in
    update (setDailyConfigs nc)
  | None =>
    update (setDailyConfigs
              (dailyConfigs rendered ++
                 [ {| DailyConfig.date := currentDate rendered;
                      DailyConfig.initialCash := val |} ]))
  end.

(** ** The month and its chart (Dashboard.tsx, [totals]; [pieData] of the
    second revision)

    [totals] computes with amounts only; it is [Binary64.totals]. *)

Record Totals := mkTotals {
  brutoMes : number;
  liquidoMes : number;
  pixMes : number;
  moneyMes : number;
  cardMes : number;
  unimedMes : number
}.

(** A slice of the pie chart. *)
Record Slice := mkSlice {
  slice_name : string;
  slice_value : number;
  slice_color : string
}.

Definition pieData (totals : Totals) : list Slice :=
  List.filter
    (fun d => gt_0 (slice_value d))
    [ mkSlice "Cartão" (cardMes totals) "#ff6384";
      mkSlice "PIX" (pixMes totals) "#4bc0c0";
      mkSlice "Dinheiro" (moneyMes totals) "#ffcd56";
      mkSlice "Unimed" (unimedMes totals) "#9966ff" ].

(** ** Day navigation (Dashboard.tsx, second revision, and part_000)

    The first revision of Dashboard.tsx formats the date it sets with
    [toISOString], that is in UTC, which depends on the time zone of the
    browser; it is not embedded. *)

(** [d.getDate()]; [None] is [NaN]. *)
Definition getDate (d : JSDate) : option nat :=
  match d with
  | Some f => Some (df_day f)
  | None => None
  end.

(** The day [day >= 1] counted from the first of the month [m] of [y],
    carried over the months it exceeds; [fuel] bounds the months. *)
Fixpoint carryDays (fuel y m day : nat) : nat * nat * nat :=
  match fuel with
  | O => (y, m, day)
  | S fuel' =>
    if (day <=? daysInMonth y m)%nat then (y, m, day)
    else if (m =? 12)%nat
         then carryDays fuel' (y + 1) 1 (day - daysInMonth y m)
         else carryDays fuel' y (m + 1) (day - daysInMonth y m)
  end.

(** [d.setDate(day)] for [day >= 0]: the day of the month is set, a day
    beyond the end of the month being counted on into the months that
    follow, and day 0 being the last day of the month before; the time
    of day is kept. *)
Definition setDate (d : JSDate) (day : option nat) : JSDate :=
  match d, day with
  | Some f, Some day =>
    let '(y, m, day') :=
      if (day =? 0)%nat
      then if (df_month f =? 1)%nat
           then (df_year f - 1, 12, daysInMonth (df_year f - 1) 12)%nat
           else (df_year f, df_month f - 1,
                 daysInMonth (df_year f) (df_month f - 1))%nat
      else carryDays day (df_year f) (df_month f) day in
    Some (mkDateFields y m day' (df_hours f) (df_minutes f) (df_seconds f))
  | _, _ => None
  end.

(** [d.toLocaleDateString('en-CA')]: the local date as [YYYY-MM-DD], for
    a year of four digits. *)
Definition toLocaleDateString_en_CA (d : JSDate) : string :=
  match d with
  | Some f =>
    (String_of (df_year f) ++ "-" ++ padStart 2 "0" (String_of (df_month f))
       ++ "-" ++ padStart 2 "0" (String_of (df_day f)))%string
  | None => "Invalid Date"
  end.

(** The date the button of the day before sets. *)
Definition previousDay (currentDate : string) : string :=
  let d := new_Date (currentDate ++ "T12:00:00")%string in
  let d :=
    setDate d (match getDate d with
               | Some n => Some (n - 1)%nat
               | None => None
               end) in
  toLocaleDateString_en_CA d.

(** The date the button of the day after sets. *)
Definition nextDay (currentDate : string) : string :=
  let d := new_Date (currentDate ++ "T12:00:00")%string in
  let d :=
    setDate d (match getDate d with
               | Some n => Some (n + 1)%nat
               | None => None
               end) in
  toLocaleDateString_en_CA d.

Definition goToPreviousDay (rendered : State) : Eff unit :=
  update_currentDate (previousDay (currentDate rendered)).

Definition goToNextDay (rendered : State) : Eff unit :=
  update_currentDate (nextDay (currentDate rendered)).

(** ** Session (src/unnamed/part_002, [App], and the login form) *)

Module App.

(** The cell [isAuthenticated] of [App] and the item [cm_auth] of
    [localStorage]. *)
Record t := mk {
  isAuthenticated : bool;
  cm_auth : option string
}.

(** The effect of [App]: [if (auth === 'true') setIsAuthenticated(true)]. *)
Definition authEffect (a : t) : t :=
  match cm_auth a with
  | Some auth => if String.eqb auth "true" then mk true (cm_auth a) else a
  | None => a
  end.

(** The page opened on a browser whose item [cm_auth] is [item]. *)
Definition open (item : option string) : t :=
  authEffect (mk false item).

Definition handleLogin (success : bool) (a : t) : t :=
  if success then mk true (Some "true") else a.

Definition handleLogout (a : t) : t :=
  mk false None.

(** [handleSubmit] of the login form. Its other branch sets the cell
    [error] of the form, which shows a message for three seconds and is
    read by nothing else. *)
Definition handleSubmit (username password : string) (onLogin : bool -> t -> t)
    (a : t) : t :=
  if String.eqb username "centromedico" && String.eqb password "miguel2406"
  then onLogin true a
  else a.

(** What the user does. The login form is on the page when
    [isAuthenticated] is false, the dashboard with its logout button
    when it is true; a button that is not on the page cannot be
    pressed. *)
Inductive Input :=
| Submit (username password : string)
| Logout
| ReloadPage.

Definition step (a : t) (i : Input) : t :=
  match i with
  | Submit username password =>
    if isAuthenticated a then a
    else handleSubmit username password handleLogin a
  | Logout => if isAuthenticated a then handleLogout a else a
  | ReloadPage => open (cm_auth a)
  end.

Definition run (inputs : list Input) (a : t) : t :=
  fold_left step inputs a.

End App.

(** * Amounts in binary64

    The arithmetic of the ledger as the platform computes it: every sum,
    difference, product and quotient is rounded to the nearest binary64
    number, ties to the even one. A binary64 number is a rational, so
    the amounts stay in [Q]; the handlers and memos below are those of
    the source that compute with amounts, written with [add], [sub],
    [mul] and [div] for its [+], [-], [*] and [/]. The amount of a form
    is the number that [parseFloat] returned, a binary64 number already.
    The handlers that do no arithmetic are shared with the embedding
    above.

    The exponent is not bounded. A result beyond the largest binary64
    number (an [Infinity]) and [NaN] are not values of [Q]: what is
    proved here is for finite amounts whose results do not overflow.
    Below the smallest normal number binary64 rounds to a fixed grid, on
    which sums and differences of binary64 numbers are exact, so the
    bounds proved on [add] and [sub] hold there as well. [Kernel] has
    the split of a receipt on the binary64 numbers of the kernel, [NaN]
    included, and [round] is checked against them. *)

Module Binary64.

(** The integer nearest to [y], the even one of two that are as near. *)
Definition nearestEven (y : Q) : Z :=
  let f := Qfloor y in
  match Qcompare (y - inject_Z f) (1 # 2) with
  | Lt => f
  | Gt => (f + 1)%Z
  | Eq => if Z.even f then f else (f + 1)%Z
  end.

(** The exponent [e] of [x > 0]: [2 ^ e <= x < 2 ^ (e + 1)]. *)
Definition exponent (x : Q) : Z :=
  let k := (Z.log2 (Qnum x) - Z.log2 (Zpos (Qden x)))%Z in
  if Qle_bool (2 ^ k) x then k else (k - 1)%Z.

(** The nearest number with a significand of 53 bits. *)
Definition round (x : Q) : Q :=
  if Qeq_bool x 0 then 0%Q
  else
    let ulp := (2 ^ (exponent (Qabs x) - 52))%Q in
    (inject_Z (nearestEven (x / ulp)) * ulp)%Q.

(** The unit roundoff, [2 ^ -53], and [Number.EPSILON], [2 ^ -52]. *)
Definition u : Q := 1 # 2 ^ 53.
Definition EPSILON : Q := 1 # 2 ^ 52.

(** What [k] roundings in a row can add to a relative error:
    [(1 + u) ^ k - 1], which is at most [k * EPSILON] up to [k = 2 ^ 52]. *)
Definition gamma (k : nat) : Q := ((1 + u) ^ Z.of_nat k - 1)%Q.

Definition add (x y : Q) : Q := round (x + y).
Definition sub (x y : Q) : Q := round (x - y).
Definition mul (x y : Q) : Q := round (x * y).
Definition div (x y : Q) : Q := round (x / y).

(** [addReceipt] (Dashboard.tsx 166-200). *)
Definition addReceipt (formData : ReceiptForm) (now : Clock) (newId : string)
    (rendered : State) : Eff unit :=
  let prof :=
    match form_professional formData with
    | Some profIndex => nth_error (professionals rendered) profIndex
    | None => None
    end in
  match prof with
  | None => alert "Selecione um profissional"
  | Some prof =>
    match form_value formData with
    | None => alert "Valor inválido"
    | Some gross =>
      let profValue :=
        if Qeq_bool (Professional.percentage prof) 100
        then 0%Q
        else mul gross (div (Professional.percentage prof) 100) in
      let net := sub gross profValue in
      let hours := padStart 2 "0" (String_of (getHours now)) in
      let minutes := padStart 2 "0" (String_of (getMinutes now)) in
      let seconds := padStart 2 "0" (String_of (getSeconds now)) in
      let localFullDate :=
        (currentDate rendered ++ "T" ++ hours ++ ":" ++ minutes ++ ":" ++ seconds)%string in
      let newRec :=
        {| Receipt.id := newId;
           Receipt.grossValue := gross;
           Receipt.professionalValue := profValue;
           Receipt.netClinic := net;
           Receipt.professionalId := Professional.id prof;
           Receipt.professionalName := Professional.name prof;
           Receipt.serviceType := form_type formData;
           Receipt.paymentMethod := form_method formData;
           Receipt.date := localFullDate |} in
      update (fun prev => setReceipts (receipts prev ++ [newRec]) prev)
    end
  end.

(** The handlers of the actions: [addReceipt] is the only one that
    computes with amounts. *)
Definition handler (a : Action) : State -> Eff unit :=
  match a with
  | AddReceipt formData now newId => addReceipt formData now newId
  | _ => handler a
  end.

Definition perform (a : Action) (w : World) : World :=
  match a with
  | Reload today => snd (mount today w)
  | ClearBank answer today => snd (clearBank answer (mount today) (state w) w)
  | _ => snd ((handler a (state w) ;; rerender saveEffect) w)
  end.

Definition performAll (actions : list Action) (w : World) : World :=
  fold_left (fun w a => perform a w) actions w.

(** [dailyTotals] (Dashboard.tsx 605-610). *)
Definition dailyTotals (dailyReceipts : list Receipt.t)
    (dailyExpenses : list Expense.t) : DailyTotals :=
  let rec := Array_reduce (fun s r => add s (Receipt.grossValue r)) 0%Q dailyReceipts in
  let exp := Array_reduce (fun s e => add s (Expense.value e)) 0%Q dailyExpenses in
  let liq := Array_reduce (fun s r => add s (Receipt.netClinic r)) 0%Q dailyReceipts in
  mkDailyTotals rec exp liq.

(** [if (acc.hasOwnProperty(method)) acc[method] += value]. *)
Definition addToAccount (acc : gmap string Q) (method : string) (value : Q)
    : gmap string Q :=
  match acc !! method with
  | Some v => <[method := add v value]> acc
  | None => acc
  end.

(** [dailyAccountTotals] (Dashboard.tsx 612-619). *)
Definition dailyAccountTotals (dailyReceipts : list Receipt.t)
    : gmap string Q :=
  fold_left
    (fun acc r => addToAccount acc (Receipt.paymentMethod r) (Receipt.grossValue r))
    dailyReceipts zeroAccount.

(** [totals] (Dashboard.tsx 629-637). *)
Definition totals (monthlyReceipts : list Receipt.t) : Totals :=
  let brutoMes :=
    Array_reduce (fun sum r => add sum (Receipt.grossValue r)) 0%Q monthlyReceipts in
  let liquidoMes :=
    Array_reduce (fun sum r => add sum (Receipt.netClinic r)) 0%Q monthlyReceipts in
  let pixMes :=
    Array_reduce (fun sum r => add sum (Receipt.grossValue r)) 0%Q
      (List.filter (fun r => String.eqb (Receipt.paymentMethod r) "pix")
                   monthlyReceipts) in
  let moneyMes :=
    Array_reduce (fun sum r => add sum (Receipt.grossValue r)) 0%Q
      (List.filter (fun r => String.eqb (Receipt.paymentMethod r) "dinheiro")
                   monthlyReceipts) in
  let cardMes :=
    Array_reduce (fun sum r => add sum (Receipt.grossValue r)) 0%Q
      (List.filter (fun r => String.eqb (Receipt.paymentMethod r) "cartao")
                   monthlyReceipts) in
  let unimedMes :=
    Array_reduce (fun sum r => add sum (Receipt.grossValue r)) 0%Q
      (List.filter (fun r => String.eqb (Receipt.paymentMethod r) "unimed")
                   monthlyReceipts) in
  mkTotals brutoMes liquidoMes pixMes moneyMes cardMes unimedMes.

(** The numbers of the kernel, which are the binary64 numbers of the
    platform with their [NaN] and their infinities. *)
Module Kernel.

(** The value of a number; [None] for [NaN], [Infinity] and [-Infinity]. *)
Definition toQ (x : float) : option Q :=
  match Prim2SF x with
  | S754_zero _ => Some 0%Q
  | S754_finite s m e =>
    Some ((if s then -1 else 1) * inject_Z (Zpos m) * 2 ^ e)%Q
  | _ => None
  end.

(** [x] is the number [q]. *)
Definition equals (x : float) (q : Q) : bool :=
  match toQ x with
  | Some v => Qeq_bool v q
  | None => false
  end.

(** The number that [parseFloat] reads from a decimal text with two
    places, given in hundredths ([15] for [0.15]), and a whole number;
    both for arguments from 0 to [2 ^ 53]. *)
Definition hundredths (c : Z) : float :=
  (of_uint63 (Uint63Axioms.of_Z c) / 100)%float.

Definition whole (n : Z) : float := of_uint63 (Uint63Axioms.of_Z n).

(** [profValue] and [net] of [addReceipt] (Dashboard.tsx 176-177);
    [===] on numbers is the equality of binary64, which [NaN] does not
    satisfy. *)
Definition profValue (gross percentage : float) : float :=
  if (percentage =? 100)%float then 0%float
  else (gross * (percentage / 100))%float.

Definition net (gross percentage : float) : float :=
  (gross - profValue gross percentage)%float.

End Kernel.

End Binary64.

(** * Vocabulary of the properties *)

(** ** Sample data *)

Definition sampleProf30 : Professional.t :=
  Professional.mk "p1" "Ana" "Clinica Geral" "" 30 "2024-01-02T08:00:00.000Z".

Definition sampleProf100 : Professional.t :=
  Professional.mk "p2" "Bia" "Pediatria" "" 100 "2024-01-03T08:00:00.000Z".

Definition sampleWorld : World :=
  mkWorld
    (setProfessionals [sampleProf30; sampleProf100]
       (setIsLoaded true (initialState "2024-05-01")))
    false None [].

Definition sampleForm : ReceiptForm :=
  mkReceiptForm (Some 0%nat) (Some 200%Q) "consulta" "pix".

Definition sampleClock : Clock := mkClock 9 5 7.

(** ** Load, save and import in closed form *)

(** [x] if it is there, [old] otherwise. *)
Definition overwrite {A} (x : option A) (old : A) : A :=
  match x with
  | Some v => v
  | None => old
  end.

(** The state after the guarded assignments of the load effect. *)
Definition loadedState (d : Data) (st : State) : State :=
  mkState (isLoaded st) (currentDate st)
          (overwrite (data_professionals d) (professionals st))
          (overwrite (data_patients d) (patients st))
          (overwrite (data_receipts d) (receipts st))
          (overwrite (data_expenses d) (expenses st))
          (overwrite (data_products d) (products st))
          (overwrite (data_dailyConfigs d) (dailyConfigs st))
          (overwrite (data_serviceTypes d) (serviceTypes st)).

(** The state after the assignments of a confirmed import. *)
Definition importedState (d : Data) (st : State) : State :=
  mkState (isLoaded st) (currentDate st)
          (or_empty (data_professionals d))
          (or_empty (data_patients d))
          (or_empty (data_receipts d))
          (or_empty (data_expenses d))
          (or_empty (data_products d))
          (or_empty (data_dailyConfigs d))
          (overwrite (data_serviceTypes d) (serviceTypes st)).

(** The object a slot holds, if it holds one. *)
Definition readable (slot : option Text) : option Data :=
  match slot with
  | Some (WellFormed (JSObject d)) => Some d
  | _ => None
  end.

(** What the load effect reports on the console. *)
Definition loadLog (slot : option Text) : list Event :=
  match slot with
  | None => []
  | Some (Malformed "") => []
  | Some (Malformed _) => [ConsoleError "Falha ao restaurar banco local:"]
  | Some (WellFormed JSNull) => [ConsoleError "Falha ao restaurar banco local:"]
  | Some (WellFormed (JSObject _)) => []
  end.

Ltac destruct_data d :=
  destruct d as [[?|] [?|] [?|] [?|] [?|] [?|] [?|]].

(** ** The accounting identity *)

Definition balanced (r : Receipt.t) : Prop :=
  Receipt.professionalValue r + Receipt.netClinic r == Receipt.grossValue r.

(** Every receipt of the store satisfies the identity exactly. *)
Definition accountingIdentity (w : World) : Prop :=
  Forall balanced (receipts (state w)).

Definition isReload (a : Action) : bool :=
  match a with
  | Reload _ | ClearBank _ _ => true
  | _ => false
  end.

Definition balancedReceipt : Receipt.t :=
  Receipt.mk "r7" 80 60 20 "p1" "Ana" "retorno" "cartao" "2024-04-30T16:20:00".

Definition balancedFile : Text :=
  WellFormed (JSObject
    (mkData (Some [sampleProf30]) None (Some [balancedReceipt]) None None None
            None)).

(** A receipt whose parts do not add up, and a backup file holding it. *)
Definition unbalancedReceipt : Receipt.t :=
  Receipt.mk "x1" 100 10 10 "p1" "Ana" "consulta" "pix" "2024-05-01T10:00:00".

Definition unbalancedFile : Text :=
  WellFormed (JSObject
    (mkData None None (Some [unbalancedReceipt]) None None None None)).

(** ** Rounding *)

(** [x'] is [x] computed with at most [k] roundings in a row, the
    absolute values of what went into [x] adding up to at most [A]. *)
Definition within (k : nat) (A : Q) (x' x : Q) : Prop :=
  (Qabs x <= A /\ Qabs (x' - x) <= Binary64.gamma k * A)%Q.

(** [l.reduce((s, x) => s + f(x), 0)] in binary64. *)
Definition rounded_total {A} (f : A -> Q) (l : list A) : Q :=
  Array_reduce (fun s x => Binary64.add s (f x)) 0%Q l.

(** Amounts in hundredths, from 0.00 to 3.00 and some larger ones, and
    percentages, on which [Binary64] is compared with the numbers of the
    kernel. *)
Definition sampleAmounts : list Z :=
  (map Z.of_nat (seq 0 301)
   ++ [ 1990; 9990; 11980; 12345; 13970; 15000; 99999; 123456; 1000001;
        987654321; 4503599627370497 ])%Z.

Definition samplePercentages : list Z :=
  [ 0; 1; 3; 10; 30; 33; 50; 70; 99; 100; 250 ]%Z.

(** ** The accounting identity, up to rounding *)

(** The parts of a receipt add up to its gross value within the rounding
    of one subtraction. *)
Definition withinTolerance (r : Receipt.t) : Prop :=
  (Qabs (Receipt.professionalValue r + Receipt.netClinic r
         - Receipt.grossValue r)
   <= Binary64.u * (Qabs (Receipt.grossValue r)
                    + Qabs (Receipt.professionalValue r)))%Q.

(** The same with the parts added as the platform adds them. *)
Definition addedWithinTolerance (r : Receipt.t) : Prop :=
  (Qabs (Binary64.add (Receipt.professionalValue r) (Receipt.netClinic r)
         - Receipt.grossValue r)
   <= 3 * Binary64.u * (Qabs (Receipt.grossValue r)
                        + Qabs (Receipt.professionalValue r)))%Q.

(** The receipts that a text would bring into the store satisfy [P]. *)
Definition textHolds (P : Receipt.t -> Prop) (text : Text) : Prop :=
  match text with
  | WellFormed (JSObject d) => Forall P (or_empty (data_receipts d))
  | _ => True
  end.

Definition slotHolds (P : Receipt.t -> Prop) (slot : option Text) : Prop :=
  match slot with
  | Some text => textHolds P text
  | None => True
  end.

(** An action imports only receipts that satisfy [P]. *)
Definition actionHolds (P : Receipt.t -> Prop) (a : Action) : Prop :=
  match a with
  | ImportData (Some text) _ => textHolds P text
  | _ => True
  end.

(** The invariant: the receipts of the store and of the slot satisfy [P]. *)
Definition storeAndSlotHold (P : Receipt.t -> Prop) (w : World) : Prop :=
  Forall P (receipts (state w)) /\ slotHolds P (localStorage w).

(** A run in which a backup is imported, a professional at 10% is added
    and a receipt of 0.15 (the binary64 number that [parseFloat] reads) is
    recorded for that professional, then one of 200 for the professional at 30%. *)
Definition roundingActions : list Action :=
  [ ImportData (Some balancedFile) true;
    AddProfessional (Some true) (mkProfessionalForm "Caio" "Ortopedia" "" 10)
      "p3" "2024-01-05T08:00:00.000Z";
    AddReceipt
      (mkReceiptForm (Some 1%nat) (Some (Binary64.round (15 # 100)))
                     "consulta" "pix")
      sampleClock "r1";
    AddReceipt sampleForm (mkClock 11 0 0) "r3";
    RemoveReceipt balancedReceipt false;
    Reload "2024-05-02" ].

(** ** Startup: the order of load and save *)

Definition isSetItem (e : Event) : bool :=
  match e with
  | SetItem _ => true
  | _ => false
  end.

Definition isAlert (e : Event) : bool :=
  match e with
  | Alert _ => true
  | _ => false
  end.

(** A slot holding a saved professional, and the world of a browser that
    opens the page on it. *)
Definition savedState : State :=
  setProfessionals [sampleProf30] (setIsLoaded true (initialState "2024-05-01")).

Definition savedSlot : option Text := Some (JSON_stringify (dataOf savedState)).

Definition freshWorld (slot : option Text) (today : string) : World :=
  mkWorld (initialState today) false slot [].

(** ** Malformed input *)

Definition garbageFile : Text := Malformed "backup_centro_medico {{{".

(** The object [{}]: every top-level field is missing. *)
Definition emptyObject : Data := mkData None None None None None None None.

(** ** [Array_sort]: permutation, order, stability *)

(** [x] may stand before [y]. *)
Definition mayPrecede {A} (compareFn : A -> A -> comparison) (x y : A) : Prop :=
  compareFn x y <> Gt.

(** ** Daily receipts *)

(** The comparator and the filter of [dailyReceipts]. *)
Definition byDateDescending (a b : Receipt.t) : comparison :=
  localeCompare (Receipt.date b) (Receipt.date a).

Definition onDay (currentDate : string) (r : Receipt.t) : bool :=
  truthy (Receipt.date r)
  && String.eqb (split_0 "T" (Receipt.date r)) currentDate.

Definition stampedAt (t : string) (r : Receipt.t) : bool :=
  String.eqb (Receipt.date r) t.

(** [a] is not earlier than [b]. *)
Definition notEarlier (a b : Receipt.t) : Prop :=
  String.leb (Receipt.date b) (Receipt.date a) = true.

(** Two receipts registered within the same second. *)
Definition sameSecondWorld : World :=
  performAll
    [ AddReceipt sampleForm sampleClock "first";
      AddReceipt sampleForm sampleClock "last" ]
    sampleWorld.

(** ** Totals by payment method *)

Definition methodIs (m : string) (r : Receipt.t) : bool :=
  String.eqb (Receipt.paymentMethod r) m.

Definition enumerated (m : string) : Prop :=
  m = "pix" \/ m = "dinheiro" \/ m = "cartao" \/ m = "unimed".

(** Decide the comparisons of string literals in the goal. *)
Ltac eval_string_tests :=
  repeat match goal with
         | |- context [String.eqb ?a ?b] =>
           let v := eval vm_compute in (String.eqb a b) in
           change (String.eqb a b) with v; cbv iota
         end.

(** Two receipts of one day: 100 by pix and 50 in cash. *)
Definition twoReceipts : list Receipt.t :=
  [ Receipt.mk "r1" 100 70 30 "p1" "Ana" "consulta" "pix" "2024-05-01T09:00:00";
    Receipt.mk "r2" 50 50 0 "p2" "Bia" "retorno" "dinheiro" "2024-05-01T10:15:00" ].

(** Three receipts of one day: 19.90 by pix, 19.90 in cash and 99.90 by
    pix, the amounts being the binary64 numbers that [parseFloat] reads. *)
Definition threeReceipts : list Receipt.t :=
  [ Receipt.mk "r1" (Binary64.round (199 # 10)) (Binary64.round (199 # 10)) 0
      "p2" "Bia" "consulta" "pix" "2024-05-01T11:00:00";
    Receipt.mk "r2" (Binary64.round (199 # 10)) (Binary64.round (199 # 10)) 0
      "p2" "Bia" "retorno" "dinheiro" "2024-05-01T10:00:00";
    Receipt.mk "r3" (Binary64.round (999 # 10)) (Binary64.round (999 # 10)) 0
      "p2" "Bia" "consulta" "pix" "2024-05-01T09:00:00" ].

(** ** Removing a professional *)

(** A clinic with one professional and one receipt of hers today. *)
Definition oneProfWorld : World :=
  performAll
    [ AddProfessional (Some true) (mkProfessionalForm "Ana" "Clinica Geral" "" 30)
        "p1" "2024-01-02T08:00:00.000Z";
      AddReceipt sampleForm sampleClock "r1" ]
    (boot None "2024-05-01").

(** ** Dates written and read back *)

(** The timestamp [addReceipt] writes. *)
Definition localFullDate (currentDate : string) (now : Clock) : string :=
  (currentDate ++ "T" ++ padStart 2 "0" (String_of (getHours now)) ++ ":"
     ++ padStart 2 "0" (String_of (getMinutes now)) ++ ":"
     ++ padStart 2 "0" (String_of (getSeconds now)))%string.

(** The reference date of a calendar day, as [getTodayString] writes it. *)
Definition dateString (year month day : nat) : string :=
  (String_of year ++ "-" ++ padStart 2 "0" (String_of month) ++ "-"
     ++ padStart 2 "0" (String_of day))%string.

Definition validDate (y m d : nat) : Prop :=
  (1000 <= y < 10 * 1000 /\ 1 <= m <= 12 /\ 1 <= d <= daysInMonth y m)%nat.

Definition validTime (now : Clock) : Prop :=
  (getHours now <= 23 /\ getMinutes now <= 59 /\ getSeconds now <= 59)%nat.

(** Writing a number and reading it back, checked on all the values. *)
Definition fourDigits (y : nat) : bool :=
  match list_ascii_of_string (String_of y) with
  | [a; b; c; e] =>
    match decimal 0 [a; b; c; e] with
    | Some v => (v =? y)%nat
    | None => false
    end
  | _ => false
  end.

Definition twoDigits (n : nat) : bool :=
  match list_ascii_of_string (padStart 2 "0" (String_of n)) with
  | [a; b] =>
    match decimal 0 [a; b] with
    | Some v => (v =? n)%nat
    | None => false
    end
  | _ => false
  end.

Definition noon : Clock := mkClock 12 0 0.

(** ** Monthly receipts *)

(** Two dates fall in the same calendar month of the same year. *)
Definition sameMonth (a b : JSDate) : Prop :=
  exists y m,
    getFullYear a = Some y /\ getMonth a = Some m
    /\ getFullYear b = Some y /\ getMonth b = Some m.

Definition lastOfMay : Receipt.t :=
  Receipt.mk "r9" 120 84 36 "p1" "Ana" "cirurgia" "unimed" "2024-05-31T23:59:59".

(** ** Timestamps of one day are ordered as the clock *)

Definition secondsOfDay (now : Clock) : nat :=
  getHours now * 3600 + getMinutes now * 60 + getSeconds now.

Definition twoDigitsOrdered (n n' : nat) : bool :=
  match String.compare (padStart 2 "0" (String_of n))
                       (padStart 2 "0" (String_of n')),
        Nat.compare n n' with
  | Eq, Eq | Lt, Lt | Gt, Gt => true
  | _, _ => false
  end.

(** ** Vocabulary of the further properties *)

(** The slot holds the snapshot of the store and no render is pending. *)
Definition mirrored (w : World) : Prop :=
  localStorage w = Some (JSON_stringify (dataOf (state w)))
  /\ isLoaded (state w) = true
  /\ scheduled w = false.

(** What a handler may do: it returns normally, leaves the slot and the
    loaded flag alone, only adds to the trace, and either schedules a
    render or leaves the persisted collections as they are. *)
Definition orderly (h : State -> Eff unit) : Prop :=
  forall w : World,
    exists st' sch' log,
      h (state w) w
        = (Normal tt, mkWorld st' sch' (localStorage w) (trace w ++ log))
      /\ isLoaded st' = isLoaded (state w)
      /\ (sch' = true \/ (sch' = scheduled w /\ dataOf st' = dataOf (state w))).

(** The professional that the form selects. *)
Definition selected (formData : ReceiptForm) (st : State)
    : option Professional.t :=
  match form_professional formData with
  | Some profIndex => nth_error (professionals st) profIndex
  | None => None
  end.

(** The plain sum of an amount over a list. *)
Fixpoint total {A} (f : A -> Q) (l : list A) : Q :=
  match l with
  | [] => 0
  | x :: l' => f x + total f l'
  end.

(** An action that replaces or erases what the store holds. *)
Definition destructive (a : Action) : bool :=
  match a with
  | ImportData (Some _) true => true
  | ClearBank true _ => true
  | _ => false
  end.

(** A receipt paid by none of the four methods of the totals. *)
Definition unlisted (r : Receipt.t) : bool :=
  negb (methodIs "pix" r || methodIs "dinheiro" r || methodIs "cartao" r
        || methodIs "unimed" r).

(** A quantity of the stock that is a whole number and not negative. *)
Definition inStock (p : Product.t) : Prop :=
  exists n : Z, (0 <= n)%Z /\ Product.quantity p == inject_Z n.

(** The same product, with the same quantity. *)
Definition sameProduct (a b : Product.t) : Prop :=
  Product.id a = Product.id b
  /\ Product.name a = Product.name b
  /\ Product.quantity a == Product.quantity b
  /\ Product.minQuantity a = Product.minQuantity b.

Definition sampleStock : World :=
  mkWorld
    (setProducts [ Product.mk "g1" "Gaze" 2 1; Product.mk "l1" "Luvas" 0 5 ]
       (setIsLoaded true (initialState "2024-05-01")))
    false None [].


Definition sampleExpenseForm : ExpenseForm :=
  mkExpenseForm (Some 35%Q) "material" "Luvas" "dinheiro".

(** * Lemmas and theorems *)

(** ** Rendering and the state *)

Lemma saveEffect_state (rendered : State) (w : World) :
  state (snd (saveEffect rendered w)) = state w.
Proof. unfold saveEffect. destruct (isLoaded rendered); reflexivity. Qed.

Lemma rerender_state (w : World) :
  state (snd (rerender saveEffect w)) = state w.
Proof.
  unfold rerender. destruct (scheduled w); [|reflexivity].
  unfold bind; cbn. rewrite saveEffect_state. reflexivity.
Qed.

Lemma state_then_rerender (m : Eff unit) (w : World) :
  state (snd ((m ;; rerender saveEffect) w)) = state (snd (m w)).
Proof.
  unfold bind. destruct (m w) as [[a|e] w']; [|reflexivity].
  apply rerender_state.
Qed.

(** ** Commission split *)


(** What a validated submission does: one receipt is appended, split by
    the percentage of the selected professional. *)
Lemma addReceipt_valid (formData : ReceiptForm) (now : Clock)
    (newId : string) (w : World) (profIndex : nat) (prof : Professional.t)
    (g : Q) :
  form_professional formData = Some profIndex ->
  nth_error (professionals (state w)) profIndex = Some prof ->
  form_value formData = Some g ->
  exists r,
    state (perform (AddReceipt formData now newId) w)
      = setReceipts (receipts (state w) ++ [r]) (state w)
    /\ Receipt.grossValue r = g
    /\ Receipt.professionalValue r
         = (if Qeq_bool (Professional.percentage prof) 100
            then 0%Q else (g * (Professional.percentage prof / 100))%Q)
    /\ Receipt.netClinic r = (g - Receipt.professionalValue r)%Q
    /\ Receipt.professionalId r = Professional.id prof
    /\ Receipt.professionalName r = Professional.name prof
    /\ Receipt.date r
       = (currentDate (state w) ++ "T"
            ++ padStart 2 "0" (String_of (getHours now)) ++ ":"
            ++ padStart 2 "0" (String_of (getMinutes now)) ++ ":"
            ++ padStart 2 "0" (String_of (getSeconds now)))%string.
Proof.
  intros Hidx Hprof Hval.
  unfold perform, handler. rewrite state_then_rerender.
  unfold addReceipt. rewrite Hidx, Hprof, Hval. cbn.
  eexists; repeat split; reflexivity.
Qed.



(** ** Load, save and import in closed form *)

Lemma loadEffect_eq (w : World) :
  loadEffect w =
    (Normal tt,
     mkWorld
       (setIsLoaded true
          (match readable (localStorage w) with
           | Some d => loadedState d (state w)
           | None => state w
           end))
       true (localStorage w) (trace w ++ loadLog (localStorage w))).
Proof.
  destruct w as [st sch slot tr]. unfold loadEffect, bind, getItem; cbn.
  destruct slot as [[raw | [ | d]] | ]; cbn.
  - destruct raw as [|c raw]; cbn; rewrite ?app_nil_r; reflexivity.
  - reflexivity.
  - destruct_data d; cbn; rewrite ?app_nil_r; reflexivity.
  - rewrite app_nil_r. reflexivity.
Qed.

Lemma rerender_scheduled (save : State -> Eff unit) (w : World) :
  scheduled w = true ->
  rerender save w
    = save (state w) (mkWorld (state w) false (localStorage w) (trace w)).
Proof.
  intros H. unfold rerender. rewrite H. reflexivity.
Qed.

(** Mounting in closed form: the state is the loaded one, and the only
    write to the slot is made after the load, with the loaded state. *)
Lemma mount_eq (today : string) (w : World) :
  let st1 :=
    setIsLoaded true
      (match readable (localStorage w) with
       | Some d => loadedState d (initialState today)
       | None => initialState today
       end) in
  mount today w =
    (Normal tt,
     mkWorld st1 false (Some (JSON_stringify (dataOf st1)))
             (trace w ++ loadLog (localStorage w)
                ++ [SetItem (JSON_stringify (dataOf st1))])).
Proof.
  intros st1. unfold mount, bind. cbn [rendered_with].
  rewrite loadEffect_eq. cbn [saveEffect initialState isLoaded ret].
  rewrite rerender_scheduled by reflexivity.
  cbn. unfold setItem. cbn [state scheduled localStorage trace].
  rewrite <- app_assoc. reflexivity.
Qed.

Lemma importData_eq (text : Text) (answer : bool) (rendered : State)
    (w : World) :
  importData (Some text) answer rendered w =
    match text with
    | Malformed _ =>
      (Normal tt,
       mkWorld (state w) (scheduled w) (localStorage w)
               (trace w ++ [Alert "Erro ao importar: Arquivo inválido."]))
    | WellFormed v =>
      let asked :=
        trace w ++ [Confirm "Isso irá substituir todos os dados atuais. Deseja continuar?"] in
      if answer then
        match v with
        | JSNull =>
          (Normal tt,
           mkWorld (state w) (scheduled w) (localStorage w)
                   (asked ++ [Alert "Erro ao importar: Arquivo inválido."]))
        | JSObject d =>
          (Normal tt,
           mkWorld (importedState d (state w)) true (localStorage w)
                   (asked ++ [Alert "Dados importados com sucesso!"]))
        end
      else
        (Normal tt, mkWorld (state w) (scheduled w) (localStorage w) asked)
    end.
Proof.
  destruct w as [st sch slot tr].
  destruct text as [raw | [ | d]]; cbn.
  - reflexivity.
  - destruct answer; reflexivity.
  - destruct answer; [|reflexivity].
    destruct_data d; reflexivity.
Qed.

(** ** Filters *)

Lemma Forall_filter_bool {A} (P : A -> Prop) (f : A -> bool) (l : list A) :
  Forall P l -> Forall P (List.filter f l).
Proof.
  induction 1 as [|x l Hx Hl IH]; cbn; [constructor|].
  destruct (f x); [constructor|]; assumption.
Qed.

Lemma filter_length_bound {X} (f : X -> bool) (l : list X) :
  (length (List.filter f l) <= length l)%nat.
Proof.
  induction l as [|x l IH]; cbn; [lia|]. destruct (f x); cbn; lia.
Qed.

(** ** Rounding *)

Lemma nearestEven_error (y : Q) :
  (Qabs (inject_Z (Binary64.nearestEven y) - y) <= 1 # 2)%Q.
Proof.
  unfold Binary64.nearestEven.
  pose proof (Qfloor_le y) as Hlo. pose proof (Qlt_floor y) as Hhi.
  rewrite inject_Z_plus in Hhi. change (inject_Z 1) with 1%Q in Hhi.
  apply Qabs_Qle_condition.
  destruct (Qcompare (y - inject_Z (Qfloor y)) (1 # 2)) eqn:Hc.
  - apply Qeq_alt in Hc.
    destruct (Z.even (Qfloor y));
      [|rewrite inject_Z_plus; change (inject_Z 1) with 1%Q]; lra.
  - apply Qlt_alt in Hc. lra.
  - apply Qgt_alt in Hc. rewrite inject_Z_plus.
    change (inject_Z 1) with 1%Q. lra.
Qed.

Lemma pow2_pos (z : Z) : (0 < 2 ^ z)%Q.
Proof. apply Qpower_0_lt. reflexivity. Qed.

(** [exponent] is the exponent: [2 ^ e <= x < 2 ^ (e + 1)]. *)
Lemma exponent_spec (x : Q) :
  (0 < x)%Q ->
  (2 ^ Binary64.exponent x <= x /\ x < 2 ^ (Binary64.exponent x + 1))%Q.
Proof.
  intros Hx. unfold Binary64.exponent.
  set (k := (Z.log2 (Qnum x) - Z.log2 (Z.pos (Qden x)))%Z).
  assert (Hup : (x < 2 ^ (k + 1))%Q /\ (2 ^ (k - 1) <= x)%Q).
  { destruct x as [n d]. cbn [Qnum Qden] in *.
    assert (Hn : (0 < n)%Z) by (unfold Qlt in Hx; cbn in Hx; lia).
    destruct (Z.log2_spec n Hn) as [Hn1 Hn2].
    destruct (Z.log2_spec (Z.pos d) ltac:(lia)) as [Hd1 Hd2].
    pose proof (Z.log2_nonneg n) as Hln.
    pose proof (Z.log2_nonneg (Z.pos d)) as Hld.
    split.
    - replace (k + 1)%Z with (Z.succ (Z.log2 n) + - Z.log2 (Z.pos d))%Z
        by (unfold k; lia).
      rewrite Qpower_plus by discriminate. rewrite Qpower_opp.
      change 2%Q with (inject_Z 2).
      rewrite <- !Zpower_Qpower by lia.
      set (a := (2 ^ Z.succ (Z.log2 n))%Z) in *.
      set (b := (2 ^ Z.log2 (Z.pos d))%Z) in *.
      assert (Hb : (0 < b)%Z) by (unfold b; apply Z.pow_pos_nonneg; lia).
      destruct b as [|b|b]; try lia.
      unfold Qlt, Qmult, Qinv; cbn. nia.
    - replace (k - 1)%Z with (Z.log2 n + - (Z.succ (Z.log2 (Z.pos d))))%Z
        by (unfold k; lia).
      rewrite Qpower_plus by discriminate. rewrite Qpower_opp.
      change 2%Q with (inject_Z 2).
      rewrite <- !Zpower_Qpower by lia.
      set (a := (2 ^ Z.log2 n)%Z) in *.
      set (b := (2 ^ Z.succ (Z.log2 (Z.pos d)))%Z) in *.
      assert (Hb : (0 < b)%Z) by lia.
      assert (Ha : (0 < a)%Z) by (unfold a; apply Z.pow_pos_nonneg; lia).
      destruct b as [|b|b]; try lia.
      unfold Qle, Qmult, Qinv; cbn. nia. }
  destruct Hup as [Hlt Hge].
  destruct (Qle_bool (2 ^ k) x) eqn:Hk.
  - split; [apply Qle_bool_iff, Hk | exact Hlt].
  - split; [exact Hge|].
    replace (k - 1 + 1)%Z with k by lia.
    apply Qnot_le_lt. intros Hle. apply Qle_bool_iff in Hle. congruence.
Qed.

(** Rounding moves a number by at most the unit roundoff, relatively. *)
Lemma round_error (x : Q) :
  (Qabs (Binary64.round x - x) <= Binary64.u * Qabs x)%Q.
Proof.
  unfold Binary64.round.
  destruct (Qeq_bool x 0) eqn:H0.
  - apply Qeq_bool_iff in H0. rewrite H0. discriminate.
  - assert (Hne : ~ x == 0) by (intros H; apply Qeq_bool_iff in H; congruence).
    assert (Hpos : (0 < Qabs x)%Q).
    { destruct (Qlt_le_dec 0 (Qabs x)) as [H|H]; [exact H|].
      exfalso. apply Hne. pose proof (Qabs_nonneg x).
      assert (Hz : Qabs x == 0) by lra.
      revert Hz. apply Qabs_case; intros; lra. }
    destruct (exponent_spec (Qabs x) Hpos) as [He _].
    set (e := Binary64.exponent (Qabs x)) in *.
    set (ulp := (2 ^ (e - 52))%Q).
    assert (Hulp : (0 < ulp)%Q) by apply pow2_pos.
    assert (Hulp2 : ulp == 2 ^ e * / 2 ^ 52).
    { unfold ulp. unfold Z.sub. rewrite Qpower_plus by discriminate.
      rewrite Qpower_opp. reflexivity. }
    pose proof (nearestEven_error (x / ulp)) as Hm.
    set (m := inject_Z (Binary64.nearestEven (x / ulp))) in *.
    assert (Heq : m * ulp - x == (m - x / ulp) * ulp) by (field; lra).
    rewrite Heq, Qabs_Qmult, (Qabs_pos ulp) by lra.
    apply Qle_trans with ((1 # 2) * ulp)%Q.
    + apply Qmult_le_compat_r; [exact Hm | lra].
    + rewrite Hulp2.
      assert (Hu : (1 # 2) * / 2 ^ 52 == Binary64.u) by reflexivity.
      assert (H53 : (1 # 2) * (2 ^ e * / 2 ^ 52)
                    == ((1 # 2) * / 2 ^ 52) * 2 ^ e) by ring.
      rewrite H53, Hu. apply Qmult_le_l; [reflexivity | exact He].
Qed.

Lemma u_pos : (0 < Binary64.u)%Q.
Proof. reflexivity. Qed.

Lemma gamma_0 : Binary64.gamma 0 == 0.
Proof. reflexivity. Qed.

Lemma gamma_S (k : nat) :
  Binary64.gamma (S k)
  == Binary64.gamma k + Binary64.u + Binary64.u * Binary64.gamma k.
Proof.
  unfold Binary64.gamma. rewrite Nat2Z.inj_succ. unfold Z.succ.
  rewrite Qpower_plus by discriminate.
  change ((1 + Binary64.u) ^ 1)%Q with (1 + Binary64.u)%Q. ring.
Qed.

Lemma gamma_nonneg (k : nat) : (0 <= Binary64.gamma k)%Q.
Proof.
  induction k as [|k IH]; [rewrite gamma_0; apply Qle_refl|].
  rewrite gamma_S. pose proof u_pos as Hu.
  pose proof (Qmult_le_0_compat _ _ (Qlt_le_weak _ _ Hu) IH). lra.
Qed.

Lemma gamma_mono (k k' : nat) :
  (k <= k')%nat -> (Binary64.gamma k <= Binary64.gamma k')%Q.
Proof.
  induction 1 as [|k' _ IH]; [apply Qle_refl|].
  rewrite gamma_S. pose proof u_pos as Hu.
  pose proof (gamma_nonneg k') as Hg.
  pose proof (Qmult_le_0_compat _ _ (Qlt_le_weak _ _ Hu) Hg). lra.
Qed.

(** Up to [2 ^ 52] roundings, [gamma k] is at most [k * EPSILON]. *)
Lemma gamma_le_EPSILON (k : nat) :
  (Z.of_nat k <= 2 ^ 52)%Z ->
  (Binary64.gamma k <= inject_Z (Z.of_nat k) * Binary64.EPSILON)%Q.
Proof.
  induction k as [|k IH]; intros Hk.
  - rewrite gamma_0. discriminate.
  - rewrite gamma_S. rewrite Nat2Z.inj_succ in *. unfold Z.succ in *.
    rewrite inject_Z_plus. change (inject_Z 1) with 1%Q.
    specialize (IH ltac:(lia)).
    assert (Hku : (inject_Z (Z.of_nat k) * Binary64.EPSILON <= 1)%Q).
    { unfold Binary64.EPSILON, Qle, Qmult; cbn [Qnum Qden inject_Z].
      change (Z.pos (1 * 2 ^ 52)) with (2 ^ 52)%Z. lia. }
    assert (He : Binary64.EPSILON == 2 * Binary64.u) by reflexivity.
    pose proof u_pos as Hu.
    assert (Hp : (Binary64.u * Binary64.gamma k
                  <= Binary64.u * (inject_Z (Z.of_nat k) * Binary64.EPSILON))%Q).
    { apply Qmult_le_l; [exact Hu | exact IH]. }
    assert (Hq : (Binary64.u * (inject_Z (Z.of_nat k) * Binary64.EPSILON)
                  <= Binary64.u * 1)%Q).
    { apply Qmult_le_l; [exact Hu | exact Hku]. }
    lra.
Qed.

Lemma within_exact (k : nat) (A x : Q) : (Qabs x <= A)%Q -> within k A x x.
Proof.
  intros Hx. split; [exact Hx|].
  assert (H0 : x - x == 0) by ring. rewrite H0. change (Qabs 0) with 0%Q.
  apply Qmult_le_0_compat; [apply gamma_nonneg|].
  apply Qle_trans with (Qabs x); [apply Qabs_nonneg | exact Hx].
Qed.

Lemma within_mono (k k' : nat) (A x' x : Q) :
  (k <= k')%nat -> within k A x' x -> within k' A x' x.
Proof.
  intros Hk [Hx He]. split; [exact Hx|].
  apply Qle_trans with (Binary64.gamma k * A)%Q; [exact He|].
  apply Qmult_le_compat_r; [apply gamma_mono, Hk|].
  apply Qle_trans with (Qabs x); [apply Qabs_nonneg | exact Hx].
Qed.

Lemma within_eq (k : nat) (A B x' x y : Q) :
  A == B -> x == y -> within k A x' x -> within k B x' y.
Proof.
  intros HA Hx [H1 H2]. unfold within. rewrite <- HA, <- Hx.
  split; assumption.
Qed.

(** One more sum, one more rounding. *)
Lemma within_add (k : nat) (A B a' a b' b : Q) :
  within k A a' a -> within k B b' b ->
  within (S k) (A + B) (Binary64.add a' b') (a + b).
Proof.
  intros [Ha Ea] [Hb Eb]. unfold Binary64.add.
  pose proof (round_error (a' + b')) as Hr.
  pose proof (gamma_nonneg k) as Hg. pose proof u_pos as Hu.
  pose proof (Qabs_nonneg a) as Ha0. pose proof (Qabs_nonneg b) as Hb0.
  pose proof (Qabs_triangle a b) as Hab.
  split; [lra|].
  rewrite gamma_S.
  set (G := Binary64.gamma k) in *.
  assert (Hs : (Qabs (a' + b' - (a + b)) <= G * (A + B))%Q).
  { assert (E : a' + b' - (a + b) == (a' - a) + (b' - b)) by ring.
    rewrite E. pose proof (Qabs_triangle (a' - a) (b' - b)). lra. }
  assert (Hs' : (Qabs (a' + b') <= (A + B) + G * (A + B))%Q).
  { assert (E : a' + b' == (a + b) + (a' + b' - (a + b))) by ring.
    rewrite E at 1.
    pose proof (Qabs_triangle (a + b) (a' + b' - (a + b))). lra. }
  assert (Hu' : (Binary64.u * Qabs (a' + b')
                 <= Binary64.u * ((A + B) + G * (A + B)))%Q).
  { apply Qmult_le_l; [exact Hu | exact Hs']. }
  assert (E : Binary64.round (a' + b') - (a + b)
              == (Binary64.round (a' + b') - (a' + b'))
                 + (a' + b' - (a + b))) by ring.
  rewrite E.
  pose proof (Qabs_triangle (Binary64.round (a' + b') - (a' + b'))
                            (a' + b' - (a + b))) as Ht.
  assert (E2 : (G + Binary64.u + Binary64.u * G) * (A + B)
               == Binary64.u * ((A + B) + G * (A + B)) + G * (A + B)) by ring.
  rewrite E2. lra.
Qed.

(** A left-to-right sum of [n] amounts has at most [n] roundings. *)
Lemma fold_add_within {X} (f : X -> Q) (l : list X) (k : nat)
    (A acc' acc : Q) :
  within k A acc' acc ->
  within (k + length l) (A + total (fun x => Qabs (f x)) l)
         (fold_left (fun s x => Binary64.add s (f x)) l acc')
         (acc + total f l).
Proof.
  revert k A acc' acc. induction l as [|x l IH]; intros k A acc' acc H.
  - cbn [fold_left total length]. rewrite Nat.add_0_r.
    apply (within_eq k A (A + 0) acc' acc (acc + 0)); [ring | ring | exact H].
  - cbn [fold_left total length].
    assert (Hx : within k (Qabs (f x)) (f x) (f x))
      by (apply within_exact, Qle_refl).
    pose proof (IH (S k) _ _ _ (within_add k _ _ _ _ _ _ H Hx)) as H1.
    rewrite Nat.add_succ_r.
    change (S (k + length l)) with (S k + length l)%nat.
    eapply within_eq; [| | exact H1]; ring.
Qed.

Lemma rounded_total_within {X} (f : X -> Q) (l : list X) :
  within (length l) (total (fun x => Qabs (f x)) l)
         (rounded_total f l) (total f l).
Proof.
  unfold rounded_total, Array_reduce.
  pose proof (fold_add_within f l 0 0 0 0 (within_exact 0 0 0 (Qle_refl 0)))
    as H.
  eapply within_eq; [| | exact H]; ring.
Qed.

(** [Binary64] computes what the numbers of the kernel compute: on the
    sample amounts and percentages the amount read, the share of the
    professional and the net value of [addReceipt] are the same numbers,
    and so is the left-to-right sum of the amounts. *)
Lemma Binary64_agrees_with_kernel :
  forallb
    (fun c =>
       let g := Binary64.round (c # 100) in
       Binary64.Kernel.equals (Binary64.Kernel.hundredths c) g
       && forallb
            (fun p =>
               let pv :=
                 if Qeq_bool (inject_Z p) 100 then 0%Q
                 else Binary64.mul g (Binary64.div (inject_Z p) 100) in
               Binary64.Kernel.equals
                 (Binary64.Kernel.profValue (Binary64.Kernel.hundredths c)
                                            (Binary64.Kernel.whole p))
                 pv
               && Binary64.Kernel.equals
                    (Binary64.Kernel.net (Binary64.Kernel.hundredths c)
                                         (Binary64.Kernel.whole p))
                    (Binary64.sub g pv))
            samplePercentages)
    sampleAmounts
  = true
  /\ Binary64.Kernel.equals
       (fold_left (fun s c => (s + Binary64.Kernel.hundredths c)%float)
                  sampleAmounts 0%float)
       (rounded_total (fun c => Binary64.round (c # 100)) sampleAmounts)
     = true.
Proof. split; vm_compute; reflexivity. Qed.

(** A percentage that is [NaN] gives parts that are [NaN], whatever the
    gross value. *)
Lemma profValue_of_NaN_percentage (gross : float) :
  Prim2SF (Binary64.Kernel.profValue gross nan) = S754_nan
  /\ Prim2SF (Binary64.Kernel.net gross nan) = S754_nan.
Proof.
  assert (Hpv : Prim2SF (Binary64.Kernel.profValue gross nan) = S754_nan).
  { unfold Binary64.Kernel.profValue.
    change (nan =? 100)%float with false. cbv iota.
    rewrite mul_spec.
    change (Prim2SF (nan / 100)) with S754_nan.
    unfold SF64mul, SFmul. destruct (Prim2SF gross); reflexivity. }
  split; [exact Hpv|].
  unfold Binary64.Kernel.net. rewrite sub_spec, Hpv.
  unfold SF64sub, SFsub. destruct (Prim2SF gross); reflexivity.
Qed.

(** ** The accounting identity, up to rounding *)

Lemma overwrite_holds (P : Receipt.t -> Prop) (x : option (list Receipt.t))
    (old : list Receipt.t) :
  Forall P (or_empty x) -> Forall P old -> Forall P (overwrite x old).
Proof. destruct x; cbn; auto. Qed.

(** The net value is the rounded difference: the parts add up to the
    gross value within the rounding of that subtraction. *)
Lemma sub_withinTolerance (g pv : Q) :
  (Qabs (pv + Binary64.sub g pv - g) <= Binary64.u * (Qabs g + Qabs pv))%Q.
Proof.
  unfold Binary64.sub. pose proof (round_error (g - pv)) as Hr.
  assert (E : pv + Binary64.round (g - pv) - g
              == Binary64.round (g - pv) - (g - pv)) by ring.
  rewrite E.
  apply Qle_trans with (Binary64.u * Qabs (g - pv))%Q; [exact Hr|].
  apply Qmult_le_l; [apply u_pos|].
  pose proof (Qabs_triangle g (- pv)) as Ht. rewrite Qabs_opp in Ht.
  exact Ht.
Qed.

(** A sum that is near an amount is still near it once it is rounded. *)
Lemma round_near (s g T : Q) :
  (Qabs (s - g) <= T)%Q -> (Binary64.u * Qabs g <= T)%Q ->
  (Qabs (Binary64.round s - g) <= 3 * T)%Q.
Proof.
  intros Hs Hg. pose proof (round_error s) as Hr. pose proof u_pos as Hu.
  pose proof (Qabs_nonneg (s - g)) as H0.
  assert (Habs : (Qabs s <= Qabs g + T)%Q).
  { assert (E : s == g + (s - g)) by ring. rewrite E at 1.
    pose proof (Qabs_triangle g (s - g)). lra. }
  assert (Hus : (Binary64.u * Qabs s <= Binary64.u * (Qabs g + T))%Q).
  { apply Qmult_le_l; [exact Hu | exact Habs]. }
  assert (HuT : (Binary64.u * T <= T)%Q).
  { assert (E : T == 1 * T) by ring. rewrite E at 2.
    apply Qmult_le_compat_r; [discriminate | lra]. }
  assert (E : Binary64.round s - g == (Binary64.round s - s) + (s - g)) by ring.
  rewrite E.
  pose proof (Qabs_triangle (Binary64.round s - s) (s - g)) as Ht.
  assert (E2 : Binary64.u * (Qabs g + T)
               == Binary64.u * Qabs g + Binary64.u * T) by ring.
  lra.
Qed.

(** Parts that add up within the tolerance when added exactly add up
    within three times the tolerance when added as the platform adds. *)
Lemma withinTolerance_added (r : Receipt.t) :
  withinTolerance r -> addedWithinTolerance r.
Proof.
  unfold withinTolerance, addedWithinTolerance, Binary64.add. intros H.
  rewrite <- Qmult_assoc. apply round_near; [exact H|].
  apply Qmult_le_l; [apply u_pos|].
  pose proof (Qabs_nonneg (Receipt.professionalValue r)). lra.
Qed.

(** A handler leaves the slot alone, returns normally, and keeps the
    receipts of the store within the tolerance. *)
Lemma Binary64_handler_frame (a : Action) (w : World) :
  isReload a = false ->
  exists st' sch' log,
    Binary64.handler a (state w) w
      = (Normal tt, mkWorld st' sch' (localStorage w) (trace w ++ log))
    /\ (Forall withinTolerance (receipts (state w)) ->
        actionHolds withinTolerance a ->
        Forall withinTolerance (receipts st')).
Proof.
  destruct w as [st sch slot tr]. cbn [state localStorage trace].
  destruct a; cbn [isReload Binary64.handler handler]; intros Hr;
    try discriminate.
  - (* addReceipt *)
    unfold Binary64.addReceipt.
    destruct (form_professional formData) as [i|]; cbn.
    2:{ do 3 eexists; split; [reflexivity|]; auto. }
    destruct (nth_error (professionals st) i) as [p|]; cbn.
    2:{ do 3 eexists; split; [reflexivity|]; auto. }
    destruct (form_value formData) as [g|]; cbn.
    2:{ do 3 eexists; split; [reflexivity|]; auto. }
    eexists _, true, []. rewrite app_nil_r. split; [reflexivity|].
    intros Hb _. cbn. apply Forall_app. split; [exact Hb|].
    constructor; [|constructor]. unfold withinTolerance; cbn.
    apply sub_withinTolerance.
  - (* removeReceipt *)
    unfold removeReceipt, bind, confirm; cbn. destruct answer; cbn.
    + do 3 eexists; split; [reflexivity|].
      intros Hb _. cbn. apply Forall_filter_bool, Hb.
    + do 3 eexists; split; [reflexivity|]. auto.
  - (* addProfessional *)
    unfold addProfessional. destruct temPorcentagem as [tem|]; cbn.
    + eexists _, true, []. rewrite app_nil_r. split; [reflexivity|]. auto.
    + do 3 eexists; split; [reflexivity|]. auto.
  - (* removeProfessional *)
    unfold removeProfessional, bind, confirm; cbn. destruct answer; cbn.
    + do 3 eexists; split; [reflexivity|]. auto.
    + do 3 eexists; split; [reflexivity|]. auto.
  - (* handleEditProfSave *)
    unfold handleEditProfSave. destruct editingProf as [e|]; cbn.
    + eexists _, true, []. rewrite app_nil_r. split; [reflexivity|]. auto.
    + exists st, sch, []. rewrite app_nil_r. split; [reflexivity|]. auto.
  - (* addExpense *)
    unfold addExpense. destruct (exp_value fd) as [v|]; cbn.
    + eexists _, true, []. rewrite app_nil_r. split; [reflexivity|]. auto.
    + do 3 eexists; split; [reflexivity|]. auto.
  - (* importData *)
    destruct file as [text|].
    + rewrite importData_eq. cbn [state scheduled localStorage trace].
      destruct text as [raw | [ | d]].
      * do 3 eexists; split; [reflexivity|]. auto.
      * destruct answer.
        -- rewrite <- app_assoc. do 3 eexists; split; [reflexivity|]. auto.
        -- do 3 eexists; split; [reflexivity|]. auto.
      * destruct answer.
        -- rewrite <- app_assoc. do 3 eexists; split; [reflexivity|].
           intros _ Hd. exact Hd.
        -- do 3 eexists; split; [reflexivity|]. auto.
    + exists st, sch, []. rewrite app_nil_r. split; [reflexivity|]. auto.
  - (* goToDate *)
    eexists _, sch, []. rewrite app_nil_r. split; [reflexivity|]. auto.
Qed.

Lemma rerender_saveEffect_holds (P : Receipt.t -> Prop) (w : World) :
  storeAndSlotHold P w ->
  storeAndSlotHold P (snd (rerender saveEffect w)).
Proof.
  intros [Hst Hslot]. unfold rerender, saveEffect.
  destruct (scheduled w); [|split; assumption].
  unfold bind; cbn. destruct (isLoaded (state w)); cbn; split; assumption.
Qed.

Lemma mount_holds (P : Receipt.t -> Prop) (today : string) (w : World) :
  slotHolds P (localStorage w) ->
  storeAndSlotHold P (snd (mount today w)).
Proof.
  intros Hslot. rewrite mount_eq. cbn.
  assert (H : Forall P
                (receipts
                   (match readable (localStorage w) with
                    | Some d => loadedState d (initialState today)
                    | None => initialState today
                    end))).
  { destruct (localStorage w) as [[raw | [ | d]] | ]; cbn; try constructor.
    apply overwrite_holds; [exact Hslot | constructor]. }
  split; exact H.
Qed.

Lemma Binary64_perform_holds (a : Action) (w : World) :
  storeAndSlotHold withinTolerance w -> actionHolds withinTolerance a ->
  storeAndSlotHold withinTolerance (Binary64.perform a w).
Proof.
  intros [Hst Hslot] Ha.
  destruct (isReload a) eqn:Hr.
  - destruct a; try discriminate.
    + cbn [Binary64.perform]. unfold clearBank, bind, confirm; cbn.
      destruct answer; cbn; [|split; assumption].
      split; cbn; constructor.
    + cbn. apply mount_holds, Hslot.
  - destruct (Binary64_handler_frame a w Hr) as (st' & sch' & log & Heq & Hb).
    assert (Hp : Binary64.perform a w
                 = snd ((Binary64.handler a (state w) ;; rerender saveEffect) w)).
    { destruct a; try reflexivity; discriminate. }
    rewrite Hp. unfold bind. rewrite Heq.
    apply rerender_saveEffect_holds. split; cbn; auto.
Qed.

Lemma Binary64_performAll_holds (actions : list Action) (w : World) :
  storeAndSlotHold withinTolerance w ->
  Forall (actionHolds withinTolerance) actions ->
  storeAndSlotHold withinTolerance (Binary64.performAll actions w).
Proof.
  intros Hw Ha. revert w Hw.
  induction Ha as [|a actions Ha _ IH]; intros w Hw; cbn; [exact Hw|].
  apply IH, Binary64_perform_holds; assumption.
Qed.

(** What a validated submission does in binary64. *)
Lemma Binary64_addReceipt_valid (formData : ReceiptForm) (now : Clock)
    (newId : string) (w : World) (prof : Professional.t) (g : Q) :
  selected formData (state w) = Some prof ->
  form_value formData = Some g ->
  exists r,
    state (Binary64.perform (AddReceipt formData now newId) w)
      = setReceipts (receipts (state w) ++ [r]) (state w)
    /\ Receipt.grossValue r = g
    /\ Receipt.professionalValue r
         = (if Qeq_bool (Professional.percentage prof) 100
            then 0%Q
            else Binary64.mul g (Binary64.div (Professional.percentage prof) 100))
    /\ Receipt.netClinic r = Binary64.sub g (Receipt.professionalValue r).
Proof.
  intros Hsel Hval. unfold selected in Hsel.
  unfold Binary64.perform, Binary64.handler. rewrite state_then_rerender.
  unfold Binary64.addReceipt. rewrite Hsel, Hval. cbn.
  eexists; repeat split; reflexivity.
Qed.

(** For a gross value that is not negative and a percentage from 0 to
    100, the share of the professional lies between 0 and the gross value
    but for its rounding. *)
Lemma profValue_bounds (g pct : Q) :
  (0 <= g)%Q -> (0 <= pct <= 100)%Q ->
  (0 <= Binary64.mul g (Binary64.div pct 100)
   <= (1 + Binary64.u) * ((1 + Binary64.u) * g))%Q.
Proof.
  intros Hg [Hp0 Hp100]. pose proof u_pos as Hu.
  assert (Hu1 : (Binary64.u <= 1)%Q) by discriminate.
  unfold Binary64.mul, Binary64.div.
  set (c := (pct / 100)%Q).
  assert (Hc : (0 <= c <= 1)%Q).
  { unfold c, Qdiv. change (/ 100)%Q with (1 # 100)%Q. lra. }
  pose proof (round_error c) as Hq.
  rewrite (Qabs_pos c) in Hq by apply Hc.
  set (q := Binary64.round c) in *.
  apply Qabs_Qle_condition in Hq.
  assert (Huc : (0 <= Binary64.u * c <= Binary64.u)%Q).
  { split; [apply Qmult_le_0_compat; lra|].
    assert (E : Binary64.u == Binary64.u * 1) by ring.
    rewrite E at 2. apply Qmult_le_l; lra. }
  assert (Huc' : (Binary64.u * c <= c)%Q).
  { assert (E : c == 1 * c) by ring. rewrite E at 2.
    apply Qmult_le_compat_r; lra. }
  assert (Hq' : (0 <= q <= 1 + Binary64.u)%Q) by lra.
  set (x := (g * q)%Q).
  assert (Hx : (0 <= x <= (1 + Binary64.u) * g)%Q).
  { unfold x. split; [apply Qmult_le_0_compat; lra|].
    rewrite (Qmult_comm g q). apply Qmult_le_compat_r; lra. }
  pose proof (round_error x) as Hpv.
  rewrite (Qabs_pos x) in Hpv by apply Hx.
  apply Qabs_Qle_condition in Hpv.
  assert (Hux : (0 <= Binary64.u * x <= x)%Q).
  { split; [apply Qmult_le_0_compat; lra|].
    assert (E : x == 1 * x) by ring. rewrite E at 2.
    apply Qmult_le_compat_r; lra. }
  assert (Hux' : (Binary64.u * x <= Binary64.u * ((1 + Binary64.u) * g))%Q).
  { apply Qmult_le_l; lra. }
  assert (E : (1 + Binary64.u) * ((1 + Binary64.u) * g)
              == (1 + Binary64.u) * g + Binary64.u * ((1 + Binary64.u) * g))
    by ring.
  rewrite E. split; lra.
Qed.

(** The split of a receipt, for a gross value that is not negative and a
    percentage from 0 to 100: the parts add up to the gross value within
    [EPSILON] times the gross value, and within three times the unit
    roundoff times the gross value when they are added as the platform
    adds them. *)
Lemma split_within_EPSILON (g pct : Q) :
  (0 <= g)%Q -> (0 <= pct <= 100)%Q ->
  let profValue :=
    if Qeq_bool pct 100 then 0%Q
    else Binary64.mul g (Binary64.div pct 100) in
  (Qabs (profValue + Binary64.sub g profValue - g) <= Binary64.EPSILON * g)%Q
  /\ (Qabs (Binary64.add profValue (Binary64.sub g profValue) - g)
      <= 3 * Binary64.u * g)%Q.
Proof.
  intros Hg Hp profValue. pose proof u_pos as Hu.
  assert (Hpv : (0 <= profValue <= (1 + Binary64.u) * ((1 + Binary64.u) * g))%Q).
  { subst profValue. destruct (Qeq_bool pct 100).
    - split; [apply Qle_refl|].
      apply Qmult_le_0_compat; [lra|]. apply Qmult_le_0_compat; lra.
    - apply profValue_bounds; assumption. }
  clearbody profValue.
  set (B := ((1 + Binary64.u) * ((1 + Binary64.u) * g))%Q) in *.
  assert (HB : (g <= B)%Q).
  { unfold B.
    assert (H1 : (g <= (1 + Binary64.u) * g)%Q).
    { assert (E1 : g == 1 * g) by ring. rewrite E1 at 1.
      apply Qmult_le_compat_r; lra. }
    assert (H2 : ((1 + Binary64.u) * g
                  <= (1 + Binary64.u) * ((1 + Binary64.u) * g))%Q).
    { apply Qmult_le_l; lra. }
    lra. }
  assert (Habs : (Qabs (g - profValue) <= B)%Q).
  { apply Qabs_Qle_condition. split; lra. }
  (* the exact sum is within u * (1 + u) ^ 2 * g of the gross value *)
  assert (Hsum : (Qabs (profValue + Binary64.sub g profValue - g)
                  <= Binary64.u * B)%Q).
  { unfold Binary64.sub. pose proof (round_error (g - profValue)) as Hr.
    assert (E : profValue + Binary64.round (g - profValue) - g
                == Binary64.round (g - profValue) - (g - profValue)) by ring.
    rewrite E.
    apply Qle_trans with (Binary64.u * Qabs (g - profValue))%Q; [exact Hr|].
    apply Qmult_le_l; [exact Hu | exact Habs]. }
  assert (HuB : (Binary64.u * B <= (3 # 2) * Binary64.u * g)%Q).
  { unfold B.
    assert (E2 : Binary64.u * ((1 + Binary64.u) * ((1 + Binary64.u) * g))
                 == (Binary64.u * ((1 + Binary64.u) * (1 + Binary64.u))) * g)
      by ring.
    rewrite E2. apply Qmult_le_compat_r; [|exact Hg]. discriminate. }
  assert (HE : Binary64.EPSILON * g == 2 * (Binary64.u * g)).
  { assert (E3 : Binary64.EPSILON == 2 * Binary64.u) by reflexivity.
    rewrite E3. ring. }
  pose proof (Qmult_le_0_compat _ _ (Qlt_le_weak _ _ Hu) Hg) as Hug.
  split.
  - rewrite HE. lra.
  - unfold Binary64.add.
    pose proof (round_error (profValue + Binary64.sub g profValue)) as Hr.
    set (s := (profValue + Binary64.sub g profValue)%Q) in *.
    assert (Hs : (Qabs s <= g + (3 # 2) * Binary64.u * g)%Q).
    { assert (E : s == g + (s - g)) by ring. rewrite E at 1.
      pose proof (Qabs_triangle g (s - g)) as Ht.
      rewrite (Qabs_pos g) in Ht by exact Hg. lra. }
    assert (Hus : (Binary64.u * Qabs s
                   <= Binary64.u * (g + (3 # 2) * Binary64.u * g))%Q).
    { apply Qmult_le_l; [exact Hu | exact Hs]. }
    assert (Huu : (Binary64.u * ((3 # 2) * Binary64.u * g)
                   <= (1 # 2) * (Binary64.u * g))%Q).
    { assert (E : Binary64.u * ((3 # 2) * Binary64.u * g)
                  == ((3 # 2) * Binary64.u) * (Binary64.u * g)) by ring.
      rewrite E. apply Qmult_le_compat_r; [discriminate | exact Hug]. }
    assert (E : Binary64.round s - g == (Binary64.round s - s) + (s - g))
      by ring.
    rewrite E.
    pose proof (Qabs_triangle (Binary64.round s - s) (s - g)) as Ht.
    assert (E4 : Binary64.u * (g + (3 # 2) * Binary64.u * g)
                 == Binary64.u * g + Binary64.u * ((3 # 2) * Binary64.u * g))
      by ring.
    assert (E5 : 3 * Binary64.u * g == 3 * (Binary64.u * g)) by ring.
    assert (E6 : (3 # 2) * Binary64.u * g == (3 # 2) * (Binary64.u * g)) by ring.
    rewrite E5. lra.
Qed.

(** C2 (as amended). In binary64 the accounting identity holds up to
    rounding: [professionalValue + netClinic] differs from [grossValue]
    by at most the rounding of the subtraction that [addReceipt] makes,
    the unit roundoff times [|grossValue| + |professionalValue|], and by
    at most three times as much when the two parts are added as the
    platform adds them. Receipt creation establishes this and every
    handler of the store preserves it; load and import take the receipts
    of the slot or file as they are, so it holds in every state reached
    from a slot whose receipts are within the tolerance through actions
    that import such receipts only. For a gross value that is not
    negative and a percentage from 0 to 100 the difference is at most
    [EPSILON] times the gross value, and three times the unit roundoff
    times the gross value when the parts are added as the platform adds
    them; at 100 the share of the professional is 0. *)
Theorem accounting_identity_within_tolerance :
  (forall (slot : option Text) (today : string) (actions : list Action),
     slotHolds withinTolerance slot ->
     Forall (actionHolds withinTolerance) actions ->
     Forall (fun r => withinTolerance r /\ addedWithinTolerance r)
            (receipts (state (Binary64.performAll actions (boot slot today)))))
  /\ (forall (formData : ReceiptForm) (now : Clock) (newId : string)
             (w : World) (prof : Professional.t) (g : Q),
        selected formData (state w) = Some prof ->
        form_value formData = Some g ->
        exists r,
          receipts (state (Binary64.perform (AddReceipt formData now newId) w))
            = receipts (state w) ++ [r]
          /\ Receipt.grossValue r = g
          /\ withinTolerance r
          /\ addedWithinTolerance r
          /\ ((0 <= g)%Q -> (0 <= Professional.percentage prof <= 100)%Q ->
              (Qabs (Receipt.professionalValue r + Receipt.netClinic r - g)
               <= Binary64.EPSILON * g)%Q
              /\ (Qabs (Binary64.add (Receipt.professionalValue r)
                                     (Receipt.netClinic r) - g)
                  <= 3 * Binary64.u * g)%Q)
          /\ (Professional.percentage prof == 100 ->
              Receipt.professionalValue r = 0%Q)).
Proof.
  split.
  - intros slot today actions Hslot Ha.
    assert (H : Forall withinTolerance
                  (receipts (state (Binary64.performAll actions
                                                        (boot slot today))))).
    { apply (Binary64_performAll_holds actions (boot slot today)); [|exact Ha].
      unfold boot. apply mount_holds. exact Hslot. }
    apply List.Forall_forall. intros r Hr.
    rewrite List.Forall_forall in H. specialize (H r Hr).
    split; [exact H | apply withinTolerance_added, H].
  - intros formData now newId w prof g Hsel Hval.
    destruct (Binary64_addReceipt_valid formData now newId w prof g Hsel Hval)
      as (r & Hst & Hg & Hpv & Hnet).
    assert (Hw : withinTolerance r).
    { unfold withinTolerance. rewrite Hnet, Hg. apply sub_withinTolerance. }
    exists r. split; [rewrite Hst; reflexivity|]. split; [exact Hg|].
    split; [exact Hw|]. split; [apply withinTolerance_added, Hw|].
    split.
    + intros Hg0 Hp.
      destruct (split_within_EPSILON g (Professional.percentage prof) Hg0 Hp)
        as [Hexact Hadded].
      rewrite Hnet, Hpv. split; [exact Hexact | exact Hadded].
    + intros H100. apply Qeq_bool_iff in H100. rewrite Hpv, H100. reflexivity.
Qed.

Lemma accounting_identity_within_tolerance_witness :
  Forall (fun r => withinTolerance r /\ addedWithinTolerance r)
         (receipts (state (Binary64.performAll roundingActions
                                               (boot None "2024-05-01")))).
Proof.
  apply (proj1 accounting_identity_within_tolerance None "2024-05-01"
               roundingActions).
  - exact I.
  - unfold roundingActions.
    repeat (constructor; try exact I).
    unfold withinTolerance; cbn. discriminate.
Defined.

(** The identity is not exact: in the run [roundingActions] the receipt
    of 0.15 for the professional at 10% is stored with parts whose exact sum
    is not 0.15 and whose sum as the platform adds them is
    0.15000000000000002, on the numbers of the kernel as well; the
    receipts of 80 and of 200 are exact. *)
Lemma addReceipt_rounds :
  let rs :=
    receipts (state (Binary64.performAll roundingActions
                                         (boot None "2024-05-01"))) in
  let exact r :=
    Qeq_bool (Receipt.professionalValue r + Receipt.netClinic r)
             (Receipt.grossValue r) in
  let added r :=
    Binary64.add (Receipt.professionalValue r) (Receipt.netClinic r) in
  map Receipt.id rs = ["r7"; "r1"; "r3"]
  /\ map exact rs = [true; false; true]
  /\ map (fun r => Qeq_bool (added r) (Receipt.grossValue r)) rs
     = [true; false; true]
  /\ option_map Receipt.grossValue (nth_error rs 1)
     = Some (Binary64.round (15 # 100))
  /\ option_map
       (fun r =>
          Qeq_bool (added r)
                   (Binary64.round (15000000000000002 # 100000000000000000)))
       (nth_error rs 1)
     = Some true
  /\ option_map
       (fun r =>
          Binary64.Kernel.equals (Binary64.Kernel.profValue (15 / 100) 10)
                                 (Receipt.professionalValue r)
          && Binary64.Kernel.equals (Binary64.Kernel.net (15 / 100) 10)
                                    (Receipt.netClinic r))
       (nth_error rs 1)
     = Some true
  /\ (Binary64.Kernel.profValue (15 / 100) 10
      + Binary64.Kernel.net (15 / 100) 10 =? 15 / 100)%float = false.
Proof.
  cbv zeta. repeat split; vm_compute; reflexivity.
Qed.

(** C2 (as stated) fails: a confirmed import puts the receipts of the
    file in the store without looking at their amounts, here one whose
    parts are 80 short of its gross value, far beyond any rounding; and
    for a professional whose percentage is [NaN], which the
    new-professional form stores when [parseInt] cannot read the field,
    [addReceipt] computes parts that are [NaN], whatever the gross
    value, and whose sum is not the gross value. *)
Lemma import_breaks_accounting_identity :
  ~ accountingIdentity
      (performAll [ImportData (Some unbalancedFile) true]
                  (boot None "2024-05-01"))
  /\ ~ Forall withinTolerance
         (receipts (state (Binary64.performAll
                             [ImportData (Some unbalancedFile) true]
                             (boot None "2024-05-01"))))
  /\ (forall gross : float,
        Prim2SF (Binary64.Kernel.profValue gross nan) = S754_nan
        /\ Prim2SF (Binary64.Kernel.net gross nan) = S754_nan)
  /\ is_nan (Binary64.Kernel.profValue 100 nan
             + Binary64.Kernel.net 100 nan)%float = true
  /\ (Binary64.Kernel.profValue 100 nan + Binary64.Kernel.net 100 nan
      =? 100)%float = false.
Proof.
  split; [|split; [|split; [exact profValue_of_NaN_percentage | split]]].
  - unfold accountingIdentity. cbn. intros H.
    inversion H as [|r l Hr _]; subst.
    unfold balanced in Hr; cbn in Hr. discriminate Hr.
  - cbn. intros H. inversion H as [|r l Hr _]; subst.
    unfold withinTolerance in Hr; cbn in Hr.
    apply Qle_bool_iff in Hr. vm_compute in Hr. discriminate Hr.
  - vm_compute. reflexivity.
  - vm_compute. reflexivity.
Qed.

(** ** Startup: the order of load and save *)

Lemma loadLog_quiet (slot : option Text) :
  forallb (fun e => negb (isSetItem e) && negb (isAlert e)) (loadLog slot) = true.
Proof.
  destruct slot as [[raw | [ | d]] | ]; try reflexivity.
  destruct raw; reflexivity.
Qed.

(** In Dashboard.tsx the save effect is guarded by [isLoaded]: mounting
    writes the slot once, after the load, and what it writes is the
    loaded state. *)
Lemma mount_writes_after_load (today : string) (w : World) :
  let w' := snd (mount today w) in
  exists log,
    trace w' = trace w ++ log ++ [SetItem (JSON_stringify (dataOf (state w')))]
    /\ forallb (fun e => negb (isSetItem e)) log = true
    /\ isLoaded (state w') = true.
Proof.
  cbn zeta. rewrite mount_eq. cbn [snd trace state].
  exists (loadLog (localStorage w)). split; [reflexivity|]. split.
  - pose proof (loadLog_quiet (localStorage w)) as H.
    rewrite forallb_forall in H |- *. intros e He.
    apply H in He. apply andb_true_iff in He. tauto.
  - reflexivity.
Qed.

(** So a slot written by the save effect survives a reload untouched. *)
Lemma mount_keeps_saved_slot (today : string) (st : State) (w : World) :
  localStorage w = Some (JSON_stringify (dataOf st)) ->
  localStorage (snd (mount today w)) = localStorage w.
Proof.
  intros H. rewrite mount_eq. cbn [snd localStorage]. rewrite H. cbn.
  reflexivity.
Qed.

Lemma loadEffect_part_000_eq (w : World) :
  exists st' sch',
    loadEffect_part_000 w
      = (Normal tt,
         mkWorld st' sch' (localStorage w)
                 (trace w ++
                    match loadLog (localStorage w) with
                    | [] => []
                    | _ => [ConsoleError "Erro ao carregar"]
                    end)).
Proof.
  destruct w as [st sch slot tr]. unfold loadEffect_part_000, bind, getItem; cbn.
  destruct slot as [[raw | [ | d]] | ]; cbn.
  - destruct raw as [|c raw]; cbn; rewrite ?app_nil_r; do 2 eexists; reflexivity.
  - do 2 eexists; reflexivity.
  - destruct_data d; cbn; rewrite ?app_nil_r; do 2 eexists; reflexivity.
  - rewrite app_nil_r. do 2 eexists; reflexivity.
Qed.

(** C3 (violated by src/unnamed/part_000). The save effect of the older
    revision is not guarded: whatever the slot holds, the first thing its
    mount writes to the slot is the initial state, before the loaded
    collections are in the state; on a slot with a saved professional the
    slot is overwritten with empty collections and only then rewritten. *)
Theorem mount_part_000_writes_before_load :
  (forall (slot : option Text) (today : string),
     exists log rest,
       trace (snd (mount_part_000 today (freshWorld slot today)))
         = log ++ SetItem (JSON_stringify (dataOf (initialState today))) :: rest
       /\ forallb (fun e => negb (isSetItem e)) log = true)
  /\ trace (snd (mount_part_000 "2024-05-02" (freshWorld savedSlot "2024-05-02")))
     = [ SetItem (JSON_stringify (dataOf (initialState "2024-05-02")));
         SetItem (JSON_stringify (dataOf savedState)) ]
  /\ dataOf (initialState "2024-05-02") <> dataOf savedState.
Proof.
  split; [|split].
  - intros slot today. unfold mount_part_000, bind, rendered_with, freshWorld.
    cbn [state scheduled localStorage trace].
    destruct (loadEffect_part_000_eq
                (mkWorld (initialState today) false slot [])) as (st' & sch' & Heq).
    cbn [state scheduled localStorage trace] in Heq. rewrite Heq.
    unfold saveEffect_part_000 at 1. unfold setItem at 1.
    cbn [state scheduled localStorage trace app].
    unfold rerender. cbn [scheduled].
    exists (match loadLog slot with
            | [] => []
            | _ :: _ => [ConsoleError "Erro ao carregar"]
            end).
    destruct sch'; cbn.
    + eexists. split; [rewrite <- app_assoc; reflexivity|].
      destruct (loadLog slot); reflexivity.
    + eexists. split; [reflexivity|].
      destruct (loadLog slot); reflexivity.
  - reflexivity.
  - intros H. discriminate H.
Qed.

(** ** Round trip through the slot *)

(** C4. Loading what the save effect wrote gives the state back: after
    [save(state)], mounting the component on the slot yields the seven
    collections of [state], and the very same state when the page is
    opened on the same day. *)
Theorem load_save_roundtrip (st : State) (w : World) (today : string) :
  isLoaded st = true ->
  let saved := snd (saveEffect st w) in
  dataOf (state (snd (mount today saved))) = dataOf st
  /\ state (snd (mount (currentDate st) saved)) = st.
Proof.
  intros Hl. cbn zeta. unfold saveEffect. rewrite Hl.
  rewrite !mount_eq. cbn [snd state setItem localStorage].
  cbn [readable JSON_stringify].
  destruct st as [l d ps pa rs es pr dc sv]. cbn in Hl. subst l.
  split; reflexivity.
Qed.

Lemma load_save_roundtrip_witness :
  isLoaded savedState = true
  /\ state (snd (mount "2024-05-01"
                   (snd (saveEffect savedState (freshWorld None "2024-05-01")))))
     = savedState.
Proof.
  split; [reflexivity|].
  apply (load_save_roundtrip savedState (freshWorld None "2024-05-01")
           "2024-05-01" eq_refl).
Defined.

(** ** Malformed input *)

(** C5. An import file that fails to parse is reported with an alert and
    nothing else happens: every collection of the state, the slot and the
    pending render are as before. *)
Theorem importData_malformed_is_atomic (text : Text) (answer : bool)
    (w : World) :
  fst (JSON_parse text w) = Throw SyntaxError ->
  importData (Some text) answer (state w) w
    = (Normal tt,
       mkWorld (state w) (scheduled w) (localStorage w)
               (trace w ++ [Alert "Erro ao importar: Arquivo inválido."]))
  /\ state (perform (ImportData (Some text) answer) w) = state w.
Proof.
  intros Hparse.
  assert (Heq : importData (Some text) answer (state w) w
    = (Normal tt,
       mkWorld (state w) (scheduled w) (localStorage w)
               (trace w ++ [Alert "Erro ao importar: Arquivo inválido."]))).
  { rewrite importData_eq. destruct text as [raw|v]; [reflexivity|].
    cbn in Hparse. discriminate Hparse. }
  split; [exact Heq|].
  unfold perform, handler. rewrite state_then_rerender, Heq. reflexivity.
Qed.

Lemma importData_malformed_is_atomic_witness :
  fst (JSON_parse garbageFile sampleWorld) = Throw SyntaxError
  /\ state (perform (ImportData (Some garbageFile) true) sampleWorld)
     = state sampleWorld.
Proof.
  split; [reflexivity|].
  apply (importData_malformed_is_atomic garbageFile true sampleWorld eq_refl).
Defined.

(** C6 (as stated) fails: with the field [serviceTypes] missing from a
    parseable slot, the collection is not empty after the load but holds
    the four default service types; the same is true when the slot
    does not parse. *)
Lemma load_missing_serviceTypes_keeps_defaults :
  serviceTypes (state (boot (Some (WellFormed (JSObject emptyObject))) "2024-05-01"))
    = defaultServiceTypes
  /\ serviceTypes (state (boot (Some (Malformed "{oops")) "2024-05-01"))
    = defaultServiceTypes
  /\ defaultServiceTypes <> [].
Proof.
  split; [reflexivity|]. split; [reflexivity|]. discriminate.
Qed.

(** C6 (as amended). A slot that does not parse (or holds [null]) is
    caught: the mount completes, nothing is shown to the user, and the
    state is the one of a browser without saved data, that is the
    initial state, with six empty collections and the four default
    service types. In a slot that parses, each field that is present
    replaces its collection and each missing field leaves the initial
    value of its collection: empty, except for [serviceTypes], which
    keeps the four defaults. *)
Theorem load_tolerates_slot (today : string) :
  (forall text : Text,
     readable (Some text) = None ->
     let w := freshWorld (Some text) today in
     fst (mount today w) = Normal tt
     /\ state (boot (Some text) today) = state (boot None today)
     /\ forallb (fun e => negb (isAlert e)) (trace (boot (Some text) today)) = true)
  /\ state (boot None today) = setIsLoaded true (initialState today)
  /\ (forall d : Data,
       let st := state (boot (Some (WellFormed (JSObject d))) today) in
       fst (mount today (freshWorld (Some (WellFormed (JSObject d))) today))
         = Normal tt
       /\ isLoaded st = true
       /\ professionals st = or_empty (data_professionals d)
       /\ patients st = or_empty (data_patients d)
       /\ receipts st = or_empty (data_receipts d)
       /\ expenses st = or_empty (data_expenses d)
       /\ products st = or_empty (data_products d)
       /\ dailyConfigs st = or_empty (data_dailyConfigs d)
       /\ serviceTypes st = overwrite (data_serviceTypes d) defaultServiceTypes).
Proof.
  split; [|split].
  - intros text Hr. cbn zeta. unfold boot, freshWorld.
    rewrite !mount_eq. cbn [fst snd state localStorage trace].
    rewrite Hr. cbn [readable].
    split; [reflexivity|]. split; [reflexivity|].
    cbn [app]. rewrite forallb_app. apply andb_true_iff. split; [|reflexivity].
    pose proof (loadLog_quiet (Some text)) as H.
    rewrite forallb_forall in H |- *. intros e He.
    apply H in He. apply andb_true_iff in He. tauto.
  - reflexivity.
  - intros d. cbn zeta. unfold boot, freshWorld. rewrite !mount_eq.
    cbn [fst snd state localStorage readable].
    destruct_data d; cbn; repeat split; reflexivity.
Qed.

Lemma load_tolerates_slot_witness :
  readable (Some (Malformed "{oops")) = None
  /\ state (boot (Some (Malformed "{oops")) "2024-05-01")
     = state (boot None "2024-05-01").
Proof.
  split; [reflexivity|].
  apply (proj1 (load_tolerates_slot "2024-05-01") (Malformed "{oops") eq_refl).
Defined.

(** ** [Array_sort]: permutation, order, stability *)

Section ArraySort.
Context {A : Type} (compareFn : A -> A -> comparison).

Hypothesis compareFn_total :
  forall x y, compareFn x y = Gt -> mayPrecede compareFn y x.
Hypothesis mayPrecede_trans :
  forall x y z,
    mayPrecede compareFn x y -> mayPrecede compareFn y z ->
    mayPrecede compareFn x z.

Lemma sort_insert_Permutation (x : A) (l : list A) :
  Permutation (sort_insert compareFn x l) (x :: l).
Proof.
  induction l as [|y l IH]; cbn; [reflexivity|].
  destruct (compareFn x y); try reflexivity.
  rewrite IH. apply perm_swap.
Qed.

Lemma Array_sort_Permutation (l : list A) :
  Permutation (Array_sort compareFn l) l.
Proof.
  induction l as [|x l IH]; cbn; [reflexivity|].
  rewrite sort_insert_Permutation. constructor. exact IH.
Qed.

Lemma sort_insert_sorted (x : A) (l : list A) :
  StronglySorted (mayPrecede compareFn) l ->
  StronglySorted (mayPrecede compareFn) (sort_insert compareFn x l).
Proof.
  induction 1 as [|y l Hs IH Hy]; cbn.
  - constructor; constructor.
  - destruct (compareFn x y) eqn:Hc.
    + constructor; [constructor; assumption|].
      assert (Hxy : mayPrecede compareFn x y) by (unfold mayPrecede; congruence).
      constructor; [exact Hxy|].
      eapply List.Forall_impl; [|exact Hy]. intros z Hz.
      eapply mayPrecede_trans; eassumption.
    + constructor; [constructor; assumption|].
      assert (Hxy : mayPrecede compareFn x y) by (unfold mayPrecede; congruence).
      constructor; [exact Hxy|].
      eapply List.Forall_impl; [|exact Hy]. intros z Hz.
      eapply mayPrecede_trans; eassumption.
    + constructor; [exact IH|].
      apply List.Forall_forall. intros z Hz.
      apply (Permutation_in _ (sort_insert_Permutation x l)) in Hz.
      destruct Hz as [<- | Hz].
      * apply compareFn_total, Hc.
      * revert z Hz. apply List.Forall_forall, Hy.
Qed.

Lemma Array_sort_sorted (l : list A) :
  StronglySorted (mayPrecede compareFn) (Array_sort compareFn l).
Proof.
  induction l as [|x l IH]; cbn; [constructor|].
  apply sort_insert_sorted, IH.
Qed.

(** Stability: elements that compare equal keep their order. *)
Section Stable.
Variable p : A -> bool.
Hypothesis p_ties :
  forall x y, p x = true -> p y = true -> compareFn x y <> Gt.

Lemma sort_insert_stable (x : A) (l : list A) :
  List.filter p (sort_insert compareFn x l) = List.filter p (x :: l).
Proof.
  induction l as [|y l IH]; [reflexivity|].
  cbn [sort_insert]. destruct (compareFn x y) eqn:Hc; try reflexivity.
  cbn [List.filter] in *. rewrite IH.
  destruct (p x) eqn:Hx; [|reflexivity].
  destruct (p y) eqn:Hy; [|reflexivity].
  exfalso. exact (p_ties x y Hx Hy Hc).
Qed.

Lemma Array_sort_stable (l : list A) :
  List.filter p (Array_sort compareFn l) = List.filter p l.
Proof.
  induction l as [|x l IH]; [reflexivity|].
  cbn [Array_sort fold_right]. rewrite sort_insert_stable.
  cbn [List.filter]. fold (Array_sort compareFn l). rewrite IH.
  reflexivity.
Qed.

End Stable.

End ArraySort.

Lemma StronglySorted_weaken {A} (R R' : A -> A -> Prop) (l : list A) :
  (forall a b, R a b -> R' a b) ->
  StronglySorted R l -> StronglySorted R' l.
Proof.
  intros HR. induction 1 as [|x l Hs IH Hx]; constructor; [exact IH|].
  eapply List.Forall_impl; [|exact Hx]. intros b. apply HR.
Qed.

(** ** The order of strings *)

Lemma leb_compare (a b : string) :
  String.leb a b = true <-> String.compare a b <> Gt.
Proof.
  unfold String.leb. destruct (String.compare a b); split; congruence.
Qed.

Lemma compare_not_Gt (a b : string) :
  String.compare a b <> Gt <-> a = b \/ String_as_OT.lt a b.
Proof.
  destruct (String.compare a b) eqn:Hc.
  - apply String_as_OT.cmp_eq in Hc. split; [auto | congruence].
  - apply String_as_OT.cmp_lt in Hc. split; [auto | congruence].
  - split; [congruence|]. intros [-> | Hlt].
    + assert (H : String_as_OT.cmp b b = Eq) by (apply String_as_OT.cmp_eq; reflexivity).
      unfold String_as_OT.cmp in H. congruence.
    + apply String_as_OT.cmp_lt in Hlt. unfold String_as_OT.cmp in Hlt.
      congruence.
Qed.

Lemma compare_not_Gt_trans (a b c : string) :
  String.compare a b <> Gt -> String.compare b c <> Gt ->
  String.compare a c <> Gt.
Proof.
  rewrite !compare_not_Gt. intros [-> | Hab] [-> | Hbc]; auto.
  right. eapply String_as_OT.lt_trans; eassumption.
Qed.

Lemma compare_refl (a : string) : String.compare a a = Eq.
Proof. apply (proj2 (String_as_OT.cmp_eq a a)). reflexivity. Qed.

(** ** Dates written and read back *)

Lemma fourDigits_all : forallb fourDigits (seq 1000 (9 * 1000)) = true.
Proof. vm_compute. reflexivity. Qed.

Lemma twoDigits_all : forallb twoDigits (seq 0 100) = true.
Proof. vm_compute. reflexivity. Qed.

Lemma String_of_year (y : nat) :
  (1000 <= y < 10 * 1000)%nat ->
  exists a b c e,
    String_of y = String a (String b (String c (String e "")))
    /\ decimal 0 [a; b; c; e] = Some y.
Proof.
  intros Hy.
  assert (H : fourDigits y = true).
  { pose proof fourDigits_all as Hall. rewrite forallb_forall in Hall.
    apply Hall, in_seq. lia. }
  unfold fourDigits in H.
  rewrite <- (string_of_list_ascii_of_string (String_of y)).
  destruct (list_ascii_of_string (String_of y))
    as [|a [|b [|c [|e [|? ?]]]]]; try discriminate H.
  destruct (decimal 0 [a; b; c; e]) as [v|] eqn:Hd; [|discriminate H].
  apply Nat.eqb_eq in H. subst v.
  exists a, b, c, e. split; [reflexivity | exact Hd].
Qed.

Lemma padStart_two (n : nat) :
  (n <= 99)%nat ->
  exists a b,
    padStart 2 "0" (String_of n) = String a (String b "")
    /\ decimal 0 [a; b] = Some n.
Proof.
  intros Hn.
  assert (H : twoDigits n = true).
  { pose proof twoDigits_all as Hall. rewrite forallb_forall in Hall.
    apply Hall, in_seq. lia. }
  unfold twoDigits in H.
  rewrite <- (string_of_list_ascii_of_string (padStart 2 "0" (String_of n))).
  destruct (list_ascii_of_string (padStart 2 "0" (String_of n)))
    as [|a [|b [|? ?]]]; try discriminate H.
  destruct (decimal 0 [a; b]) as [v|] eqn:Hd; [|discriminate H].
  apply Nat.eqb_eq in H. subst v.
  exists a, b. split; [reflexivity | exact Hd].
Qed.

Lemma daysInMonth_le_31 (y m : nat) : (daysInMonth y m <= 31)%nat.
Proof.
  unfold daysInMonth.
  do 13 (destruct m as [|m];
         [first [lia | destruct (isLeapYear y); lia]|]).
  lia.
Qed.

Lemma getTodayString_dateString (d : DateFields) :
  (1 <= df_month d)%nat ->
  getTodayString d = dateString (df_year d) (df_month d) (df_day d).
Proof.
  intros Hm. unfold getTodayString, dateString.
  replace (df_month d - 1 + 1)%nat with (df_month d) by lia. reflexivity.
Qed.

(** A timestamp written by the program is read back by [new Date] as the
    local date and time it was written for. *)
Lemma new_Date_localFullDate (y m d : nat) (now : Clock) :
  validDate y m d -> validTime now ->
  new_Date (localFullDate (dateString y m d) now)
    = Some (mkDateFields y m d (getHours now) (getMinutes now) (getSeconds now)).
Proof.
  intros (Hy & Hm & Hd) (Hh & Hi & Hs).
  pose proof (daysInMonth_le_31 y m) as H31.
  destruct (String_of_year y Hy) as (y1 & y2 & y3 & y4 & Ey & Dy).
  destruct (padStart_two m ltac:(lia)) as (m1 & m2 & Em & Dm).
  destruct (padStart_two d ltac:(lia)) as (d1 & d2 & Ed & Dd).
  destruct (padStart_two (getHours now) ltac:(lia)) as (h1 & h2 & Eh & Dh).
  destruct (padStart_two (getMinutes now) ltac:(lia)) as (i1 & i2 & Ei & Di).
  destruct (padStart_two (getSeconds now) ltac:(lia)) as (s1 & s2 & Es & Ds).
  unfold new_Date, localFullDate, dateString.
  rewrite Ey, Em, Ed, Eh, Ei, Es.
  cbv beta iota delta [String.append list_ascii_of_string].
  replace (Ascii.eqb "-" "-") with true by reflexivity.
  replace (Ascii.eqb "T" "T") with true by reflexivity.
  replace (Ascii.eqb ":" ":") with true by reflexivity.
  cbn [andb]. rewrite Dy, Dm, Dd, Dh, Di, Ds.
  replace ((1 <=? m)%nat) with true by (symmetry; apply Nat.leb_le; lia).
  replace ((m <=? 12)%nat) with true by (symmetry; apply Nat.leb_le; lia).
  replace ((1 <=? d)%nat) with true by (symmetry; apply Nat.leb_le; lia).
  replace ((d <=? daysInMonth y m)%nat) with true
    by (symmetry; apply Nat.leb_le; lia).
  replace ((getHours now <=? 23)%nat) with true
    by (symmetry; apply Nat.leb_le; lia).
  replace ((getMinutes now <=? 59)%nat) with true
    by (symmetry; apply Nat.leb_le; lia).
  replace ((getSeconds now <=? 59)%nat) with true
    by (symmetry; apply Nat.leb_le; lia).
  reflexivity.
Qed.

Lemma noon_suffix (currentDate : string) :
  (currentDate ++ "T12:00:00")%string = localFullDate currentDate noon.
Proof. reflexivity. Qed.

(** ** Timestamps of one day are ordered as the clock *)

Lemma twoDigitsOrdered_all :
  forallb (fun n => forallb (twoDigitsOrdered n) (seq 0 100)) (seq 0 100) = true.
Proof. vm_compute. reflexivity. Qed.

Lemma padStart_two_compare (n n' : nat) :
  (n <= 99)%nat -> (n' <= 99)%nat ->
  String.compare (padStart 2 "0" (String_of n)) (padStart 2 "0" (String_of n'))
    = Nat.compare n n'.
Proof.
  intros Hn Hn'. pose proof twoDigitsOrdered_all as Hall.
  rewrite forallb_forall in Hall.
  assert (H1 : forallb (twoDigitsOrdered n) (seq 0 100) = true)
    by (apply Hall, in_seq; lia).
  rewrite forallb_forall in H1.
  assert (H2 : twoDigitsOrdered n n' = true) by (apply H1, in_seq; lia).
  unfold twoDigitsOrdered in H2.
  destruct (String.compare _ _), (Nat.compare n n');
    first [reflexivity | discriminate H2].
Qed.

Lemma append_cons (a : ascii) (p x : string) :
  (String a p ++ x)%string = String a (p ++ x)%string.
Proof. reflexivity. Qed.

Lemma Ascii_compare_refl (c : ascii) : Ascii.compare c c = Eq.
Proof. unfold Ascii.compare. apply N.compare_refl. Qed.

Lemma compare_same_prefix (p x y : string) :
  String.compare (p ++ x) (p ++ y) = String.compare x y.
Proof.
  induction p as [|a p IH]; [reflexivity|].
  rewrite !append_cons. cbn [String.compare].
  rewrite Ascii_compare_refl. exact IH.
Qed.

Lemma compare_two_chars (a b a' b' : ascii) (r r' : string) :
  String.compare (String a (String b r)) (String a' (String b' r'))
    = match String.compare (String a (String b "")) (String a' (String b' "")) with
      | Eq => String.compare r r'
      | c => c
      end.
Proof.
  cbn [String.compare].
  destruct (Ascii.compare a a'), (Ascii.compare b b'); reflexivity.
Qed.

Lemma compare_lexicographic (h m s h' m' s' : nat) :
  (m <= 59 -> s <= 59 -> m' <= 59 -> s' <= 59 ->
   match Nat.compare h h' with
   | Eq => match Nat.compare m m' with
           | Eq => Nat.compare s s'
           | c => c
           end
   | c => c
   end = Nat.compare (h * 3600 + m * 60 + s) (h' * 3600 + m' * 60 + s'))%nat.
Proof.
  intros Hm Hs Hm' Hs'. symmetry.
  destruct (Nat.compare_spec h h') as [-> | Hh | Hh].
  - destruct (Nat.compare_spec m m') as [-> | Hmm | Hmm].
    + destruct (Nat.compare_spec s s') as [-> | Hss | Hss].
      * apply Nat.compare_refl.
      * apply Nat.compare_lt_iff. lia.
      * apply Nat.compare_gt_iff. lia.
    + apply Nat.compare_lt_iff. lia.
    + apply Nat.compare_gt_iff. lia.
  - apply Nat.compare_lt_iff. lia.
  - apply Nat.compare_gt_iff. lia.
Qed.

(** On the timestamps the program writes for one day, the order of
    [localeCompare] is the order of the clock. *)
Lemma localFullDate_compare (currentDate : string) (t t' : Clock) :
  validTime t -> validTime t' ->
  localeCompare (localFullDate currentDate t) (localFullDate currentDate t')
    = Nat.compare (secondsOfDay t) (secondsOfDay t').
Proof.
  intros (Hh & Hi & Hs) (Hh' & Hi' & Hs').
  unfold secondsOfDay.
  rewrite <- compare_lexicographic by lia.
  rewrite <- (padStart_two_compare (getHours t) (getHours t')) by lia.
  rewrite <- (padStart_two_compare (getMinutes t) (getMinutes t')) by lia.
  rewrite <- (padStart_two_compare (getSeconds t) (getSeconds t')) by lia.
  destruct (padStart_two (getHours t) ltac:(lia)) as (h1 & h2 & Eh & _).
  destruct (padStart_two (getMinutes t) ltac:(lia)) as (i1 & i2 & Ei & _).
  destruct (padStart_two (getSeconds t) ltac:(lia)) as (s1 & s2 & Es & _).
  destruct (padStart_two (getHours t') ltac:(lia)) as (h1' & h2' & Eh' & _).
  destruct (padStart_two (getMinutes t') ltac:(lia)) as (i1' & i2' & Ei' & _).
  destruct (padStart_two (getSeconds t') ltac:(lia)) as (s1' & s2' & Es' & _).
  unfold localeCompare, localFullDate.
  rewrite compare_same_prefix.
  rewrite Eh, Ei, Es, Eh', Ei', Es'.
  cbv beta iota delta [String.append].
  change (String.compare (String "T" ?x) (String "T" ?y))
    with (String.compare x y).
  rewrite compare_two_chars.
  destruct (String.compare (String h1 (String h2 "")) (String h1' (String h2' "")));
    try reflexivity.
  change (String.compare (String ":" ?x) (String ":" ?y))
    with (String.compare x y).
  rewrite compare_two_chars.
  destruct (String.compare (String i1 (String i2 "")) (String i1' (String i2' "")));
    try reflexivity.
Qed.

(** ** Daily receipts *)

Lemma dailyReceipts_unfold (receipts : list Receipt.t) (currentDate : string) :
  dailyReceipts receipts currentDate
    = Array_sort byDateDescending (List.filter (onDay currentDate) receipts).
Proof. reflexivity. Qed.

Lemma byDateDescending_total (x y : Receipt.t) :
  byDateDescending x y = Gt -> mayPrecede byDateDescending y x.
Proof.
  unfold mayPrecede, byDateDescending, localeCompare. intros H.
  rewrite String.compare_antisym, H. discriminate.
Qed.

Lemma byDateDescending_trans (x y z : Receipt.t) :
  mayPrecede byDateDescending x y -> mayPrecede byDateDescending y z ->
  mayPrecede byDateDescending x z.
Proof.
  unfold mayPrecede, byDateDescending, localeCompare. intros H1 H2.
  eapply compare_not_Gt_trans; eassumption.
Qed.

(** Sorting a filtered list of receipts by date, latest first. *)
Lemma sorted_filter_spec (f : Receipt.t -> bool) (receipts : list Receipt.t) :
  Permutation (Array_sort byDateDescending (List.filter f receipts))
              (List.filter f receipts)
  /\ StronglySorted notEarlier
       (Array_sort byDateDescending (List.filter f receipts))
  /\ (forall t,
        List.filter (stampedAt t)
          (Array_sort byDateDescending (List.filter f receipts))
        = List.filter (stampedAt t) (List.filter f receipts)).
Proof.
  split; [apply Array_sort_Permutation|]. split.
  - apply (StronglySorted_weaken (mayPrecede byDateDescending)).
    + intros a b H. unfold notEarlier. apply leb_compare. exact H.
    + apply Array_sort_sorted.
      * exact byDateDescending_total.
      * exact byDateDescending_trans.
  - intros t. apply Array_sort_stable.
    intros x y Hx Hy. unfold stampedAt in *.
    apply String.eqb_eq in Hx, Hy.
    unfold byDateDescending, localeCompare. rewrite Hx, Hy, compare_refl.
    discriminate.
Qed.

(** For two receipts stamped by the program on the same day, "not
    earlier" is the order of the clock. *)
Lemma notEarlier_clock (currentDate : string) (a b : Receipt.t)
    (ta tb : Clock) :
  validTime ta -> validTime tb ->
  Receipt.date a = localFullDate currentDate ta ->
  Receipt.date b = localFullDate currentDate tb ->
  (notEarlier a b <-> (secondsOfDay tb <= secondsOfDay ta)%nat).
Proof.
  intros Hta Htb Ha Hb. unfold notEarlier.
  rewrite leb_compare, Ha, Hb.
  change (String.compare (localFullDate currentDate tb)
                         (localFullDate currentDate ta))
    with (localeCompare (localFullDate currentDate tb)
                        (localFullDate currentDate ta)).
  rewrite (localFullDate_compare currentDate tb ta Htb Hta).
  destruct (Nat.compare_spec (secondsOfDay tb) (secondsOfDay ta));
    split; intros; first [lia | congruence | discriminate].
Qed.

(** C7 (as amended). [dailyReceipts] returns exactly the receipts whose
    date component equals the reference date, latest timestamp first
    (for the timestamps the program writes: latest time of the day
    first); receipts with equal timestamps stay in insertion order (the
    one added first comes first), because the sort is stable and nothing
    reverses it. *)
Theorem dailyReceipts_sorted_stable (receipts : list Receipt.t)
    (currentDate : string) :
  Permutation (dailyReceipts receipts currentDate)
              (List.filter (onDay currentDate) receipts)
  /\ (forall r, In r (dailyReceipts receipts currentDate) <->
                In r receipts
                /\ Receipt.date r <> ""
                /\ split_0 "T" (Receipt.date r) = currentDate)
  /\ StronglySorted notEarlier (dailyReceipts receipts currentDate)
  /\ (forall (a b : Receipt.t) (ta tb : Clock),
        validTime ta -> validTime tb ->
        Receipt.date a = localFullDate currentDate ta ->
        Receipt.date b = localFullDate currentDate tb ->
        (notEarlier a b <-> (secondsOfDay tb <= secondsOfDay ta)%nat))
  /\ (forall t,
        List.filter (stampedAt t) (dailyReceipts receipts currentDate)
        = List.filter (stampedAt t) (List.filter (onDay currentDate) receipts)).
Proof.
  rewrite dailyReceipts_unfold.
  destruct (sorted_filter_spec (onDay currentDate) receipts)
    as (Hperm & Hsorted & Hstable).
  split; [exact Hperm|]. split; [|split; [exact Hsorted|split]].
  - intros r. split.
    + intros Hin. apply (Permutation_in _ Hperm) in Hin.
      apply filter_In in Hin. destruct Hin as [Hin Hday].
      unfold onDay, truthy in Hday. apply andb_true_iff in Hday.
      destruct Hday as [Hne Heq]. apply negb_true_iff in Hne.
      apply String.eqb_neq in Hne. apply String.eqb_eq in Heq. auto.
    + intros (Hin & Hne & Heq).
      apply (Permutation_in _ (Permutation_sym Hperm)).
      apply filter_In. split; [exact Hin|].
      unfold onDay, truthy. apply andb_true_iff. split.
      * apply negb_true_iff, String.eqb_neq, Hne.
      * apply String.eqb_eq, Heq.
  - intros a b ta tb. apply notEarlier_clock.
  - exact Hstable.
Qed.

Lemma dailyReceipts_sorted_stable_witness :
  validTime (mkClock 0 1 3) /\ validTime (mkClock 0 0 7)
  /\ forall a b : Receipt.t,
       Receipt.date a = localFullDate "2024-05-01" (mkClock 0 1 3) ->
       Receipt.date b = localFullDate "2024-05-01" (mkClock 0 0 7) ->
       notEarlier a b.
Proof.
  assert (H1 : validTime (mkClock 0 1 3)) by (unfold validTime; cbn; lia).
  assert (H2 : validTime (mkClock 0 0 7)) by (unfold validTime; cbn; lia).
  split; [exact H1|]. split; [exact H2|].
  intros a b Ha Hb.
  destruct (dailyReceipts_sorted_stable twoReceipts "2024-05-01")
    as (_ & _ & _ & Hclock & _).
  apply (Hclock a b (mkClock 0 1 3) (mkClock 0 0 7) H1 H2 Ha Hb).
  unfold secondsOfDay; cbn. lia.
Defined.

(** The older revision sorts in the same way: same order, same ties. *)
Lemma dailyReceipts_part_000_sorted_stable (receipts : list Receipt.t)
    (currentDate : string) :
  Permutation (dailyReceipts_part_000 receipts currentDate)
              (List.filter (fun r => String.prefix currentDate (Receipt.date r))
                           receipts)
  /\ StronglySorted notEarlier (dailyReceipts_part_000 receipts currentDate)
  /\ (forall t,
        List.filter (stampedAt t) (dailyReceipts_part_000 receipts currentDate)
        = List.filter (stampedAt t)
            (List.filter (fun r => String.prefix currentDate (Receipt.date r))
                         receipts)).
Proof.
  apply (sorted_filter_spec
           (fun r => String.prefix currentDate (Receipt.date r)) receipts).
Qed.

(** C7 (as stated) fails on the tie-break: of two receipts with the same
    timestamp, the one added last is not the first of [dailyReceipts];
    the one added first is. *)
Lemma dailyReceipts_tie_keeps_insertion_order :
  map Receipt.date (receipts (state sameSecondWorld))
    = ["2024-05-01T09:05:07"; "2024-05-01T09:05:07"]
  /\ map Receipt.id (receipts (state sameSecondWorld)) = ["first"; "last"]
  /\ map Receipt.id
       (dailyReceipts (receipts (state sameSecondWorld))
                      (currentDate (state sameSecondWorld)))
     = ["first"; "last"]
  /\ map Receipt.id
       (dailyReceipts (receipts (state sameSecondWorld))
                      (currentDate (state sameSecondWorld)))
     <> ["last"; "first"]
  /\ map Receipt.id
       (dailyReceipts_part_000 (receipts (state sameSecondWorld))
                               (currentDate (state sameSecondWorld)))
     = ["first"; "last"].
Proof.
  split; [reflexivity|]. split; [reflexivity|]. split; [reflexivity|].
  split; [discriminate | reflexivity].
Qed.

(** ** Totals by payment method *)

Lemma zeroAccount_lookup (m : string) :
  zeroAccount !! m = if bool_decide (enumerated m) then Some 0%Q else None.
Proof.
  unfold zeroAccount, enumerated.
  destruct (decide (m = "pix")) as [-> | H1]; [reflexivity|].
  destruct (decide (m = "dinheiro")) as [-> | H2]; [reflexivity|].
  destruct (decide (m = "cartao")) as [-> | H3]; [reflexivity|].
  destruct (decide (m = "unimed")) as [-> | H4]; [reflexivity|].
  rewrite !lookup_insert_ne by congruence. rewrite lookup_empty.
  rewrite bool_decide_eq_false_2; [reflexivity|]. tauto.
Qed.

Lemma filter_methodIs_cons (m : string) (r : Receipt.t) (l : list Receipt.t) :
  List.filter (methodIs m) (r :: l)
    = if String.eqb (Receipt.paymentMethod r) m
      then r :: List.filter (methodIs m) l
      else List.filter (methodIs m) l.
Proof. reflexivity. Qed.

Lemma total_nonneg {A} (f : A -> Q) (l : list A) :
  Forall (fun x => 0 <= f x)%Q l -> (0 <= total f l)%Q.
Proof.
  induction 1 as [|x l Hx _ IH]; cbn; [apply Qle_refl|].
  replace 0%Q with (0 + 0)%Q by reflexivity.
  apply Qplus_le_compat; assumption.
Qed.

Lemma addToAccount_fold_Some (rs : list Receipt.t) (acc : gmap string Q)
    (m : string) (v : Q) :
  acc !! m = Some v ->
  fold_left
    (fun acc r =>
       Binary64.addToAccount acc (Receipt.paymentMethod r) (Receipt.grossValue r))
    rs acc !! m
  = Some (fold_left (fun s r => Binary64.add s (Receipt.grossValue r))
                    (List.filter (methodIs m) rs) v).
Proof.
  revert acc v. induction rs as [|r rs IH]; intros acc v Hm; [exact Hm|].
  cbn [fold_left List.filter]. unfold Binary64.addToAccount at 2, methodIs.
  destruct (String.eqb_spec (Receipt.paymentMethod r) m) as [-> | Hne].
  - rewrite Hm. cbn [fold_left]. apply IH. apply lookup_insert_eq.
  - destruct (acc !! Receipt.paymentMethod r) as [x|] eqn:Hx.
    + apply IH. rewrite lookup_insert_ne by exact Hne. exact Hm.
    + apply IH. exact Hm.
Qed.

Lemma addToAccount_fold_None (rs : list Receipt.t) (acc : gmap string Q)
    (m : string) :
  acc !! m = None ->
  fold_left
    (fun acc r =>
       Binary64.addToAccount acc (Receipt.paymentMethod r) (Receipt.grossValue r))
    rs acc !! m
  = None.
Proof.
  revert acc. induction rs as [|r rs IH]; intros acc Hm; [exact Hm|].
  cbn [fold_left]. apply IH. unfold Binary64.addToAccount.
  destruct (acc !! Receipt.paymentMethod r) as [x|] eqn:Hx; [|exact Hm].
  rewrite lookup_insert_ne; [exact Hm|]. intros Heq. congruence.
Qed.

Lemma Binary64_dailyAccountTotals_lookup (dailyReceipts : list Receipt.t)
    (m : string) :
  enumerated m ->
  Binary64.dailyAccountTotals dailyReceipts !! m
    = Some (rounded_total Receipt.grossValue
              (List.filter (methodIs m) dailyReceipts)).
Proof.
  intros Hm. unfold Binary64.dailyAccountTotals.
  apply (addToAccount_fold_Some dailyReceipts zeroAccount m 0%Q).
  rewrite zeroAccount_lookup, bool_decide_eq_true_2; [reflexivity | exact Hm].
Qed.

Lemma total_by_method {f : Receipt.t -> Q} (l : list Receipt.t) :
  total f l ==
    total f (List.filter (methodIs "pix") l)
    + total f (List.filter (methodIs "dinheiro") l)
    + total f (List.filter (methodIs "cartao") l)
    + total f (List.filter (methodIs "unimed") l)
    + total f (List.filter unlisted l).
Proof.
  induction l as [|r l IH]; [reflexivity|].
  rewrite !filter_methodIs_cons. cbn [List.filter total].
  assert (Hu : unlisted r
               = negb (String.eqb (Receipt.paymentMethod r) "pix"
                       || String.eqb (Receipt.paymentMethod r) "dinheiro"
                       || String.eqb (Receipt.paymentMethod r) "cartao"
                       || String.eqb (Receipt.paymentMethod r) "unimed"))
    by reflexivity.
  rewrite Hu. clear Hu.
  destruct (String.eqb_spec (Receipt.paymentMethod r) "pix") as [E|_].
  { try rewrite E. eval_string_tests. cbn [orb negb total].
    rewrite IH at 1. ring. }
  destruct (String.eqb_spec (Receipt.paymentMethod r) "dinheiro") as [E|_].
  { try rewrite E. eval_string_tests. cbn [orb negb total].
    rewrite IH at 1. ring. }
  destruct (String.eqb_spec (Receipt.paymentMethod r) "cartao") as [E|_].
  { try rewrite E. eval_string_tests. cbn [orb negb total].
    rewrite IH at 1. ring. }
  destruct (String.eqb_spec (Receipt.paymentMethod r) "unimed") as [E|_].
  { try rewrite E. eval_string_tests. cbn [orb negb total].
    rewrite IH at 1. ring. }
  cbn [orb negb total]. rewrite IH at 1. ring.
Qed.

Lemma unlisted_enumerated (l : list Receipt.t) :
  Forall (fun r => enumerated (Receipt.paymentMethod r)) l ->
  List.filter unlisted l = [].
Proof.
  induction 1 as [|r l Hr _ IH]; [reflexivity|].
  cbn [List.filter]. rewrite IH.
  unfold unlisted, methodIs.
  destruct Hr as [-> | [-> | [-> | ->]]]; reflexivity.
Qed.

Lemma total_abs_nonneg {X} (f : X -> Q) (l : list X) :
  (0 <= total (fun x => Qabs (f x)) l)%Q.
Proof.
  apply total_nonneg, List.Forall_forall. intros x _. apply Qabs_nonneg.
Qed.

(** A total by method is the sum of the method up to rounding. *)
Lemma method_total_within (f : Receipt.t -> Q) (m : string)
    (l : list Receipt.t) :
  within (length l)
         (total (fun r => Qabs (f r)) (List.filter (methodIs m) l))
         (rounded_total f (List.filter (methodIs m) l))
         (total f (List.filter (methodIs m) l)).
Proof.
  apply (within_mono (length (List.filter (methodIs m) l))).
  - apply filter_length_bound.
  - apply rounded_total_within.
Qed.

(** Two computations of one amount are near each other. *)
Lemma within_close (k k' : nat) (A x' y' x : Q) :
  within k A x' x -> within k' A y' x ->
  (Qabs (x' - y') <= (Binary64.gamma k + Binary64.gamma k') * A)%Q.
Proof.
  intros [_ Hx] [_ Hy].
  assert (E : x' - y' == (x' - x) + - (y' - x)) by ring.
  rewrite E.
  pose proof (Qabs_triangle (x' - x) (- (y' - x))) as Ht.
  rewrite Qabs_opp in Ht.
  assert (E2 : (Binary64.gamma k + Binary64.gamma k') * A
               == Binary64.gamma k * A + Binary64.gamma k' * A) by ring.
  rewrite E2. lra.
Qed.

(** The four totals by method, with the receipts paid otherwise,
    against the sum of all. *)
Lemma four_totals_within (f : Receipt.t -> Q) (l : list Receipt.t) :
  let by_method m := rounded_total f (List.filter (methodIs m) l) in
  (Qabs (by_method "pix" + by_method "dinheiro" + by_method "cartao"
         + by_method "unimed" + total f (List.filter unlisted l)
         - total f l)
   <= Binary64.gamma (length l) * total (fun r => Qabs (f r)) l)%Q.
Proof.
  intros by_method. subst by_method. cbv beta.
  destruct (method_total_within f "pix" l) as [_ Hp].
  destruct (method_total_within f "dinheiro" l) as [_ Hd].
  destruct (method_total_within f "cartao" l) as [_ Hc].
  destruct (method_total_within f "unimed" l) as [_ Hu].
  pose proof (@total_by_method f l) as Hs.
  pose proof (@total_by_method (fun r => Qabs (f r)) l) as Ha.
  cbv beta in Ha.
  pose proof (total_abs_nonneg f (List.filter unlisted l)) as Hx.
  pose proof (gamma_nonneg (length l)) as Hg.
  set (n := length l) in *.
  set (Ap := total (fun r => Qabs (f r)) (List.filter (methodIs "pix") l)) in *.
  set (Ad := total (fun r => Qabs (f r)) (List.filter (methodIs "dinheiro") l)) in *.
  set (Ac := total (fun r => Qabs (f r)) (List.filter (methodIs "cartao") l)) in *.
  set (Au := total (fun r => Qabs (f r)) (List.filter (methodIs "unimed") l)) in *.
  set (Ax := total (fun r => Qabs (f r)) (List.filter unlisted l)) in *.
  set (Sp := total f (List.filter (methodIs "pix") l)) in *.
  set (Sd := total f (List.filter (methodIs "dinheiro") l)) in *.
  set (Sc := total f (List.filter (methodIs "cartao") l)) in *.
  set (Su := total f (List.filter (methodIs "unimed") l)) in *.
  set (Sx := total f (List.filter unlisted l)) in *.
  set (p := rounded_total f (List.filter (methodIs "pix") l)) in *.
  set (d := rounded_total f (List.filter (methodIs "dinheiro") l)) in *.
  set (c := rounded_total f (List.filter (methodIs "cartao") l)) in *.
  set (q := rounded_total f (List.filter (methodIs "unimed") l)) in *.
  rewrite Hs, Ha.
  assert (E : p + d + c + q + Sx - (Sp + Sd + Sc + Su + Sx)
              == (p - Sp) + (d - Sd) + (c - Sc) + (q - Su)) by ring.
  rewrite E.
  pose proof (Qabs_triangle ((p - Sp) + (d - Sd) + (c - Sc)) (q - Su)).
  pose proof (Qabs_triangle ((p - Sp) + (d - Sd)) (c - Sc)).
  pose proof (Qabs_triangle (p - Sp) (d - Sd)).
  pose proof (Qmult_le_0_compat _ _ Hg Hx) as Hgx.
  assert (E2 : Binary64.gamma n * (Ap + Ad + Ac + Au + Ax)
               == Binary64.gamma n * Ap + Binary64.gamma n * Ad
                  + Binary64.gamma n * Ac + Binary64.gamma n * Au
                  + Binary64.gamma n * Ax) by ring.
  rewrite E2. lra.
Qed.

(** The four totals by method added as the platform adds. *)
Lemma four_totals_added_within (f : Receipt.t -> Q) (l : list Receipt.t) :
  Forall (fun r => enumerated (Receipt.paymentMethod r)) l ->
  let by_method m := rounded_total f (List.filter (methodIs m) l) in
  within (length l + 3) (total (fun r => Qabs (f r)) l)
    (Binary64.add
       (Binary64.add (Binary64.add (by_method "pix") (by_method "dinheiro"))
                     (by_method "cartao"))
       (by_method "unimed"))
    (total f l).
Proof.
  intros Hall by_method. subst by_method. cbv beta.
  pose proof (method_total_within f "pix" l) as Hp.
  pose proof (method_total_within f "dinheiro" l) as Hd.
  pose proof (method_total_within f "cartao" l) as Hc.
  pose proof (method_total_within f "unimed" l) as Hu.
  pose proof (@total_by_method f l) as Hs.
  pose proof (@total_by_method (fun r => Qabs (f r)) l) as Ha.
  rewrite (unlisted_enumerated l Hall) in Hs, Ha. cbn [total] in Hs, Ha.
  set (n := length l) in *.
  pose proof (within_add n _ _ _ _ _ _ Hp Hd) as H1.
  pose proof (within_add (S n) _ _ _ _ _ _ H1
                (within_mono n (S n) _ _ _ ltac:(lia) Hc)) as H2.
  pose proof (within_add (S (S n)) _ _ _ _ _ _ H2
                (within_mono n (S (S n)) _ _ _ ltac:(lia) Hu)) as H3.
  replace (n + 3)%nat with (S (S (S n))) by lia.
  eapply within_eq; [| | exact H3].
  - rewrite Ha. ring.
  - rewrite Hs. ring.
Qed.

(** Two amounts near a third one are near each other. *)
Lemma near_both (x y t G : Q) :
  (Qabs (x - t) <= G)%Q -> (Qabs (y - t) <= G)%Q ->
  (Qabs (x - y) <= 2 * G)%Q.
Proof.
  intros Hx Hy.
  assert (E : x - y == (x - t) + - (y - t)) by ring.
  rewrite E.
  pose proof (Qabs_triangle (x - t) (- (y - t))) as Ht.
  rewrite Qabs_opp in Ht. lra.
Qed.

(** Up to [2 ^ 52] amounts, a bound by [gamma] is a bound by
    [EPSILON] on each amount. *)
Lemma gamma_bound_EPSILON (n : nat) (A x : Q) :
  (0 <= A)%Q -> (Z.of_nat n <= 2 ^ 52)%Z ->
  (x <= 2 * Binary64.gamma n * A)%Q ->
  (x <= 2 * (inject_Z (Z.of_nat n) * Binary64.EPSILON) * A)%Q.
Proof.
  intros HA Hn Hx.
  apply Qle_trans with (2 * Binary64.gamma n * A)%Q; [exact Hx|].
  apply Qmult_le_compat_r; [|exact HA].
  apply Qmult_le_l; [reflexivity|]. apply gamma_le_EPSILON, Hn.
Qed.

(** C9 (as amended). In binary64 [dailyAccountTotals] maps each of the
    four payment methods to the left-to-right sum of the gross values of
    the day's receipts that use it, which is their sum up to rounding,
    and has no other key; a method without receipts is there with 0.
    When every receipt uses one of the four methods, the four values add
    up to the daily gross total up to rounding only: added exactly, they
    differ from it by at most [2 * gamma n] times the sum of the absolute
    gross values of the [n] receipts of the day, which is at most
    [2 * n * EPSILON] times that sum for up to [2 ^ 52] receipts, and
    added as the platform adds by at most [gamma (n + 3) + gamma n]
    times that sum. *)
Theorem dailyAccountTotals_up_to_rounding (dailyReceipts : list Receipt.t)
    (dailyExpenses : list Expense.t) :
  (forall m, enumerated m ->
     Binary64.dailyAccountTotals dailyReceipts !! m
       = Some (rounded_total Receipt.grossValue
                 (List.filter (methodIs m) dailyReceipts)))
  /\ (forall m, is_Some (Binary64.dailyAccountTotals dailyReceipts !! m)
                <-> enumerated m)
  /\ (forall m, enumerated m ->
        List.filter (methodIs m) dailyReceipts = [] ->
        Binary64.dailyAccountTotals dailyReceipts !! m = Some 0%Q)
  /\ (forall m,
        (Qabs (rounded_total Receipt.grossValue
                 (List.filter (methodIs m) dailyReceipts)
               - total Receipt.grossValue
                   (List.filter (methodIs m) dailyReceipts))
         <= Binary64.gamma (length dailyReceipts)
            * total (fun r => Qabs (Receipt.grossValue r))
                (List.filter (methodIs m) dailyReceipts))%Q)
  /\ (Forall (fun r => enumerated (Receipt.paymentMethod r)) dailyReceipts ->
      exists pix dinheiro cartao unimed : Q,
        Binary64.dailyAccountTotals dailyReceipts !! "pix" = Some pix
        /\ Binary64.dailyAccountTotals dailyReceipts !! "dinheiro" = Some dinheiro
        /\ Binary64.dailyAccountTotals dailyReceipts !! "cartao" = Some cartao
        /\ Binary64.dailyAccountTotals dailyReceipts !! "unimed" = Some unimed
        /\ (Qabs (pix + dinheiro + cartao + unimed
                  - rec (Binary64.dailyTotals dailyReceipts dailyExpenses))
            <= 2 * Binary64.gamma (length dailyReceipts)
               * total (fun r => Qabs (Receipt.grossValue r)) dailyReceipts)%Q
        /\ ((Z.of_nat (length dailyReceipts) <= 2 ^ 52)%Z ->
            (Qabs (pix + dinheiro + cartao + unimed
                   - rec (Binary64.dailyTotals dailyReceipts dailyExpenses))
             <= 2 * (inject_Z (Z.of_nat (length dailyReceipts))
                     * Binary64.EPSILON)
                * total (fun r => Qabs (Receipt.grossValue r)) dailyReceipts)%Q)
        /\ (Qabs (Binary64.add
                    (Binary64.add (Binary64.add pix dinheiro) cartao) unimed
                  - rec (Binary64.dailyTotals dailyReceipts dailyExpenses))
            <= (Binary64.gamma (length dailyReceipts + 3)
                + Binary64.gamma (length dailyReceipts))
               * total (fun r => Qabs (Receipt.grossValue r)) dailyReceipts)%Q).
Proof.
  split; [|split; [|split; [|split]]].
  - intros m Hm. apply Binary64_dailyAccountTotals_lookup, Hm.
  - intros m. split.
    + intros Hsome. destruct (decide (enumerated m)) as [Hm | Hm]; [exact Hm|].
      exfalso.
      assert (HN : Binary64.dailyAccountTotals dailyReceipts !! m = None).
      { apply (addToAccount_fold_None dailyReceipts zeroAccount m).
        rewrite zeroAccount_lookup, bool_decide_eq_false_2;
          [reflexivity | exact Hm]. }
      rewrite HN in Hsome. destruct Hsome as [x Hx]. discriminate Hx.
    + intros Hm. rewrite (Binary64_dailyAccountTotals_lookup _ _ Hm).
      eexists; reflexivity.
  - intros m Hm Hnone.
    rewrite (Binary64_dailyAccountTotals_lookup _ _ Hm), Hnone. reflexivity.
  - intros m.
    exact (proj2 (method_total_within Receipt.grossValue m dailyReceipts)).
  - intros Hall.
    do 4 eexists.
    split; [apply Binary64_dailyAccountTotals_lookup; unfold enumerated; tauto|].
    split; [apply Binary64_dailyAccountTotals_lookup; unfold enumerated; tauto|].
    split; [apply Binary64_dailyAccountTotals_lookup; unfold enumerated; tauto|].
    split; [apply Binary64_dailyAccountTotals_lookup; unfold enumerated; tauto|].
    pose proof (four_totals_within Receipt.grossValue dailyReceipts) as Hexact.
    cbv zeta beta in Hexact.
    rewrite (unlisted_enumerated dailyReceipts Hall) in Hexact.
    cbn [total] in Hexact.
    pose proof (four_totals_added_within Receipt.grossValue dailyReceipts Hall)
      as Hadded.
    pose proof (rounded_total_within Receipt.grossValue dailyReceipts) as Hrec.
    change (rec (Binary64.dailyTotals dailyReceipts dailyExpenses))
      with (rounded_total Receipt.grossValue dailyReceipts).
    assert (Hnear : (Qabs (rounded_total Receipt.grossValue
                             (List.filter (methodIs "pix") dailyReceipts)
                           + rounded_total Receipt.grossValue
                               (List.filter (methodIs "dinheiro") dailyReceipts)
                           + rounded_total Receipt.grossValue
                               (List.filter (methodIs "cartao") dailyReceipts)
                           + rounded_total Receipt.grossValue
                               (List.filter (methodIs "unimed") dailyReceipts)
                           - rounded_total Receipt.grossValue dailyReceipts)
                     <= 2 * Binary64.gamma (length dailyReceipts)
                        * total (fun r => Qabs (Receipt.grossValue r))
                                dailyReceipts)%Q).
    { rewrite <- Qmult_assoc.
      apply (near_both _ _ (total Receipt.grossValue dailyReceipts)).
      - assert (E : forall a, a + 0 - total Receipt.grossValue dailyReceipts
                              == a - total Receipt.grossValue dailyReceipts)
          by (intros a; ring).
        rewrite <- E. exact Hexact.
      - exact (proj2 Hrec). }
    split; [exact Hnear|]. split.
    + intros Hn. apply gamma_bound_EPSILON; [|exact Hn | exact Hnear].
      apply total_abs_nonneg.
    + apply (within_close _ _ _ _ _ _ Hadded Hrec).
Qed.

Lemma dailyAccountTotals_up_to_rounding_witness :
  Forall (fun r => enumerated (Receipt.paymentMethod r)) threeReceipts
  /\ exists pix dinheiro cartao unimed : Q,
       Binary64.dailyAccountTotals threeReceipts !! "pix" = Some pix
       /\ Binary64.dailyAccountTotals threeReceipts !! "dinheiro" = Some dinheiro
       /\ Binary64.dailyAccountTotals threeReceipts !! "cartao" = Some cartao
       /\ Binary64.dailyAccountTotals threeReceipts !! "unimed" = Some unimed
       /\ (Qabs (pix + dinheiro + cartao + unimed
                 - rec (Binary64.dailyTotals threeReceipts []))
           <= 2 * Binary64.gamma 3
              * total (fun r => Qabs (Receipt.grossValue r)) threeReceipts)%Q.
Proof.
  assert (Hall : Forall (fun r => enumerated (Receipt.paymentMethod r))
                        threeReceipts).
  { unfold threeReceipts, enumerated. repeat constructor; cbn; tauto. }
  split; [exact Hall|].
  destruct (proj2 (proj2 (proj2 (proj2
              (dailyAccountTotals_up_to_rounding threeReceipts [])))) Hall)
    as (pix & dinheiro & cartao & unimed & Hp & Hd & Hc & Hu & Hexact & _).
  exists pix, dinheiro, cartao, unimed.
  split; [exact Hp|]. split; [exact Hd|]. split; [exact Hc|].
  split; [exact Hu|]. exact Hexact.
Defined.

(** C9 (as stated) fails in binary64: with 19.90 by pix, 19.90 in cash
    and 99.90 by pix the daily gross total is 139.7, the totals by method
    are 119.80000000000001 and 19.9, and they add up to
    139.70000000000002, whether they are added exactly or as the platform
    adds; the numbers of the kernel give the same. *)
Lemma dailyAccountTotals_sum_differs :
  Forall (fun r => enumerated (Receipt.paymentMethod r)) threeReceipts
  /\ exists pix dinheiro cartao unimed : Q,
       Binary64.dailyAccountTotals threeReceipts !! "pix" = Some pix
       /\ Binary64.dailyAccountTotals threeReceipts !! "dinheiro" = Some dinheiro
       /\ Binary64.dailyAccountTotals threeReceipts !! "cartao" = Some cartao
       /\ Binary64.dailyAccountTotals threeReceipts !! "unimed" = Some unimed
       /\ rec (Binary64.dailyTotals threeReceipts [])
          == Binary64.round (1397 # 10)
       /\ pix == Binary64.round (11980000000000001 # 100000000000000)
       /\ dinheiro == Binary64.round (199 # 10)
       /\ cartao == 0 /\ unimed == 0
       /\ Binary64.add (Binary64.add (Binary64.add pix dinheiro) cartao) unimed
          == Binary64.round (13970000000000002 # 100000000000000)
       /\ ~ pix + dinheiro + cartao + unimed
            == rec (Binary64.dailyTotals threeReceipts [])
       /\ ~ Binary64.add (Binary64.add (Binary64.add pix dinheiro) cartao) unimed
            == rec (Binary64.dailyTotals threeReceipts [])
       /\ Binary64.Kernel.equals
            (0 + 199 / 10 + 199 / 10 + 999 / 10)%float
            (rec (Binary64.dailyTotals threeReceipts [])) = true
       /\ Binary64.Kernel.equals
            ((0 + 199 / 10 + 999 / 10) + (0 + 199 / 10) + 0 + 0)%float
            (Binary64.add (Binary64.add (Binary64.add pix dinheiro) cartao)
                          unimed) = true
       /\ ((0 + 199 / 10 + 999 / 10) + (0 + 199 / 10) + 0 + 0
           =? 0 + 199 / 10 + 199 / 10 + 999 / 10)%float = false.
Proof.
  assert (Hall : Forall (fun r => enumerated (Receipt.paymentMethod r))
                        threeReceipts).
  { unfold threeReceipts, enumerated. repeat constructor; cbn; tauto. }
  split; [exact Hall|].
  do 4 eexists.
  split; [apply Binary64_dailyAccountTotals_lookup; unfold enumerated; tauto|].
  split; [apply Binary64_dailyAccountTotals_lookup; unfold enumerated; tauto|].
  split; [apply Binary64_dailyAccountTotals_lookup; unfold enumerated; tauto|].
  split; [apply Binary64_dailyAccountTotals_lookup; unfold enumerated; tauto|].
  split; [apply Qeq_bool_iff; vm_compute; reflexivity|].
  split; [apply Qeq_bool_iff; vm_compute; reflexivity|].
  split; [apply Qeq_bool_iff; vm_compute; reflexivity|].
  split; [apply Qeq_bool_iff; vm_compute; reflexivity|].
  split; [apply Qeq_bool_iff; vm_compute; reflexivity|].
  split; [apply Qeq_bool_iff; vm_compute; reflexivity|].
  split; [intros H; apply Qeq_bool_iff in H; vm_compute in H; discriminate H|].
  split; [intros H; apply Qeq_bool_iff in H; vm_compute in H; discriminate H|].
  split; [vm_compute; reflexivity|].
  split; [vm_compute; reflexivity|].
  vm_compute; reflexivity.
Qed.

(** ** Removing a professional *)

Lemma removeProfessional_state (prof : Professional.t) (answer : bool)
    (w : World) :
  state (perform (RemoveProfessional prof answer) w)
    = if answer
      then setProfessionals
             (List.filter
                (fun p => negb (String.eqb (Professional.id p) (Professional.id prof)))
                (professionals (state w)))
             (state w)
      else state w.
Proof.
  unfold perform, handler. rewrite state_then_rerender.
  unfold removeProfessional, bind, confirm; cbn. destruct answer; reflexivity.
Qed.

Lemma removeProfessional_part_000_state (prof : Professional.t) (w : World) :
  state (snd (removeProfessional_part_000 prof true (state w) w))
    = setProfessionals
        (List.filter
           (fun p => negb (String.eqb (Professional.id p) (Professional.id prof)))
           (professionals (state w)))
        (state w).
Proof. reflexivity. Qed.

(** Removing the last professional of the list leaves nobody at that
    position. *)
Lemma filter_last_position (prof : Professional.t)
    (l : list Professional.t) (i : nat) :
  nth_error l i = Some prof -> S i = length l ->
  nth_error
    (List.filter
       (fun p => negb (String.eqb (Professional.id p) (Professional.id prof))) l)
    i = None.
Proof.
  intros Hnth Hlen. apply nth_error_None.
  assert (Hin : In prof l) by (eapply nth_error_In; exact Hnth).
  assert (H : (length (List.filter
                 (fun p => negb (String.eqb (Professional.id p)
                                            (Professional.id prof))) l)
               < length l)%nat).
  { clear Hnth Hlen. induction l as [|x l IH]; [destruct Hin|].
    cbn [List.filter].
    destruct Hin as [-> | Hin].
    - rewrite String.eqb_refl. cbn [negb length].
      pose proof (filter_length_bound
                    (fun p => negb (String.eqb (Professional.id p)
                                               (Professional.id prof))) l).
      lia.
    - specialize (IH Hin).
      destruct (negb (String.eqb (Professional.id x) (Professional.id prof)));
        cbn [length]; lia. }
  lia.
Qed.

(** C10. Removing a professional leaves the receipts as they were, in
    both revisions. In the older revision (src/unnamed/part_000), the
    only one in which a professional is ever selected, the memo of the
    breakdown reads [prof.id] without testing [prof]: when the card of
    the last professional of the list has been clicked, which shows the
    breakdown of that professional, and the professional is removed
    while the selection stands, the render that follows raises a
    [TypeError] instead of giving zero totals.
    The memo of Dashboard.tsx, which tests [prof], gives [null] on the
    same selection, and so does the one of part_000 once the dialog has
    been closed by its button. *)
Theorem selectedProfDetails_part_000_raises_after_removal (w : World)
    (i : nat) (removed : Professional.t) (r : Receipt.t) :
  nth_error (professionals (state w)) i = Some removed ->
  S i = length (professionals (state w)) ->
  In r (dailyReceipts_part_000 (receipts (state w)) (currentDate (state w))) ->
  Receipt.professionalId r = Professional.id removed ->
  let dialog := openDetail_part_000 i in
  let st' := state (snd (removeProfessional_part_000 removed true (state w) w)) in
  (exists d,
     render_selectedProfDetails_part_000 dialog (state w) = Normal (Details d)
     /\ prof d = removed /\ In r (profRecs d))
  /\ receipts st' = receipts (state w)
  /\ (forall answer,
        receipts (state (perform (RemoveProfessional removed answer) w))
          = receipts (state w))
  /\ (forall p, In p (professionals st') ->
                Professional.id p <> Professional.id removed)
  /\ render_selectedProfDetails_part_000 dialog st' = Throw TypeError
  /\ render_selectedProfDetails_part_000 closeDetail_part_000 st'
     = Normal NoSelection
  /\ selectedProfDetails (dialog_selectedProfIndex dialog)
       (professionals st')
       (dailyReceipts (receipts st') (currentDate st'))
     = None.
Proof.
  intros Hnth Hlen Hin Hid dialog st'.
  assert (Hst : st'
                = setProfessionals
                    (List.filter
                       (fun p => negb (String.eqb (Professional.id p)
                                                  (Professional.id removed)))
                       (professionals (state w)))
                    (state w))
    by apply removeProfessional_part_000_state.
  pose proof (filter_last_position removed _ i Hnth Hlen) as Hnone.
  split; [|split; [|split; [|split; [|split; [|split]]]]].
  - unfold render_selectedProfDetails_part_000, selectedProfDetails_part_000.
    cbn [dialog dialog_selectedProfIndex openDetail_part_000].
    rewrite Hnth. unfold selectedProfDetails. rewrite Hnth.
    eexists. split; [reflexivity|]. cbn [prof profRecs].
    split; [reflexivity|].
    apply List.filter_In. split; [exact Hin|].
    rewrite Hid. apply String.eqb_refl.
  - rewrite Hst. reflexivity.
  - intros answer. rewrite removeProfessional_state.
    destruct answer; reflexivity.
  - intros p Hp. rewrite Hst in Hp. cbn in Hp. apply List.filter_In in Hp.
    destruct Hp as [_ Hne]. apply negb_true_iff, String.eqb_neq in Hne.
    exact Hne.
  - unfold render_selectedProfDetails_part_000, selectedProfDetails_part_000.
    cbn [dialog dialog_selectedProfIndex openDetail_part_000].
    rewrite Hst. cbn [professionals receipts currentDate setProfessionals].
    rewrite Hnone.
    destruct (dailyReceipts_part_000 (receipts (state w))
                                     (currentDate (state w)));
      [destruct Hin | reflexivity].
  - reflexivity.
  - cbn [dialog dialog_selectedProfIndex openDetail_part_000].
    unfold selectedProfDetails. rewrite Hst.
    cbn [professionals setProfessionals]. rewrite Hnone. reflexivity.
Qed.

Lemma selectedProfDetails_part_000_raises_after_removal_witness :
  receipts (state (snd (removeProfessional_part_000 sampleProf30 true
                          (state oneProfWorld) oneProfWorld)))
    = receipts (state oneProfWorld)
  /\ render_selectedProfDetails_part_000 (openDetail_part_000 0)
       (state (snd (removeProfessional_part_000 sampleProf30 true
                      (state oneProfWorld) oneProfWorld)))
     = Throw TypeError.
Proof.
  assert (Hr : exists r,
             In r (dailyReceipts_part_000 (receipts (state oneProfWorld))
                                          (currentDate (state oneProfWorld)))
             /\ Receipt.professionalId r = Professional.id sampleProf30).
  { eexists. split; [left; reflexivity | reflexivity]. }
  destruct Hr as (r & Hin & Hid).
  destruct (selectedProfDetails_part_000_raises_after_removal
              oneProfWorld 0%nat sampleProf30 r eq_refl eq_refl Hin Hid)
    as (_ & Hrec & _ & _ & Hraise & _).
  split; [exact Hrec | exact Hraise].
Defined.

(** ** Monthly receipts *)

Lemma strict_eq_true (a b : option nat) :
  strict_eq a b = true <-> exists n, a = Some n /\ b = Some n.
Proof.
  destruct a as [x|], b as [y|]; cbn; split; try discriminate.
  - intros H. apply Nat.eqb_eq in H. subst. eauto.
  - intros (n & Hx & Hy). inversion Hx; inversion Hy; subst.
    apply Nat.eqb_refl.
  - intros (n & Hx & Hy). discriminate.
  - intros (n & Hx & Hy). discriminate.
  - intros (n & Hx & Hy). discriminate.
Qed.

Lemma monthlyReceipts_In (receipts : list Receipt.t) (currentDate : string)
    (r : Receipt.t) :
  In r (monthlyReceipts receipts currentDate) <->
  In r receipts
  /\ sameMonth (new_Date (Receipt.date r))
               (new_Date (currentDate ++ "T12:00:00")%string).
Proof.
  unfold monthlyReceipts. rewrite filter_In, andb_true_iff, !strict_eq_true.
  unfold sameMonth. split.
  - intros (Hin & (m & Hm1 & Hm2) & (y & Hy1 & Hy2)). split; [exact Hin|].
    exists y, m. auto.
  - intros (Hin & y & m & Hy1 & Hm1 & Hy2 & Hm2). split; [exact Hin|].
    split; [exists m | exists y]; auto.
Qed.

Lemma monthlyReceipts_written (receipts : list Receipt.t) (r : Receipt.t)
    (y m d : nat) (now : Clock) (y' m' d' : nat) :
  In r receipts ->
  validDate y m d -> validTime now ->
  Receipt.date r = localFullDate (dateString y m d) now ->
  validDate y' m' d' ->
  (In r (monthlyReceipts receipts (dateString y' m' d')) <-> y' = y /\ m' = m).
Proof.
  intros Hin Hv Ht Hdate Hv'.
  rewrite monthlyReceipts_In, Hdate, noon_suffix.
  rewrite (new_Date_localFullDate y m d now Hv Ht).
  rewrite (new_Date_localFullDate y' m' d' noon Hv')
    by (unfold validTime, noon; cbn; lia).
  unfold sameMonth; cbn.
  destruct Hv as (_ & Hm & _), Hv' as (_ & Hm' & _).
  split.
  - intros (_ & y0 & m0 & Hy1 & Hm1 & Hy2 & Hm2).
    inversion Hy1; inversion Hm1; inversion Hy2; inversion Hm2. lia.
  - intros [-> ->]. split; [exact Hin|].
    exists y, (m - 1)%nat. repeat split; reflexivity.
Qed.

(** C8. A receipt is in [monthlyReceipts] exactly when its calendar month
    and year, as [new Date] reads them in local time, are those of the
    reference date; a receipt written by the program on a day of a month,
    at any time of the day, counts for every reference date of that
    month and for no other; so a receipt stamped 2024-05-31T23:59:59 is
    included for every reference date in May 2024 and excluded for every
    reference date in June 2024. *)
Theorem monthlyReceipts_calendar_month :
  (forall (receipts : list Receipt.t) (currentDate : string) (r : Receipt.t),
     In r (monthlyReceipts receipts currentDate) <->
     In r receipts
     /\ sameMonth (new_Date (Receipt.date r))
                  (new_Date (currentDate ++ "T12:00:00")%string))
  /\ (forall (receipts : list Receipt.t) (r : Receipt.t) (y m d : nat)
             (now : Clock) (y' m' d' : nat),
        In r receipts ->
        validDate y m d -> validTime now ->
        Receipt.date r = localFullDate (dateString y m d) now ->
        validDate y' m' d' ->
        (In r (monthlyReceipts receipts (dateString y' m' d'))
         <-> y' = y /\ m' = m))
  /\ (forall (receipts : list Receipt.t) (r : Receipt.t) (day : nat),
        In r receipts ->
        Receipt.date r = "2024-05-31T23:59:59" ->
        (1 <= day <= 31)%nat ->
        In r (monthlyReceipts receipts (dateString 2024 5 day)))
  /\ (forall (receipts : list Receipt.t) (r : Receipt.t) (day : nat),
        In r receipts ->
        Receipt.date r = "2024-05-31T23:59:59" ->
        (1 <= day <= 30)%nat ->
        ~ In r (monthlyReceipts receipts (dateString 2024 6 day))).
Proof.
  assert (Hlast : validDate 2024 5 31) by (unfold validDate; cbn; lia).
  assert (Htime : validTime (mkClock 23 59 59))
    by (unfold validTime; cbn; lia).
  split; [exact monthlyReceipts_In|]. split; [exact monthlyReceipts_written|].
  split.
  - intros receipts r day Hin Hdate Hday.
    apply (monthlyReceipts_written receipts r 2024 5 31 (mkClock 23 59 59)
             2024 5 day Hin Hlast Htime Hdate).
    + unfold validDate; cbn; lia.
    + split; reflexivity.
  - intros receipts r day Hin Hdate Hday Hmem.
    apply (monthlyReceipts_written receipts r 2024 5 31 (mkClock 23 59 59)
             2024 6 day Hin Hlast Htime Hdate) in Hmem.
    + destruct Hmem as [_ Hm]. discriminate Hm.
    + unfold validDate; cbn; lia.
Qed.

Lemma monthlyReceipts_calendar_month_witness :
  In lastOfMay (monthlyReceipts (twoReceipts ++ [lastOfMay]) (dateString 2024 5 1))
  /\ ~ In lastOfMay
         (monthlyReceipts (twoReceipts ++ [lastOfMay]) (dateString 2024 6 1)).
Proof.
  assert (Hin : In lastOfMay (twoReceipts ++ [lastOfMay])).
  { apply in_or_app. right. left. reflexivity. }
  destruct monthlyReceipts_calendar_month as (_ & _ & Hmay & Hjune).
  split.
  - apply (Hmay _ lastOfMay 1%nat Hin eq_refl). lia.
  - apply (Hjune _ lastOfMay 1%nat Hin eq_refl). lia.
Defined.

(** * The rest of the dashboard: lemmas and theorems *)

(** ** The slot mirrors the store *)

Lemma handler_orderly (a : Action) :
  isReload a = false -> orderly (handler a).
Proof.
  intros Hr w. destruct w as [st sch slot tr].
  cbn [state localStorage trace scheduled].
  destruct a; cbn [isReload handler] in *; try discriminate.
  - (* addReceipt *)
    unfold addReceipt.
    destruct (form_professional formData) as [i|]; cbn.
    2:{ do 3 eexists; split; [reflexivity|]; auto. }
    destruct (nth_error (professionals st) i) as [p|]; cbn.
    2:{ do 3 eexists; split; [reflexivity|]; auto. }
    destruct (form_value formData) as [g|]; cbn.
    2:{ do 3 eexists; split; [reflexivity|]; auto. }
    eexists _, true, []. rewrite app_nil_r. split; [reflexivity|]. auto.
  - (* removeReceipt *)
    unfold removeReceipt, bind, confirm; cbn. destruct answer; cbn.
    + do 3 eexists; split; [reflexivity|]. auto.
    + do 3 eexists; split; [reflexivity|]. auto.
  - (* addProfessional *)
    unfold addProfessional. destruct temPorcentagem as [tem|]; cbn.
    + eexists _, true, []. rewrite app_nil_r. split; [reflexivity|]. auto.
    + do 3 eexists; split; [reflexivity|]. auto.
  - (* removeProfessional *)
    unfold removeProfessional, bind, confirm; cbn. destruct answer; cbn.
    + do 3 eexists; split; [reflexivity|]. auto.
    + do 3 eexists; split; [reflexivity|]. auto.
  - (* handleEditProfSave *)
    unfold handleEditProfSave. destruct editingProf as [e|]; cbn.
    + eexists _, true, []. rewrite app_nil_r. split; [reflexivity|]. auto.
    + exists st, sch, []. rewrite app_nil_r. split; [reflexivity|]. auto.
  - (* addExpense *)
    unfold addExpense. destruct (exp_value fd) as [v|]; cbn.
    + eexists _, true, []. rewrite app_nil_r. split; [reflexivity|]. auto.
    + do 3 eexists; split; [reflexivity|]. auto.
  - (* importData *)
    destruct file as [text|].
    + rewrite importData_eq. cbn [state scheduled localStorage trace].
      destruct text as [raw | [ | d]].
      * do 3 eexists; split; [reflexivity|]. auto.
      * destruct answer.
        -- rewrite <- app_assoc. do 3 eexists; split; [reflexivity|]. auto.
        -- do 3 eexists; split; [reflexivity|]. auto.
      * destruct answer.
        -- rewrite <- app_assoc. do 3 eexists; split; [reflexivity|]. auto.
        -- do 3 eexists; split; [reflexivity|]. auto.
    + exists st, sch, []. rewrite app_nil_r. split; [reflexivity|]. auto.
  - (* goToDate *)
    eexists _, sch, []. rewrite app_nil_r. split; [reflexivity|]. auto.
Qed.

Lemma dispatch_mirrored (h : State -> Eff unit) (w : World) :
  orderly h -> mirrored w -> mirrored (dispatch h w).
Proof.
  intros Hh (Hslot & Hloaded & Hsch).
  destruct (Hh w) as (st' & sch' & log & Heq & Hl & Hcase).
  unfold dispatch, bind. rewrite Heq.
  destruct Hcase as [-> | [-> Hdata]].
  - rewrite rerender_scheduled by reflexivity.
    cbn [state]. unfold saveEffect. rewrite Hl, Hloaded.
    unfold setItem, mirrored; cbn [snd state localStorage scheduled].
    repeat split; congruence.
  - unfold rerender, mirrored. cbn [scheduled]. rewrite Hsch.
    cbn [snd state localStorage scheduled].
    repeat split; congruence.
Qed.

Lemma mount_mirrored (today : string) (w : World) :
  mirrored (snd (mount today w)).
Proof. rewrite mount_eq. cbn. repeat split. Qed.

Lemma perform_dispatch (a : Action) (w : World) :
  isReload a = false -> perform a w = dispatch (handler a) w.
Proof. destruct a; intros H; try reflexivity; discriminate. Qed.

Lemma perform_mirrored (a : Action) (w : World) :
  mirrored w -> mirrored (perform a w).
Proof.
  intros Hw. destruct (isReload a) eqn:Hr.
  - destruct a; try discriminate.
    + cbn [perform]. unfold clearBank, bind, confirm; cbn.
      destruct answer; cbn.
      * repeat split.
      * destruct Hw as (H1 & H2 & H3). repeat split; assumption.
    + cbn [perform]. apply mount_mirrored.
  - rewrite perform_dispatch by exact Hr.
    apply dispatch_mirrored; [apply handler_orderly, Hr | exact Hw].
Qed.

Lemma performAll_mirrored (actions : list Action) (w : World) :
  mirrored w -> mirrored (performAll actions w).
Proof.
  revert w. induction actions as [|a actions IH]; intros w Hw; cbn;
    [exact Hw|].
  apply IH, perform_mirrored, Hw.
Qed.

Lemma boot_mirrored (slot : option Text) (today : string) :
  mirrored (boot slot today).
Proof. unfold boot. apply mount_mirrored. Qed.

(** X1. From the opening of the page on, after any sequence of actions,
    the slot holds exactly the snapshot of the seven collections of the
    store, the loaded flag is set and no save is pending: nothing the
    user has done is unsaved. *)
Theorem slot_mirrors_store (slot : option Text) (today : string)
    (actions : list Action) :
  let w := performAll actions (boot slot today) in
  localStorage w = Some (JSON_stringify (dataOf (state w)))
  /\ isLoaded (state w) = true
  /\ scheduled w = false.
Proof. apply performAll_mirrored, boot_mirrored. Qed.

Lemma reload_mirrored (today : string) (w : World) :
  mirrored w ->
  dataOf (state (perform (Reload today) w)) = dataOf (state w)
  /\ localStorage (perform (Reload today) w) = localStorage w.
Proof.
  intros (Hslot & _ & _). cbn [perform]. rewrite mount_eq. cbn.
  rewrite Hslot. cbn. split; reflexivity.
Qed.

(** X2. A reload after any sequence of the actions of the ledger
    (receipts and expenses added, receipts removed, professionals added,
    edited and removed, imports, day navigation, clearing of the bank,
    reloads; the stock and the patients are not among them) gives back
    the seven collections as they were and leaves the slot as it was;
    the consulted date is not kept, it is the day of the reload. This is
    for stores whose numbers are finite, as those of the embedding are:
    a [NaN] (the new-professional form stores one for a percentage that
    [parseInt] cannot read, the stock form of the first revision one as
    every [minQuantity]) is written to the slot as [null] and is not
    given back. *)
Theorem reload_restores_store (slot : option Text) (today today' : string)
    (actions : list Action) :
  let w := performAll actions (boot slot today) in
  let w' := perform (Reload today') w in
  dataOf (state w') = dataOf (state w)
  /\ localStorage w' = localStorage w
  /\ isLoaded (state w') = true
  /\ currentDate (state w') = today'.
Proof.
  intros w w'.
  destruct (reload_mirrored today' w) as [Hd Hs].
  { apply performAll_mirrored, boot_mirrored. }
  split; [exact Hd|]. split; [exact Hs|].
  subst w'. cbn [perform]. rewrite mount_eq. cbn.
  destruct (localStorage w) as [[raw | [ | d]] | ]; cbn; split; reflexivity.
Qed.

(** ** Clearing the bank *)

(** X3. A confirmed [clearBank] removes the slot and reloads the page:
    the store is the initial one (every collection empty, the service
    types back to the four defaults, the consulted date the day of the
    reload) and the slot is written again with the snapshot of that
    empty store; a declined one only shows the dialog. *)
Theorem clearBank_resets_store (today : string) (w : World) :
  let question :=
    Confirm "ATENÇÃO: Isso apagará TODOS os dados cadastrados. Tem certeza?" in
  let w' := perform (ClearBank true today) w in
  state w' = setIsLoaded true (initialState today)
  /\ localStorage w' = Some (JSON_stringify (dataOf (initialState today)))
  /\ trace w'
     = trace w ++ [ question; RemoveItem;
                    SetItem (JSON_stringify (dataOf (initialState today))) ]
  /\ perform (ClearBank false today) w
     = mkWorld (state w) (scheduled w) (localStorage w) (trace w ++ [question]).
Proof.
  cbn [perform]. unfold clearBank, bind, confirm. cbn.
  repeat split. rewrite <- !app_assoc. reflexivity.
Qed.

(** ** Receipts: rejection, creation and deletion *)

Lemma dispatch_unscheduled (h : State -> Eff unit) (w w' : World) :
  h (state w) w = (Normal tt, w') -> scheduled w' = false ->
  dispatch h w = w'.
Proof.
  intros Heq Hsch. unfold dispatch, bind. rewrite Heq.
  unfold rerender. rewrite Hsch. reflexivity.
Qed.

(** X4. A submission of the receipt form that selects no professional
    (no index, or an index at which the list has none, as always when
    the list is empty) is rejected with the alert "Selecione um
    profissional" whatever the value typed; with a professional selected
    and a value that is not a number it is rejected with "Valor
    inválido". A rejected submission changes neither the store nor the
    slot. *)
Theorem addReceipt_rejected (formData : ReceiptForm) (now : Clock)
    (newId : string) (w : World) :
  scheduled w = false ->
  (selected formData (state w) = None ->
   perform (AddReceipt formData now newId) w
     = mkWorld (state w) false (localStorage w)
               (trace w ++ [Alert "Selecione um profissional"]))
  /\ (forall prof,
        selected formData (state w) = Some prof ->
        form_value formData = None ->
        perform (AddReceipt formData now newId) w
          = mkWorld (state w) false (localStorage w)
                    (trace w ++ [Alert "Valor inválido"])).
Proof.
  intros Hsch. rewrite perform_dispatch by reflexivity. cbn [handler].
  unfold selected. split.
  - intros Hsel. apply dispatch_unscheduled; [|reflexivity].
    unfold addReceipt. rewrite Hsel. unfold alert, emit. rewrite Hsch.
    reflexivity.
  - intros prof Hsel Hval. apply dispatch_unscheduled; [|reflexivity].
    unfold addReceipt. rewrite Hsel, Hval. unfold alert, emit. rewrite Hsch.
    reflexivity.
Qed.

Lemma addReceipt_rejected_witness :
  scheduled sampleWorld = false
  /\ selected (mkReceiptForm (Some 5%nat) (Some 200%Q) "consulta" "pix")
              (state sampleWorld) = None
  /\ perform (AddReceipt (mkReceiptForm (Some 5%nat) (Some 200%Q) "consulta" "pix")
                         sampleClock "r1") sampleWorld
     = mkWorld (state sampleWorld) false (localStorage sampleWorld)
               (trace sampleWorld ++ [Alert "Selecione um profissional"]).
Proof.
  split; [reflexivity|]. split; [reflexivity|].
  apply (addReceipt_rejected
           (mkReceiptForm (Some 5%nat) (Some 200%Q) "consulta" "pix")
           sampleClock "r1" sampleWorld eq_refl).
  reflexivity.
Defined.

Lemma removeReceipt_state (r : Receipt.t) (answer : bool) (w : World) :
  state (perform (RemoveReceipt r answer) w)
    = if answer
      then setReceipts
             (List.filter
                (fun x => negb (String.eqb (Receipt.id x) (Receipt.id r)))
                (receipts (state w)))
             (state w)
      else state w.
Proof.
  unfold perform, handler. rewrite state_then_rerender.
  unfold removeReceipt, bind, confirm. cbn. destruct answer; reflexivity.
Qed.

Lemma filter_other_ids (newId : string) (l : list Receipt.t) :
  Forall (fun x => Receipt.id x <> newId) l ->
  List.filter (fun x => negb (String.eqb (Receipt.id x) newId)) l = l.
Proof.
  induction 1 as [|x l Hx _ IH]; cbn; [reflexivity|].
  apply String.eqb_neq in Hx. rewrite Hx. cbn. rewrite IH. reflexivity.
Qed.

(** X5. Deleting the receipt that a validated submission has just
    created gives back the store as it was, provided that no receipt of
    the store already carries the id of the new one; in general the
    deletion is by id, so every older receipt with that id goes with
    it. *)
Theorem addReceipt_then_removeReceipt (formData : ReceiptForm) (now : Clock)
    (newId : string) (w : World) (prof : Professional.t) (g : Q) :
  selected formData (state w) = Some prof ->
  form_value formData = Some g ->
  let w1 := perform (AddReceipt formData now newId) w in
  exists r,
    receipts (state w1) = receipts (state w) ++ [r]
    /\ Receipt.id r = newId
    /\ receipts (state (perform (RemoveReceipt r true) w1))
       = List.filter (fun x => negb (String.eqb (Receipt.id x) newId))
                     (receipts (state w))
    /\ (Forall (fun x => Receipt.id x <> newId) (receipts (state w)) ->
        state (perform (RemoveReceipt r true) w1) = state w).
Proof.
  intros Hsel Hval w1.
  assert (Hst : exists r,
             state w1 = setReceipts (receipts (state w) ++ [r]) (state w)
             /\ Receipt.id r = newId).
  { subst w1. unfold perform, handler. rewrite state_then_rerender.
    unfold selected in Hsel. unfold addReceipt. rewrite Hsel, Hval. cbn.
    eexists. split; reflexivity. }
  destruct Hst as (r & Hst & Hid). exists r.
  assert (Hfilter :
            List.filter (fun x => negb (String.eqb (Receipt.id x) (Receipt.id r)))
                        (receipts (state w) ++ [r])
            = List.filter (fun x => negb (String.eqb (Receipt.id x) newId))
                          (receipts (state w))).
  { rewrite List.filter_app, Hid. cbn. rewrite Hid, String.eqb_refl. cbn.
    apply app_nil_r. }
  split; [rewrite Hst; reflexivity|]. split; [exact Hid|].
  rewrite removeReceipt_state, Hst. cbn [receipts setReceipts].
  rewrite Hfilter. split; [reflexivity|].
  intros Hfresh. rewrite filter_other_ids by exact Hfresh.
  destruct (state w); reflexivity.
Qed.

Lemma addReceipt_then_removeReceipt_witness :
  exists r,
    receipts (state (perform (AddReceipt sampleForm sampleClock "r1") sampleWorld))
      = receipts (state sampleWorld) ++ [r]
    /\ state (perform (RemoveReceipt r true)
                (perform (AddReceipt sampleForm sampleClock "r1") sampleWorld))
       = state sampleWorld.
Proof.
  destruct (addReceipt_then_removeReceipt
              sampleForm sampleClock "r1" sampleWorld sampleProf30 200
              eq_refl eq_refl)
    as (r & Hadd & _ & _ & Hback).
  exists r. split; [exact Hadd|]. apply Hback. constructor.
Defined.

(** ** Editing a professional *)

Lemma handleEditProfSave_state (editing : Professional.t)
    (name spec phone : string) (perc : option Z) (w : World) :
  state (perform (EditProfessional (Some editing) name spec phone perc) w)
    = setProfessionals
        (List.map
           (fun p =>
              if String.eqb (Professional.id p) (Professional.id editing)
              then Professional.mk (Professional.id p) name spec phone
                     (perc_or_100 perc) (Professional.createdAt p)
              else p)
           (professionals (state w)))
        (state w).
Proof.
  unfold perform, handler. rewrite state_then_rerender. reflexivity.
Qed.

Lemma perc_or_100_not_0 (perc : option Z) : ~ perc_or_100 perc == 0.
Proof.
  destruct perc as [p|]; cbn; [|discriminate].
  destruct (p =? 0)%Z eqn:Hp; [discriminate|].
  apply Z.eqb_neq in Hp. unfold Qeq; cbn. lia.
Qed.

(** X6. Saving the edit dialog rewrites name, specialty, phone and
    percentage of the professionals that carry the id of the edited one
    and nothing else: the list keeps its length and order, every id and
    creation date, and every other professional; the receipts already
    recorded (their amounts and the name they carry) are not touched;
    the percentage stored is never 0, a 0 or an unreadable number being
    replaced by 100. Without an edited professional nothing happens. *)
Theorem handleEditProfSave_frame (editing : Professional.t)
    (name spec phone : string) (perc : option Z) (w : World) :
  let w' := perform (EditProfessional (Some editing) name spec phone perc) w in
  map Professional.id (professionals (state w'))
    = map Professional.id (professionals (state w))
  /\ map Professional.createdAt (professionals (state w'))
     = map Professional.createdAt (professionals (state w))
  /\ (forall i p,
        nth_error (professionals (state w)) i = Some p ->
        exists p',
          nth_error (professionals (state w')) i = Some p'
          /\ (Professional.id p <> Professional.id editing -> p' = p)
          /\ (Professional.id p = Professional.id editing ->
              Professional.name p' = name
              /\ Professional.specialty p' = spec
              /\ Professional.phone p' = phone
              /\ Professional.percentage p' = perc_or_100 perc
              /\ ~ Professional.percentage p' == 0))
  /\ receipts (state w') = receipts (state w)
  /\ expenses (state w') = expenses (state w)
  /\ currentDate (state w') = currentDate (state w)
  /\ state (perform (EditProfessional None name spec phone perc) w) = state w.
Proof.
  intros w'. subst w'. rewrite handleEditProfSave_state.
  cbn [professionals receipts expenses currentDate setProfessionals].
  split; [|split; [|split]].
  - rewrite List.map_map. apply List.map_ext. intros p.
    destruct (String.eqb (Professional.id p) (Professional.id editing));
      reflexivity.
  - rewrite List.map_map. apply List.map_ext. intros p.
    destruct (String.eqb (Professional.id p) (Professional.id editing));
      reflexivity.
  - intros i p Hp. eexists. split.
    + rewrite List.nth_error_map, Hp. reflexivity.
    + destruct (String.eqb (Professional.id p) (Professional.id editing))
        eqn:Hid.
      * apply String.eqb_eq in Hid. split; [congruence|].
        intros _. cbn. repeat split. apply perc_or_100_not_0.
      * apply String.eqb_neq in Hid. split; [reflexivity|].
        intros Heq. contradiction.
  - repeat split.
    unfold perform, handler. rewrite state_then_rerender. reflexivity.
Qed.

(** X7. A professional whose percentage is edited to 0, or to nothing
    readable, is stored with 100, and 100 is the regime without
    commission: of every receipt registered for that professional
    afterwards the professional gets 0 and the clinic the whole gross
    value. *)
Theorem edit_to_zero_percent_pays_no_commission (editing : Professional.t)
    (name spec phone : string) (perc : option Z) (w : World)
    (formData : ReceiptForm) (now : Clock) (newId : string)
    (p : Professional.t) (g : Q) :
  perc = Some 0%Z \/ perc = None ->
  selected formData (state w) = Some p ->
  Professional.id p = Professional.id editing ->
  form_value formData = Some g ->
  let w1 := perform (EditProfessional (Some editing) name spec phone perc) w in
  (exists p', selected formData (state w1) = Some p'
              /\ Professional.percentage p' = 100%Q)
  /\ exists r,
       receipts (state (perform (AddReceipt formData now newId) w1))
         = receipts (state w) ++ [r]
       /\ Receipt.grossValue r = g
       /\ Receipt.professionalValue r = 0%Q
       /\ Receipt.netClinic r == g.
Proof.
  intros Hperc Hsel Hid Hval w1.
  assert (H100 : perc_or_100 perc = 100%Q)
    by (destruct Hperc as [-> | ->]; reflexivity).
  assert (Hst : state w1
                = setProfessionals
                    (List.map
                       (fun p =>
                          if String.eqb (Professional.id p) (Professional.id editing)
                          then Professional.mk (Professional.id p) name spec phone
                                 (perc_or_100 perc) (Professional.createdAt p)
                          else p)
                       (professionals (state w)))
                    (state w))
    by apply handleEditProfSave_state.
  unfold selected in *.
  destruct (form_professional formData) as [i|] eqn:Hi; [|discriminate].
  assert (Hsel1 : nth_error (professionals (state w1)) i
                  = Some (Professional.mk (Professional.id p) name spec phone
                            100 (Professional.createdAt p))).
  { rewrite Hst. cbn [professionals setProfessionals].
    rewrite List.nth_error_map, Hsel. cbn.
    apply String.eqb_eq in Hid. rewrite Hid, H100. reflexivity. }
  split.
  - eexists. split; [exact Hsel1 | reflexivity].
  - destruct (addReceipt_valid formData now newId w1 i _ g Hi Hsel1 Hval)
      as (r & Hadd & Hg & Hpv & Hnet & _).
    exists r. rewrite Hadd, Hst. cbn [receipts setReceipts setProfessionals].
    split; [reflexivity|]. split; [exact Hg|].
    cbn [Professional.percentage] in Hpv.
    change (Qeq_bool 100 100) with true in Hpv. cbv iota in Hpv.
    split; [exact Hpv|].
    rewrite Hnet, Hpv. ring.
Qed.

Lemma edit_to_zero_percent_pays_no_commission_witness :
  exists r,
    receipts
      (state (perform (AddReceipt sampleForm sampleClock "r1")
                (perform (EditProfessional (Some sampleProf30) "Ana"
                            "Clinica Geral" "" (Some 0%Z)) sampleWorld)))
      = receipts (state sampleWorld) ++ [r]
    /\ Receipt.professionalValue r = 0%Q
    /\ Receipt.netClinic r == 200.
Proof.
  destruct (edit_to_zero_percent_pays_no_commission
              sampleProf30 "Ana" "Clinica Geral" "" (Some 0%Z) sampleWorld
              sampleForm sampleClock "r1" sampleProf30 200
              (or_introl eq_refl) eq_refl eq_refl eq_refl)
    as (_ & r & Hadd & _ & Hpv & Hnet).
  exists r. split; [exact Hadd|]. split; [exact Hpv | exact Hnet].
Defined.

(** ** Backup and restore *)

Lemma importData_state (d : Data) (w : World) :
  state (perform (ImportData (Some (WellFormed (JSObject d))) true) w)
    = importedState d (state w).
Proof.
  unfold perform, handler. rewrite state_then_rerender, importData_eq.
  reflexivity.
Qed.

(** X8. The backup file is named after the consulted date and, for a
    state whose numbers are finite (as those of the embedding are; a
    [NaN] of the store is written to the file as [null] and is not
    restored), it restores what it was made from: importing, with the
    dialog confirmed, the file that [exportData] wrote for such a state
    puts the seven collections of that state in the store, whatever the
    store held before; the loaded flag and the consulted date are those
    of the importing store, and importing the backup of the current
    store changes nothing. *)
Theorem export_then_import_restores (st : State) (w : World) :
  let file := exportData st in
  let w' := perform (ImportData (Some (href file)) true) w in
  download file = ("backup_centro_medico_" ++ currentDate st ++ ".json")%string
  /\ dataOf (state w') = dataOf st
  /\ isLoaded (state w') = isLoaded (state w)
  /\ currentDate (state w') = currentDate (state w)
  /\ state (perform (ImportData (Some (href (exportData (state w)))) true) w)
     = state w.
Proof.
  cbn zeta. unfold exportData, JSON_stringify. cbn [href download].
  rewrite !importData_state.
  split; [reflexivity|]. split; [reflexivity|]. split; [reflexivity|].
  split; [reflexivity|]. destruct (state w); reflexivity.
Qed.

(** X9. A confirmed import replaces, it does not merge: each of the six
    record collections becomes the one of the file, and the empty one
    when the file has none (where the load at startup keeps what is
    there); only the service types are kept when the file has none.
    Once the page has loaded, the slot is overwritten at once with the
    snapshot of the new store, so what the import erased is erased in
    the slot too. *)
Theorem importData_replaces_store (d : Data) (w : World) :
  isLoaded (state w) = true ->
  let w' := perform (ImportData (Some (WellFormed (JSObject d))) true) w in
  professionals (state w') = or_empty (data_professionals d)
  /\ patients (state w') = or_empty (data_patients d)
  /\ receipts (state w') = or_empty (data_receipts d)
  /\ expenses (state w') = or_empty (data_expenses d)
  /\ products (state w') = or_empty (data_products d)
  /\ dailyConfigs (state w') = or_empty (data_dailyConfigs d)
  /\ serviceTypes (state w') = overwrite (data_serviceTypes d) (serviceTypes (state w))
  /\ localStorage w' = Some (JSON_stringify (dataOf (state w')))
  /\ trace w'
     = trace w
       ++ [ Confirm "Isso irá substituir todos os dados atuais. Deseja continuar?";
            Alert "Dados importados com sucesso!";
            SetItem (JSON_stringify (dataOf (state w'))) ].
Proof.
  intros Hloaded w'.
  assert (Hw' : w' = mkWorld (importedState d (state w)) false
                       (Some (JSON_stringify (dataOf (importedState d (state w)))))
                       (trace w
                        ++ [ Confirm "Isso irá substituir todos os dados atuais. Deseja continuar?";
                             Alert "Dados importados com sucesso!";
                             SetItem (JSON_stringify
                                        (dataOf (importedState d (state w)))) ])).
  { subst w'. unfold perform, handler, bind. rewrite importData_eq.
    cbv beta iota zeta. rewrite rerender_scheduled by reflexivity.
    cbn [state localStorage trace]. unfold saveEffect.
    cbn [importedState isLoaded]. rewrite Hloaded.
    unfold setItem. cbn [state scheduled localStorage trace snd].
    rewrite <- !app_assoc. reflexivity. }
  rewrite Hw'. cbn [state localStorage trace].
  repeat split.
Qed.

Lemma importData_replaces_store_witness :
  isLoaded (state sampleWorld) = true
  /\ professionals
       (state (perform (ImportData (Some (WellFormed (JSObject emptyObject))) true)
                       sampleWorld)) = []
  /\ localStorage
       (perform (ImportData (Some (WellFormed (JSObject emptyObject))) true)
                sampleWorld)
     = Some (JSON_stringify
               (dataOf (setProfessionals [] (state sampleWorld)))).
Proof.
  destruct (importData_replaces_store emptyObject sampleWorld eq_refl)
    as (Hp & _ & _ & _ & _ & _ & _ & Hslot & _).
  split; [reflexivity|]. split; [exact Hp | exact Hslot].
Defined.

(** ** Expenses are only ever added *)

Lemma handler_expenses (a : Action) (w : World) :
  isReload a = false -> destructive a = false ->
  exists added,
    expenses (state (dispatch (handler a) w)) = expenses (state w) ++ added.
Proof.
  intros Hr Hd. unfold dispatch. rewrite state_then_rerender.
  destruct w as [st sch slot tr]. cbn [state].
  destruct a; cbn [isReload handler] in *; try discriminate.
  - unfold addReceipt.
    destruct (form_professional formData) as [i|]; cbn;
      [|exists []; symmetry; apply app_nil_r].
    destruct (nth_error (professionals st) i) as [p|]; cbn;
      [|exists []; symmetry; apply app_nil_r].
    destruct (form_value formData) as [g|]; cbn;
      exists []; symmetry; apply app_nil_r.
  - unfold removeReceipt, bind, confirm; cbn.
    destruct answer; cbn; exists []; symmetry; apply app_nil_r.
  - unfold addProfessional.
    destruct temPorcentagem as [tem|]; cbn; exists []; symmetry;
      apply app_nil_r.
  - unfold removeProfessional, bind, confirm; cbn.
    destruct answer; cbn; exists []; symmetry; apply app_nil_r.
  - unfold handleEditProfSave.
    destruct editingProf as [e|]; cbn; exists []; symmetry; apply app_nil_r.
  - unfold addExpense. destruct (exp_value fd) as [v|]; cbn.
    + eexists. reflexivity.
    + exists []. symmetry. apply app_nil_r.
  - destruct file as [text|]; [|exists []; symmetry; apply app_nil_r].
    rewrite importData_eq. cbn [state].
    destruct text as [raw | [ | d]]; cbn.
    + exists []. symmetry. apply app_nil_r.
    + destruct answer; exists []; symmetry; apply app_nil_r.
    + destruct answer; [discriminate|]. exists []. symmetry. apply app_nil_r.
  - exists []. symmetry. apply app_nil_r.
Qed.

Lemma perform_expenses (a : Action) (w : World) :
  mirrored w -> destructive a = false ->
  exists added,
    expenses (state (perform a w)) = expenses (state w) ++ added.
Proof.
  intros Hw Hd. destruct (isReload a) eqn:Hr.
  - exists []. rewrite app_nil_r.
    destruct a; try discriminate.
    + cbn [destructive] in Hd. destruct answer; [discriminate|].
      reflexivity.
    + destruct (reload_mirrored today w Hw) as [Hdata _].
      injection Hdata. auto.
  - rewrite perform_dispatch by exact Hr. apply handler_expenses; assumption.
Qed.

(** X10. The program has no way to delete or change an expense: from
    the opening of the page on, through receipts, professionals, day
    navigation, declined dialogs and reloads (everything but a confirmed
    import and a confirmed clearing of the bank), the expenses recorded
    stay, in their order, and new ones are only added after them. *)
Theorem expenses_append_only (slot : option Text) (today : string)
    (before after : list Action) :
  forallb (fun a => negb (destructive a)) after = true ->
  let w := performAll before (boot slot today) in
  exists added,
    expenses (state (performAll after w)) = expenses (state w) ++ added.
Proof.
  intros Hafter w.
  assert (Hw : mirrored w) by apply performAll_mirrored, boot_mirrored.
  clearbody w. revert w Hw.
  induction after as [|a after IH]; intros w Hw.
  - exists []. symmetry. apply app_nil_r.
  - change (performAll (a :: after) w) with (performAll after (perform a w)).
    cbn in Hafter. apply andb_prop in Hafter. destruct Hafter as [Ha Hafter].
    apply negb_true_iff in Ha.
    destruct (perform_expenses a w Hw Ha) as (added1 & H1).
    destruct (IH Hafter (perform a w) (perform_mirrored a w Hw))
      as (added2 & H2).
    exists (added1 ++ added2). rewrite H2, H1, <- app_assoc. reflexivity.
Qed.

Lemma expenses_append_only_witness :
  let before := [ AddExpense sampleExpenseForm sampleClock "e1" ] in
  let after :=
    [ RemoveReceipt balancedReceipt true;
      AddExpense (mkExpenseForm (Some 12%Q) "limpeza" "Sabão" "pix")
                 (mkClock 15 0 0) "e2";
      ImportData (Some balancedFile) false;
      Reload "2024-05-02" ] in
  let w := performAll before (boot None "2024-05-01") in
  map Expense.id (expenses (state w)) = ["e1"]
  /\ map Expense.id (expenses (state (performAll after w))) = ["e1"; "e2"]
  /\ exists added,
       expenses (state (performAll after w)) = expenses (state w) ++ added.
Proof.
  cbv zeta. split; [reflexivity|]. split; [reflexivity|].
  apply (expenses_append_only None "2024-05-01"
           [ AddExpense sampleExpenseForm sampleClock "e1" ]
           [ RemoveReceipt balancedReceipt true;
             AddExpense (mkExpenseForm (Some 12%Q) "limpeza" "Sabão" "pix")
                        (mkClock 15 0 0) "e2";
             ImportData (Some balancedFile) false;
             Reload "2024-05-02" ]).
  reflexivity.
Defined.

(** ** Sums *)



Lemma gt_0_spec (x : Q) : gt_0 x = true <-> (0 < x)%Q.
Proof.
  unfold gt_0. rewrite negb_true_iff. split.
  - intros H. apply Qnot_le_lt. intros Hle.
    apply Qle_bool_iff in Hle. congruence.
  - intros H. destruct (Qle_bool x 0) eqn:Hb; [|reflexivity].
    apply Qle_bool_iff in Hb. exfalso. exact (Qlt_not_le _ _ H Hb).
Qed.

(** ** The month and its chart *)

Lemma round_sign (x : Q) :
  (0 <= x)%Q ->
  (0 <= Binary64.round x)%Q /\ ((0 < Binary64.round x)%Q <-> (0 < x)%Q).
Proof.
  intros Hx. pose proof (round_error x) as Hr.
  rewrite (Qabs_pos x) in Hr by exact Hx.
  apply Qabs_Qle_condition in Hr.
  assert (Hu : (Binary64.u * x <= (1 # 2) * x)%Q).
  { apply Qmult_le_compat_r; [discriminate | exact Hx]. }
  split; [lra|]. split; [|lra].
  intros Hpos. destruct (Qlt_le_dec 0 x) as [H|H]; [exact H|].
  exfalso. assert (H0 : x == 0) by lra.
  unfold Binary64.round in Hpos.
  apply Qeq_bool_iff in H0. rewrite H0 in Hpos.
  exact (Qlt_irrefl 0 Hpos).
Qed.

(** A left-to-right sum of amounts that are not negative is not
    negative, and is positive exactly when one of them is. *)
Lemma fold_add_sign {X} (f : X -> Q) (l : list X) (acc : Q) :
  (0 <= acc)%Q -> Forall (fun x => 0 <= f x)%Q l ->
  (0 <= fold_left (fun s x => Binary64.add s (f x)) l acc)%Q
  /\ ((0 < fold_left (fun s x => Binary64.add s (f x)) l acc)%Q
      <-> (0 < acc)%Q \/ Exists (fun x => 0 < f x)%Q l).
Proof.
  intros Hacc Hl. revert acc Hacc.
  induction Hl as [|x l Hx _ IH]; intros acc Hacc; cbn [fold_left].
  - split; [exact Hacc|]. split; [auto|].
    intros [H|H]; [exact H | inversion H].
  - assert (Hs : (0 <= acc + f x)%Q) by lra.
    destruct (round_sign (acc + f x) Hs) as [H0 Hpos].
    destruct (IH (Binary64.add acc (f x)) H0) as [IH0 IHpos].
    split; [exact IH0|]. rewrite IHpos. unfold Binary64.add. rewrite Hpos.
    split.
    + intros [H|H]; [|right; right; exact H].
      destruct (Qlt_le_dec 0 acc) as [Ha|Ha]; [left; exact Ha|].
      right. left. lra.
    + intros [H|H]; [left; lra|].
      inversion H as [? ? Hfx | ? ? Hex]; subst;
        [left; lra | right; exact Hex].
Qed.

Lemma rounded_total_sign {X} (f : X -> Q) (l : list X) :
  Forall (fun x => 0 <= f x)%Q l ->
  (0 <= rounded_total f l)%Q
  /\ ((0 < rounded_total f l)%Q <-> Exists (fun x => 0 < f x)%Q l).
Proof.
  intros Hl. unfold rounded_total, Array_reduce.
  destruct (fold_add_sign f l 0 (Qle_refl 0) Hl) as [H0 Hpos].
  split; [exact H0|]. rewrite Hpos. split; [|auto].
  intros [H|H]; [exfalso; exact (Qlt_irrefl 0 H) | exact H].
Qed.

Lemma Exists_filter {X} (f : X -> bool) (P : X -> Prop) (l : list X) :
  Exists P (List.filter f l) <-> Exists (fun x => f x = true /\ P x) l.
Proof.
  rewrite !List.Exists_exists. split.
  - intros (x & Hin & Hp). apply List.filter_In in Hin.
    exists x. tauto.
  - intros (x & Hin & Hf & Hp). exists x. split; [|exact Hp].
    apply List.filter_In. tauto.
Qed.

(** A total by method is positive exactly when a receipt of the method
    has a positive gross value. *)
Lemma method_total_pos (m : string) (l : list Receipt.t) :
  Forall (fun r => 0 <= Receipt.grossValue r)%Q l ->
  gt_0 (rounded_total Receipt.grossValue (List.filter (methodIs m) l)) = true
  <-> Exists (fun r => methodIs m r = true /\ 0 < Receipt.grossValue r)%Q l.
Proof.
  intros Hl. rewrite gt_0_spec.
  destruct (rounded_total_sign Receipt.grossValue (List.filter (methodIs m) l))
    as [_ Hpos].
  { apply Forall_filter_bool, Hl. }
  rewrite Hpos. apply Exists_filter.
Qed.

(** X11. The totals of the month in binary64: each of the six is the
    left-to-right sum of its amounts, which is their sum up to
    rounding, and the four totals by payment method, with the gross
    values of the receipts paid by none of the four methods, add up to
    the gross total up to rounding: they differ from it by at most
    [2 * gamma n] times the sum of the absolute gross values of the [n]
    receipts of the month. So do the four alone when every receipt is
    paid by pix, dinheiro, cartao or unimed, and added as the platform
    adds they differ from the gross total by at most
    [gamma (n + 3) + gamma n] times that sum; a receipt with another
    method counts in the gross total only. *)
Theorem totals_by_method (monthlyReceipts : list Receipt.t) :
  let t := Binary64.totals monthlyReceipts in
  let n := length monthlyReceipts in
  let A := total (fun r => Qabs (Receipt.grossValue r)) monthlyReceipts in
  (brutoMes t = rounded_total Receipt.grossValue monthlyReceipts
   /\ liquidoMes t = rounded_total Receipt.netClinic monthlyReceipts
   /\ pixMes t = rounded_total Receipt.grossValue
                   (List.filter (methodIs "pix") monthlyReceipts)
   /\ moneyMes t = rounded_total Receipt.grossValue
                     (List.filter (methodIs "dinheiro") monthlyReceipts)
   /\ cardMes t = rounded_total Receipt.grossValue
                    (List.filter (methodIs "cartao") monthlyReceipts)
   /\ unimedMes t = rounded_total Receipt.grossValue
                      (List.filter (methodIs "unimed") monthlyReceipts))
  /\ (forall (f : Receipt.t -> Q) (l : list Receipt.t),
        Qabs (rounded_total f l - total f l)
        <= Binary64.gamma (length l) * total (fun r => Qabs (f r)) l)%Q
  /\ (Qabs (pixMes t + moneyMes t + cardMes t + unimedMes t
            + total Receipt.grossValue (List.filter unlisted monthlyReceipts)
            - brutoMes t)
      <= 2 * Binary64.gamma n * A)%Q
  /\ (Forall (fun r => enumerated (Receipt.paymentMethod r)) monthlyReceipts ->
      (Qabs (pixMes t + moneyMes t + cardMes t + unimedMes t - brutoMes t)
       <= 2 * Binary64.gamma n * A)%Q
      /\ (Qabs (Binary64.add
                  (Binary64.add (Binary64.add (pixMes t) (moneyMes t))
                                (cardMes t))
                  (unimedMes t)
                - brutoMes t)
          <= (Binary64.gamma (n + 3) + Binary64.gamma n) * A)%Q).
Proof.
  intros t n A.
  assert (Hall : (Qabs (pixMes t + moneyMes t + cardMes t + unimedMes t
                        + total Receipt.grossValue
                            (List.filter unlisted monthlyReceipts)
                        - brutoMes t)
                  <= 2 * Binary64.gamma n * A)%Q).
  { rewrite <- Qmult_assoc.
    apply (near_both _ _ (total Receipt.grossValue monthlyReceipts)).
    - apply (four_totals_within Receipt.grossValue monthlyReceipts).
    - exact (proj2 (rounded_total_within Receipt.grossValue monthlyReceipts)). }
  split; [repeat split|]. split; [|split].
  - intros f l. exact (proj2 (rounded_total_within f l)).
  - exact Hall.
  - intros Henum. split.
    + rewrite (unlisted_enumerated _ Henum) in Hall.
      cbn [total] in Hall.
      assert (E : forall a, a + 0 - brutoMes t == a - brutoMes t)
        by (intros a; ring).
      rewrite <- E. exact Hall.
    + exact (within_close _ _ _ _ _ _
               (four_totals_added_within Receipt.grossValue monthlyReceipts
                                         Henum)
               (rounded_total_within Receipt.grossValue monthlyReceipts)).
Qed.

(** X12. The slices of the pie chart, on the totals of the month in
    binary64: every slice has a positive value; when no receipt of the
    month has a negative gross value, a payment method has its slice
    exactly when one of its receipts of the month has a positive gross
    value (rounding never makes a slice appear or disappear); a month
    without receipts has no slice. *)
Theorem pieData_slices (monthlyReceipts : list Receipt.t) :
  let t := Binary64.totals monthlyReceipts in
  Forall (fun s => 0 < slice_value s)%Q (pieData t)
  /\ (Forall (fun r => 0 <= Receipt.grossValue r)%Q monthlyReceipts ->
      forall name m : string,
        In (name, m) [ ("Cartão", "cartao"); ("PIX", "pix");
                       ("Dinheiro", "dinheiro"); ("Unimed", "unimed") ] ->
        (exists s, In s (pieData t) /\ slice_name s = name)
        <-> Exists (fun r => methodIs m r = true /\ 0 < Receipt.grossValue r)%Q
                   monthlyReceipts)
  /\ (monthlyReceipts = [] -> pieData t = []).
Proof.
  intros t. split; [|split].
  - unfold pieData. apply List.Forall_forall. intros s Hs.
    apply List.filter_In in Hs. destruct Hs as [_ Hs].
    apply gt_0_spec. exact Hs.
  - intros Hpos name m Hin.
    rewrite <- (method_total_pos m monthlyReceipts Hpos).
    unfold pieData.
    cbn [In] in Hin.
    destruct Hin as [H | [H | [H | [H | []]]]]; injection H as <- <-;
      (split;
       [ intros (s & Hs & Hname); apply List.filter_In in Hs;
         destruct Hs as [Hs Hv]; cbn [In] in Hs;
         destruct Hs as [<- | [<- | [<- | [<- | []]]]];
           try discriminate Hname; exact Hv
       | intros Hv;
         first
           [ solve [ eexists; split;
                     [ apply List.filter_In; split;
                       [left; reflexivity | exact Hv]
                     | reflexivity ] ]
           | solve [ eexists; split;
                     [ apply List.filter_In; split;
                       [right; left; reflexivity | exact Hv]
                     | reflexivity ] ]
           | solve [ eexists; split;
                     [ apply List.filter_In; split;
                       [right; right; left; reflexivity | exact Hv]
                     | reflexivity ] ]
           | solve [ eexists; split;
                     [ apply List.filter_In; split;
                       [right; right; right; left; reflexivity | exact Hv]
                     | reflexivity ] ] ] ]).
  - intros ->. reflexivity.
Qed.

(** ** The list and the totals of a day *)

Lemma dailyReceipts_Permutation (receipts : list Receipt.t)
    (currentDate : string) :
  Permutation (dailyReceipts receipts currentDate)
              (List.filter (onDay currentDate) receipts).
Proof.
  rewrite dailyReceipts_unfold. apply sorted_filter_spec.
Qed.


(** ** A new receipt in the lists and totals *)

Lemma decimal_not_T (cs : list ascii) (acc v : nat) :
  decimal acc cs = Some v -> Forall (fun c => Ascii.eqb c "T" = false) cs.
Proof.
  revert acc. induction cs as [|c cs IH]; intros acc H; [constructor|].
  cbn [decimal] in H. destruct (digit c) as [k|] eqn:Hk; [|discriminate].
  constructor; [|exact (IH _ H)].
  destruct (Ascii.eqb_spec c "T") as [->|]; [|reflexivity].
  vm_compute in Hk. discriminate.
Qed.

(** The date part of a timestamp written on a day is the day. *)
Lemma split_0_dateString (y m d : nat) (rest : string) :
  validDate y m d ->
  split_0 "T" (dateString y m d ++ String "T" rest) = dateString y m d
  /\ truthy (dateString y m d ++ String "T" rest) = true.
Proof.
  intros (Hy & Hm & Hd).
  pose proof (daysInMonth_le_31 y m) as H31.
  destruct (String_of_year y Hy) as (y1 & y2 & y3 & y4 & Ey & Dy).
  destruct (padStart_two m ltac:(lia)) as (m1 & m2 & Em & Dm).
  destruct (padStart_two d ltac:(lia)) as (d1 & d2 & Ed & Dd).
  apply decimal_not_T in Dy, Dm, Dd.
  inversion Dy as [|? ? Hy1 Dy1]; subst.
  inversion Dy1 as [|? ? Hy2 Dy2]; subst.
  inversion Dy2 as [|? ? Hy3 Dy3]; subst.
  inversion Dy3 as [|? ? Hy4 _]; subst.
  inversion Dm as [|? ? Hm1 Dm1]; subst.
  inversion Dm1 as [|? ? Hm2 _]; subst.
  inversion Dd as [|? ? Hd1 Dd1]; subst.
  inversion Dd1 as [|? ? Hd2 _]; subst.
  unfold dateString. rewrite Ey, Em, Ed.
  cbv beta iota delta [String.append].
  split; [|reflexivity].
  cbn [split_0]. rewrite Hy1, Hy2, Hy3, Hy4, Hm1, Hm2, Hd1, Hd2.
  replace (Ascii.eqb "-" "T") with false by reflexivity.
  replace (Ascii.eqb "T" "T") with true by reflexivity.
  reflexivity.
Qed.

Lemma onDay_written (y m d : nat) (now : Clock) (r : Receipt.t)
    (currentDate : string) :
  validDate y m d ->
  Receipt.date r = localFullDate (dateString y m d) now ->
  onDay currentDate r = String.eqb (dateString y m d) currentDate.
Proof.
  intros Hv Hdate. unfold onDay. rewrite Hdate.
  destruct (split_0_dateString y m d
              (padStart 2 "0" (String_of (getHours now)) ++ ":"
               ++ padStart 2 "0" (String_of (getMinutes now)) ++ ":"
               ++ padStart 2 "0" (String_of (getSeconds now))) Hv)
    as [Hsplit Htruthy].
  change (localFullDate (dateString y m d) now)
    with (dateString y m d
          ++ String "T"
               (padStart 2 "0" (String_of (getHours now)) ++ ":"
                ++ padStart 2 "0" (String_of (getMinutes now)) ++ ":"
                ++ padStart 2 "0" (String_of (getSeconds now))))%string.
  rewrite Hsplit, Htruthy. reflexivity.
Qed.

(** X14. A validated receipt is stamped with the consulted date, not
    with the day of the clock: it is appended to the receipts of the
    store, it appears in the list of the consulted day and of no other
    day, and in the receipts of the month of the consulted day. *)
Theorem addReceipt_shows_on_consulted_day (formData : ReceiptForm)
    (now : Clock) (newId : string) (w : World) (prof : Professional.t)
    (g : Q) (y m d : nat) :
  selected formData (state w) = Some prof ->
  form_value formData = Some g ->
  currentDate (state w) = dateString y m d ->
  validDate y m d -> validTime now ->
  let st := state w in
  let st1 := state (perform (AddReceipt formData now newId) w) in
  exists r,
    receipts st1 = receipts st ++ [r]
    /\ Receipt.grossValue r = g
    /\ Receipt.date r = localFullDate (currentDate st) now
    /\ currentDate st1 = currentDate st
    /\ In r (dailyReceipts (receipts st1) (currentDate st1))
    /\ (forall day, day <> currentDate st1 ->
                    ~ In r (dailyReceipts (receipts st1) day))
    /\ In r (monthlyReceipts (receipts st1) (currentDate st1)).
Proof.
  intros Hsel Hval Hcd Hvd Hvt st st1.
  unfold selected in Hsel.
  destruct (form_professional formData) as [i|] eqn:Hi; [|discriminate].
  destruct (addReceipt_valid formData now newId w i prof g Hi Hsel Hval)
    as (r & Hst1 & Hg & _ & _ & _ & _ & Hdate).
  fold st1 in Hst1. fold st in Hst1.
  assert (Hrs : receipts st1 = receipts st ++ [r]) by (rewrite Hst1; reflexivity).
  assert (Hcd1 : currentDate st1 = currentDate st) by (rewrite Hst1; reflexivity).
  fold st in Hcd, Hdate.
  assert (Hwritten : Receipt.date r = localFullDate (dateString y m d) now).
  { rewrite Hdate, Hcd. reflexivity. }
  assert (Hon : forall day, onDay day r = String.eqb (dateString y m d) day).
  { intros day. apply (onDay_written y m d now r day Hvd Hwritten). }
  assert (Hin : In r (receipts st1)).
  { rewrite Hrs. apply in_or_app. right. left. reflexivity. }
  exists r. rewrite Hcd1, Hcd.
  split; [exact Hrs|]. split; [exact Hg|]. split; [exact Hwritten|].
  split; [reflexivity|].
  split; [|split].
  - apply (Permutation_in _
             (Permutation_sym (dailyReceipts_Permutation _ _))).
    apply List.filter_In. split; [exact Hin|].
    rewrite Hon. apply String.eqb_refl.
  - intros day Hday Hmem.
    apply (Permutation_in _ (dailyReceipts_Permutation _ _)) in Hmem.
    apply List.filter_In in Hmem. destruct Hmem as [_ Hmem].
    rewrite Hon in Hmem. apply String.eqb_eq in Hmem. congruence.
  - apply (monthlyReceipts_written (receipts st1) r y m d now y m d
             Hin Hvd Hvt Hwritten Hvd).
    split; reflexivity.
Qed.

Lemma addReceipt_shows_on_consulted_day_witness :
  exists r,
    receipts (state (perform (AddReceipt sampleForm sampleClock "r1") sampleWorld))
      = receipts (state sampleWorld) ++ [r]
    /\ In r (dailyReceipts
               (receipts (state (perform (AddReceipt sampleForm sampleClock "r1")
                                         sampleWorld)))
               "2024-05-01").
Proof.
  assert (Hd : validDate 2024 5 1) by (unfold validDate; cbn; lia).
  assert (Ht : validTime sampleClock) by (unfold validTime; cbn; lia).
  destruct (addReceipt_shows_on_consulted_day
              sampleForm sampleClock "r1" sampleWorld sampleProf30 200 2024 5 1
              eq_refl eq_refl eq_refl Hd Ht)
    as (r & Hadd & _ & _ & _ & Hin & _).
  exists r. split; [exact Hadd | exact Hin].
Defined.

(** ** Stock *)

Lemma update_orderly (f : State -> State) :
  (forall st, isLoaded (f st) = isLoaded st) ->
  orderly (fun _ => update f).
Proof.
  intros Hf w. exists (f (state w)), true, [].
  rewrite app_nil_r. split; [reflexivity|]. split; [apply Hf | left; reflexivity].
Qed.

Lemma decrementProduct_orderly (p : Product.t) : orderly (decrementProduct p).
Proof. apply update_orderly. reflexivity. Qed.

Lemma incrementProduct_orderly (p : Product.t) : orderly (incrementProduct p).
Proof. apply update_orderly. reflexivity. Qed.

Lemma addProduct_orderly (fd : ProductForm) (newId : string) :
  orderly (addProduct fd newId).
Proof. apply update_orderly. reflexivity. Qed.

Lemma removeProduct_orderly (p : Product.t) (answer : bool) :
  orderly (removeProduct p answer).
Proof.
  intros w. unfold removeProduct, bind, confirm. cbn.
  destruct answer; cbn.
  - do 3 eexists. split; [reflexivity|]. split; [reflexivity | left; reflexivity].
  - do 3 eexists. split; [reflexivity|]. split; [reflexivity|].
    right. split; reflexivity.
Qed.

Lemma dispatch_update (f : State -> State) (w : World) :
  state (dispatch (fun _ => update f) w) = f (state w).
Proof. unfold dispatch. rewrite state_then_rerender. reflexivity. Qed.

Lemma decrementProduct_products (p : Product.t) (w : World) :
  products (state (dispatch (decrementProduct p) w))
    = List.map
        (fun x =>
           if String.eqb (Product.id x) (Product.id p) && gt_0 (Product.quantity x)
           then Product.mk (Product.id x) (Product.name x)
                  (Product.quantity x - 1) (Product.minQuantity x)
           else x)
        (products (state w)).
Proof.
  unfold decrementProduct. rewrite dispatch_update. reflexivity.
Qed.

Lemma incrementProduct_products (p : Product.t) (w : World) :
  products (state (dispatch (incrementProduct p) w))
    = List.map
        (fun x =>
           if String.eqb (Product.id x) (Product.id p)
           then Product.mk (Product.id x) (Product.name x)
                  (Product.quantity x + 1) (Product.minQuantity x)
           else x)
        (products (state w)).
Proof.
  unfold incrementProduct. rewrite dispatch_update. reflexivity.
Qed.

Lemma inStock_positive (x : Product.t) :
  inStock x -> gt_0 (Product.quantity x) = true ->
  exists n : Z, (0 <= n)%Z /\ Product.quantity x - 1 == inject_Z n.
Proof.
  intros (n & Hn & Hq) Hg. apply gt_0_spec in Hg. rewrite Hq in Hg.
  exists (n - 1)%Z. split.
  - unfold Qlt in Hg. cbn in Hg. lia.
  - rewrite Hq. unfold Qeq. cbn. lia.
Qed.

(** X15. The [-] button never takes a quantity of the stock below zero:
    when every quantity is a whole number that is not negative, it is so
    after the button; a product that is at 0 stays at 0, the button
    changing nothing then; the products with another id are not
    touched, no product is added, removed or renamed, and the new stock
    is in the slot at once. *)
Theorem decrementProduct_floor (p : Product.t) (w : World) :
  let ps := products (state w) in
  let w' := dispatch (decrementProduct p) w in
  let ps' := products (state w') in
  (Forall inStock ps -> Forall inStock ps')
  /\ (Forall (fun x => Product.id x = Product.id p -> Product.quantity x == 0) ps ->
      ps' = ps)
  /\ map Product.id ps' = map Product.id ps
  /\ map Product.name ps' = map Product.name ps
  /\ List.filter (fun x => negb (String.eqb (Product.id x) (Product.id p))) ps'
     = List.filter (fun x => negb (String.eqb (Product.id x) (Product.id p))) ps
  /\ (mirrored w -> mirrored w').
Proof.
  intros ps w' ps'. subst ps' w'. rewrite decrementProduct_products. fold ps.
  split; [|split; [|split; [|split; [|split]]]].
  - intros H. induction H as [|x l Hx _ IH]; cbn [List.map]; constructor;
      [|exact IH].
    destruct (String.eqb (Product.id x) (Product.id p)
              && gt_0 (Product.quantity x)) eqn:Hc; [|exact Hx].
    apply andb_prop in Hc. destruct Hc as [_ Hg].
    exact (inStock_positive x Hx Hg).
  - intros H. induction H as [|x l Hx _ IH]; cbn [List.map]; [reflexivity|].
    rewrite IH. f_equal.
    destruct (String.eqb_spec (Product.id x) (Product.id p)) as [E|_];
      [|reflexivity].
    cbn [andb]. destruct (gt_0 (Product.quantity x)) eqn:Hg; [|reflexivity].
    apply gt_0_spec in Hg. rewrite (Hx E) in Hg. discriminate Hg.
  - rewrite List.map_map. apply List.map_ext. intros x.
    destruct (String.eqb (Product.id x) (Product.id p)
              && gt_0 (Product.quantity x)); reflexivity.
  - rewrite List.map_map. apply List.map_ext. intros x.
    destruct (String.eqb (Product.id x) (Product.id p)
              && gt_0 (Product.quantity x)); reflexivity.
  - induction ps as [|x l IH]; [reflexivity|]. cbn [List.map List.filter].
    destruct (String.eqb (Product.id x) (Product.id p)) eqn:E; cbn [andb].
    + destruct (gt_0 (Product.quantity x)); cbn [Product.id]; rewrite E;
        cbn [negb]; exact IH.
    + rewrite E. cbn [negb]. rewrite IH. reflexivity.
  - apply dispatch_mirrored, decrementProduct_orderly.
Qed.

Lemma sameProduct_refl (l : list Product.t) : Forall2 sameProduct l l.
Proof.
  induction l as [|x l IH]; constructor; [|exact IH].
  split; [reflexivity|]. split; [reflexivity|].
  split; reflexivity.
Qed.

(** X16. With quantities that are not negative, [+] followed by [-] on
    the same product gives back the stock as it was; [-] followed by
    [+] does so only for a product whose quantity is positive: at 0 the
    [-] does nothing and the [+] adds one. *)
Theorem incrementProduct_then_decrementProduct (p : Product.t) (w : World) :
  Forall (fun x => 0 <= Product.quantity x)%Q (products (state w)) ->
  Forall2 sameProduct
    (products (state (dispatch (decrementProduct p)
                               (dispatch (incrementProduct p) w))))
    (products (state w))
  /\ (Forall (fun x => 0 < Product.quantity x)%Q (products (state w)) ->
      Forall2 sameProduct
        (products (state (dispatch (incrementProduct p)
                                   (dispatch (decrementProduct p) w))))
        (products (state w)))
  /\ (forall x,
        products (state w) = [x] -> Product.id x = Product.id p ->
        Product.quantity x == 0 ->
        exists x',
          products (state (dispatch (incrementProduct p)
                                    (dispatch (decrementProduct p) w))) = [x']
          /\ Product.quantity x' == 1).
Proof.
  intros Hpos.
  rewrite decrementProduct_products, !incrementProduct_products,
    decrementProduct_products, !List.map_map.
  split; [|split].
  - induction Hpos as [|x l Hx _ IH]; cbn [List.map]; constructor; [|exact IH].
    destruct (String.eqb (Product.id x) (Product.id p)) eqn:E;
      cbn [Product.id Product.quantity]; rewrite E; cbn [andb].
    + assert (Hg : gt_0 (Product.quantity x + 1) = true).
      { apply gt_0_spec.
        apply Qlt_le_trans with (y := (0 + 1)%Q); [reflexivity|].
        apply Qplus_le_compat; [exact Hx | apply Qle_refl]. }
      rewrite Hg. split; [reflexivity|]. split; [reflexivity|].
      split; [cbn; ring | reflexivity].
    + split; [reflexivity|]. split; [reflexivity|]. split; reflexivity.
  - intros Hgt. induction Hgt as [|x l Hx _ IH]; cbn [List.map]; constructor.
    + destruct (String.eqb (Product.id x) (Product.id p)) eqn:E; cbn [andb].
      * apply gt_0_spec in Hx. rewrite Hx. cbn [Product.id]. rewrite E.
        split; [reflexivity|]. split; [reflexivity|].
        split; [cbn; ring | reflexivity].
      * rewrite E. split; [reflexivity|]. split; [reflexivity|].
        split; reflexivity.
    + apply IH. inversion Hpos; assumption.
  - intros x Hps Hid Hq. rewrite Hps. cbn [List.map].
    apply String.eqb_eq in Hid. rewrite Hid. cbn [andb].
    assert (Hg : gt_0 (Product.quantity x) = false).
    { destruct (gt_0 (Product.quantity x)) eqn:Hg; [|reflexivity].
      apply gt_0_spec in Hg. rewrite Hq in Hg. discriminate Hg. }
    rewrite Hg, Hid. eexists. split; [reflexivity|].
    cbn. rewrite Hq. reflexivity.
Qed.

Lemma incrementProduct_then_decrementProduct_witness :
  Forall2 sameProduct
    (products (state (dispatch (decrementProduct (Product.mk "l1" "Luvas" 0 5))
                               (dispatch (incrementProduct (Product.mk "l1" "Luvas" 0 5))
                                         sampleStock))))
    (products (state sampleStock)).
Proof.
  apply (incrementProduct_then_decrementProduct
           (Product.mk "l1" "Luvas" 0 5) sampleStock).
  repeat constructor; discriminate.
Defined.

(** ** Cash of the day *)

Lemma or_0_eq (x : Q) : or_0 x == x.
Proof.
  unfold or_0. destruct (Qeq_bool x 0) eqn:H; [|reflexivity].
  apply Qeq_bool_iff in H. symmetry. exact H.
Qed.

Lemma findIndex_None {A} (f : A -> bool) (l : list A) :
  findIndex f l = None -> Forall (fun c => f c = false) l.
Proof.
  induction l as [|x l IH]; cbn; [constructor|].
  destruct (f x) eqn:Hx; [discriminate|].
  destruct (findIndex f l); [discriminate|]. intros _.
  constructor; [exact Hx | apply IH; reflexivity].
Qed.

Lemma find_app_none {A} (f : A -> bool) (l l' : list A) :
  Forall (fun c => f c = false) l -> List.find f (l ++ l') = List.find f l'.
Proof.
  induction 1 as [|x l Hx _ IH]; cbn; [reflexivity|]. rewrite Hx. exact IH.
Qed.

Lemma find_app_last {A} (f : A -> bool) (l : list A) (x : A) :
  f x = false -> List.find f (l ++ [x]) = List.find f l.
Proof.
  intros Hx. induction l as [|y l IH]; cbn; [rewrite Hx; reflexivity|].
  destruct (f y); [reflexivity | exact IH].
Qed.

Lemma find_alter_first {A} (f : A -> bool) (g : A -> A) (l : list A)
    (idx : nat) :
  (forall c, f (g c) = f c) ->
  findIndex f l = Some idx ->
  exists c, List.find f l = Some c /\ List.find f (alter g idx l) = Some (g c).
Proof.
  intros Hg. revert idx. induction l as [|x l IH]; intros idx; cbn;
    [discriminate|].
  destruct (f x) eqn:Hx.
  - intros [= <-]. exists x. cbn. rewrite Hg, Hx. split; reflexivity.
  - destruct (findIndex f l) as [i|]; [|discriminate].
    intros [= <-]. cbn. rewrite Hx. apply IH. reflexivity.
Qed.

Lemma find_alter_other {A} (f f' : A -> bool) (g : A -> A) (l : list A)
    (idx : nat) :
  (forall c, f' (g c) = f' c) ->
  (forall c, f c = true -> f' c = false) ->
  findIndex f l = Some idx ->
  List.find f' (alter g idx l) = List.find f' l.
Proof.
  intros Hg Hff'. revert idx. induction l as [|x l IH]; intros idx; cbn;
    [discriminate|].
  destruct (f x) eqn:Hx.
  - intros [= <-]. cbn. rewrite Hg, (Hff' x Hx). reflexivity.
  - destruct (findIndex f l) as [i|]; [|discriminate].
    intros [= <-]. cbn. destruct (f' x); [reflexivity|].
    apply IH. reflexivity.
Qed.

Lemma map_alter_same {A B} (h : A -> B) (g : A -> A) (l : list A)
    (idx : nat) :
  (forall c, h (g c) = h c) -> List.map h (alter g idx l) = List.map h l.
Proof.
  intros Hg. revert idx. induction l as [|x l IH]; intros idx; [reflexivity|].
  destruct idx as [|idx]; cbn.
  - rewrite Hg. reflexivity.
  - f_equal. apply IH.
Qed.

Lemma saveInitialCash_orderly (val : number) : orderly (saveInitialCash val).
Proof.
  intros w. unfold saveInitialCash.
  destruct (findIndex _ _); eexists _, true, []; rewrite app_nil_r;
    (split; [reflexivity|]); split; [reflexivity | left; reflexivity
                                    | reflexivity | left; reflexivity].
Qed.

Lemma saveInitialCash_dailyConfigs (val : number) (w : World) :
  let st := state w in
  dailyConfigs (state (dispatch (saveInitialCash val) w))
    = match findIndex
              (fun c => String.eqb (DailyConfig.date c) (currentDate st))
              (dailyConfigs st) with
      | Some idx =>
        alter (fun c => DailyConfig.mk (DailyConfig.date c) val) idx
              (dailyConfigs st)
      | None => dailyConfigs st ++ [DailyConfig.mk (currentDate st) val]
      end
  /\ currentDate (state (dispatch (saveInitialCash val) w)) = currentDate st.
Proof.
  intros st. unfold dispatch. rewrite state_then_rerender.
  unfold saveInitialCash. fold st.
  destruct (findIndex _ _); split; reflexivity.
Qed.

(** X17. After the cash dialog is saved with a value, the initial cash
    of the consulted day is that value and the initial cash of every
    other day is what it was; the day gets a record when it has none
    and keeps its first one otherwise, so that no day gets a second
    record; and the new cash is in the slot at once. A day without a
    record has an initial cash of 0. *)
Theorem saveInitialCash_lookup (val : number) (w : World) :
  let st := state w in
  let w' := dispatch (saveInitialCash val) w in
  let st' := state w' in
  initialCash (dailyConfigs st') (currentDate st') == val
  /\ (forall day, day <> currentDate st ->
        initialCash (dailyConfigs st') day = initialCash (dailyConfigs st) day)
  /\ (List.NoDup (map DailyConfig.date (dailyConfigs st)) ->
      List.NoDup (map DailyConfig.date (dailyConfigs st')))
  /\ (forall day,
        ~ In day (map DailyConfig.date (dailyConfigs st)) ->
        initialCash (dailyConfigs st) day = 0%Q)
  /\ (mirrored w -> mirrored w').
Proof.
  intros st w' st'.
  destruct (saveInitialCash_dailyConfigs val w) as [Hdc Hcd].
  fold st w' st' in Hdc, Hcd. rewrite Hdc, Hcd. clear Hdc Hcd.
  set (f := fun c => String.eqb (DailyConfig.date c) (currentDate st)).
  set (g := fun c => DailyConfig.mk (DailyConfig.date c) val).
  assert (Hother : forall day, day <> currentDate st ->
            forall c, f c = true ->
                      String.eqb (DailyConfig.date c) day = false).
  { intros day Hday c Hc. apply String.eqb_eq in Hc.
    apply String.eqb_neq. congruence. }
  split; [|split; [|split; [|split]]].
  - unfold initialCash. fold f.
    destruct (findIndex f (dailyConfigs st)) as [idx|] eqn:Hidx.
    + destruct (find_alter_first f g (dailyConfigs st) idx) as (c & _ & Hc);
        [reflexivity | exact Hidx |].
      rewrite Hc. apply or_0_eq.
    + rewrite (find_app_none f _ _ (findIndex_None f _ Hidx)).
      subst f. cbn. rewrite String.eqb_refl. apply or_0_eq.
  - intros day Hday. unfold initialCash.
    destruct (findIndex f (dailyConfigs st)) as [idx|] eqn:Hidx.
    + rewrite (find_alter_other f _ g (dailyConfigs st) idx);
        [reflexivity | reflexivity | exact (Hother day Hday) | exact Hidx].
    + rewrite find_app_last; [reflexivity|].
      cbn. apply String.eqb_neq. congruence.
  - rewrite <- !NoDup_ListNoDup. intros Hnd.
    destruct (findIndex f (dailyConfigs st)) as [idx|] eqn:Hidx.
    + rewrite map_alter_same; [exact Hnd | reflexivity].
    + rewrite List.map_app. cbn [List.map DailyConfig.date].
      apply NoDup_app. split; [exact Hnd|]. split; [|repeat constructor].
      * intros day Hin Hin'. apply list_elem_of_In in Hin, Hin'.
        destruct Hin' as [<- | []].
        apply List.in_map_iff in Hin. destruct Hin as (c & Hc & Hcin).
        pose proof (findIndex_None f _ Hidx) as Hnone.
        rewrite List.Forall_forall in Hnone. specialize (Hnone c Hcin).
        unfold f in Hnone. rewrite Hc, String.eqb_refl in Hnone.
        discriminate.
      * intros H. apply list_elem_of_In in H. destruct H.
  - intros day Hday. unfold initialCash.
    destruct (List.find _ _) as [c|] eqn:Hc; [|reflexivity].
    apply List.find_some in Hc. destruct Hc as [Hin Hc].
    apply String.eqb_eq in Hc. exfalso. apply Hday.
    apply List.in_map_iff. exists c. split; assumption.
  - apply dispatch_mirrored, saveInitialCash_orderly.
Qed.

(** ** Day navigation *)

Lemma new_Date_noon (y m d : nat) :
  validDate y m d ->
  new_Date (dateString y m d ++ "T12:00:00") = Some (mkDateFields y m d 12 0 0).
Proof.
  intros H. rewrite noon_suffix.
  apply (new_Date_localFullDate y m d noon H).
  unfold validTime; cbn; lia.
Qed.

Lemma daysInMonth_ge_28 (y m : nat) :
  (1 <= m <= 12)%nat -> (28 <= daysInMonth y m)%nat.
Proof.
  intros Hm. unfold daysInMonth.
  do 13 (destruct m as [|m];
         [first [lia | destruct (isLeapYear y); lia]|]).
  lia.
Qed.

Lemma nextDay_dateString (y m d : nat) :
  validDate y m d ->
  nextDay (dateString y m d)
    = if (d <? daysInMonth y m)%nat then dateString y m (d + 1)
      else if (m =? 12)%nat then dateString (y + 1) 1 1
           else dateString y (m + 1) 1.
Proof.
  intros Hv. pose proof Hv as (Hy & Hm & Hd).
  unfold nextDay. rewrite (new_Date_noon y m d Hv).
  cbn [getDate setDate df_year df_month df_day df_hours df_minutes df_seconds].
  replace (d + 1)%nat with (S d) by lia.
  replace (S d =? 0)%nat with false by reflexivity.
  cbn [carryDays].
  destruct (Nat.ltb_spec d (daysInMonth y m)) as [Hlt|Hge].
  - replace (S d <=? daysInMonth y m)%nat with true
      by (symmetry; apply Nat.leb_le; lia).
    reflexivity.
  - replace (S d <=? daysInMonth y m)%nat with false
      by (symmetry; apply Nat.leb_gt; lia).
    replace (S d - daysInMonth y m)%nat with 1%nat by lia.
    destruct d as [|d]; [lia|]. cbn [carryDays].
    destruct (Nat.eqb_spec m 12) as [->|Hm12].
    + reflexivity.
    + pose proof (daysInMonth_ge_28 y (m + 1) ltac:(lia)) as H28.
      replace (1 <=? daysInMonth y (m + 1))%nat with true
        by (symmetry; apply Nat.leb_le; lia).
      reflexivity.
Qed.

Lemma previousDay_dateString (y m d : nat) :
  validDate y m d ->
  previousDay (dateString y m d)
    = if (1 <? d)%nat then dateString y m (d - 1)
      else if (m =? 1)%nat then dateString (y - 1) 12 31
           else dateString y (m - 1) (daysInMonth y (m - 1)).
Proof.
  intros Hv. pose proof Hv as (Hy & Hm & Hd).
  unfold previousDay. rewrite (new_Date_noon y m d Hv).
  cbn [getDate setDate df_year df_month df_day df_hours df_minutes df_seconds].
  destruct (Nat.ltb_spec 1 d) as [Hlt|Hge].
  - destruct d as [|[|k]]; try lia.
    replace (S (S k) - 1)%nat with (S k) by lia.
    replace (S k =? 0)%nat with false by reflexivity.
    cbn [carryDays].
    replace (S k <=? daysInMonth y m)%nat with true
      by (symmetry; apply Nat.leb_le; lia).
    reflexivity.
  - replace (d - 1)%nat with 0%nat by lia.
    replace (0 =? 0)%nat with true by reflexivity.
    destruct (Nat.eqb_spec m 1) as [->|Hm1]; reflexivity.
Qed.

(** X18. The two buttons of the day navigation step through the
    calendar: from a date [YYYY-MM-DD] the button of the day after goes
    to the next day of the month, from the last day of a month to the
    first of the next one and from 31 December to 1 January of the next
    year; the button of the day before goes the other way, to the last
    day of the month before (29 February in a leap year) and from 1
    January to 31 December; the date they set is again a valid date. A
    consulted date that is not a date becomes the text "Invalid Date",
    on which both buttons stay. *)
Theorem day_navigation_follows_calendar (y m d : nat) :
  validDate y m d ->
  (1000 < y)%nat -> (y + 1 < 10 * 1000)%nat ->
  ((d < daysInMonth y m)%nat -> nextDay (dateString y m d) = dateString y m (d + 1))
  /\ (d = daysInMonth y m -> (m < 12)%nat ->
      nextDay (dateString y m d) = dateString y (m + 1) 1)
  /\ (d = daysInMonth y m -> m = 12%nat ->
      nextDay (dateString y m d) = dateString (y + 1) 1 1)
  /\ ((1 < d)%nat -> previousDay (dateString y m d) = dateString y m (d - 1))
  /\ (d = 1%nat -> (1 < m)%nat ->
      previousDay (dateString y m d)
        = dateString y (m - 1) (daysInMonth y (m - 1)))
  /\ (d = 1%nat -> m = 1%nat ->
      previousDay (dateString y m d) = dateString (y - 1) 12 31)
  /\ (exists y' m' d',
        nextDay (dateString y m d) = dateString y' m' d' /\ validDate y' m' d')
  /\ (exists y' m' d',
        previousDay (dateString y m d) = dateString y' m' d'
        /\ validDate y' m' d')
  /\ (forall currentDate,
        new_Date (currentDate ++ "T12:00:00") = None ->
        nextDay currentDate = "Invalid Date"
        /\ previousDay currentDate = "Invalid Date")
  /\ nextDay "Invalid Date" = "Invalid Date"
  /\ previousDay "Invalid Date" = "Invalid Date".
Proof.
  intros Hv Hlo Hhi. pose proof Hv as (Hy & Hm & Hd).
  rewrite (nextDay_dateString y m d Hv), (previousDay_dateString y m d Hv).
  split; [|split; [|split; [|split; [|split; [|split; [|split; [|split;
    [|split; [|split]]]]]]]]].
  - intros H. apply Nat.ltb_lt in H. rewrite H. reflexivity.
  - intros H1 H2. replace (d <? daysInMonth y m)%nat with false
      by (symmetry; apply Nat.ltb_ge; lia).
    replace (m =? 12)%nat with false by (symmetry; apply Nat.eqb_neq; lia).
    reflexivity.
  - intros H1 ->. replace (d <? daysInMonth y 12)%nat with false
      by (symmetry; apply Nat.ltb_ge; lia).
    reflexivity.
  - intros H. apply Nat.ltb_lt in H. rewrite H. reflexivity.
  - intros -> H. replace (m =? 1)%nat with false
      by (symmetry; apply Nat.eqb_neq; lia).
    reflexivity.
  - intros -> ->. reflexivity.
  - destruct (Nat.ltb_spec d (daysInMonth y m)) as [Hlt|Hge].
    + exists y, m, (d + 1)%nat. split; [reflexivity|].
      unfold validDate. lia.
    + destruct (Nat.eqb_spec m 12) as [->|Hm12].
      * exists (y + 1)%nat, 1%nat, 1%nat. split; [reflexivity|].
        unfold validDate. cbn [daysInMonth]. lia.
      * exists y, (m + 1)%nat, 1%nat. split; [reflexivity|].
        pose proof (daysInMonth_ge_28 y (m + 1) ltac:(lia)).
        unfold validDate. lia.
  - destruct (Nat.ltb_spec 1 d) as [Hlt|Hge].
    + exists y, m, (d - 1)%nat. split; [reflexivity|].
      unfold validDate. lia.
    + destruct (Nat.eqb_spec m 1) as [->|Hm1].
      * exists (y - 1)%nat, 12%nat, 31%nat. split; [reflexivity|].
        unfold validDate. cbn [daysInMonth]. lia.
      * exists y, (m - 1)%nat, (daysInMonth y (m - 1)). split; [reflexivity|].
        pose proof (daysInMonth_ge_28 y (m - 1) ltac:(lia)).
        unfold validDate. lia.
  - intros currentDate H. unfold nextDay, previousDay. rewrite H.
    split; reflexivity.
  - reflexivity.
  - reflexivity.
Qed.

Lemma day_navigation_follows_calendar_witness :
  nextDay (dateString 2024 2 28) = dateString 2024 2 29
  /\ nextDay (dateString 2024 12 31) = dateString 2025 1 1
  /\ previousDay (dateString 2024 3 1) = dateString 2024 2 29.
Proof.
  split; [|split].
  - apply (day_navigation_follows_calendar 2024 2 28);
      [unfold validDate; cbn; lia | lia | lia | cbn; lia].
  - apply (day_navigation_follows_calendar 2024 12 31);
      [unfold validDate; cbn; lia | lia | lia | reflexivity | reflexivity].
  - apply (day_navigation_follows_calendar 2024 3 1);
      [unfold validDate; cbn; lia | lia | lia | reflexivity | lia].
Defined.

(** X19. On dates of the years 1001 to 9998, each button of the day
    navigation undoes the other: the day after the day before, and the
    day before the day after, is the day itself. *)
Theorem day_navigation_roundtrip (y m d : nat) :
  validDate y m d ->
  (1000 < y)%nat -> (y + 1 < 10 * 1000)%nat ->
  previousDay (nextDay (dateString y m d)) = dateString y m d
  /\ nextDay (previousDay (dateString y m d)) = dateString y m d.
Proof.
  intros Hv Hlo Hhi. pose proof Hv as (Hy & Hm & Hd).
  rewrite (nextDay_dateString y m d Hv), (previousDay_dateString y m d Hv).
  split.
  - destruct (Nat.ltb_spec d (daysInMonth y m)) as [Hlt|Hge].
    + rewrite previousDay_dateString by (unfold validDate; lia).
      replace (1 <? d + 1)%nat with true by (symmetry; apply Nat.ltb_lt; lia).
      replace (d + 1 - 1)%nat with d by lia. reflexivity.
    + destruct (Nat.eqb_spec m 12) as [->|Hm12].
      * rewrite previousDay_dateString
          by (unfold validDate; cbn [daysInMonth]; lia).
        cbn [Nat.ltb Nat.leb Nat.eqb].
        replace (y + 1 - 1)%nat with y by lia.
        cbn [daysInMonth] in Hd, Hge. replace d with 31%nat by lia.
        reflexivity.
      * pose proof (daysInMonth_ge_28 y (m + 1) ltac:(lia)).
        rewrite previousDay_dateString by (unfold validDate; lia).
        cbn [Nat.ltb Nat.leb].
        replace (m + 1 =? 1)%nat with false
          by (symmetry; apply Nat.eqb_neq; lia).
        replace (m + 1 - 1)%nat with m by lia.
        replace (daysInMonth y m) with d by lia. reflexivity.
  - destruct (Nat.ltb_spec 1 d) as [Hlt|Hge].
    + rewrite nextDay_dateString by (unfold validDate; lia).
      replace (d - 1 <? daysInMonth y m)%nat with true
        by (symmetry; apply Nat.ltb_lt; lia).
      replace (d - 1 + 1)%nat with d by lia. reflexivity.
    + destruct (Nat.eqb_spec m 1) as [->|Hm1].
      * rewrite nextDay_dateString
          by (unfold validDate; cbn [daysInMonth]; lia).
        cbn [daysInMonth Nat.ltb Nat.leb Nat.eqb].
        replace (y - 1 + 1)%nat with y by lia.
        replace d with 1%nat by lia. reflexivity.
      * pose proof (daysInMonth_ge_28 y (m - 1) ltac:(lia)).
        rewrite nextDay_dateString by (unfold validDate; lia).
        rewrite Nat.ltb_irrefl.
        replace (m - 1 =? 12)%nat with false
          by (symmetry; apply Nat.eqb_neq; lia).
        replace (m - 1 + 1)%nat with m by lia.
        replace d with 1%nat by lia. reflexivity.
Qed.

Lemma day_navigation_roundtrip_witness :
  previousDay (nextDay (dateString 2024 12 31)) = dateString 2024 12 31
  /\ nextDay (previousDay (dateString 2024 3 1)) = dateString 2024 3 1.
Proof.
  split.
  - apply (day_navigation_roundtrip 2024 12 31);
      [unfold validDate; cbn; lia | lia | lia].
  - apply (day_navigation_roundtrip 2024 3 1);
      [unfold validDate; cbn; lia | lia | lia].
Defined.

(** ** The list of the day across renders *)

Lemma Array_sort_of_sorted {A} (compareFn : A -> A -> comparison)
    (l : list A) :
  StronglySorted (mayPrecede compareFn) l -> Array_sort compareFn l = l.
Proof.
  induction 1 as [|x l Hl IH Hx]; [reflexivity|].
  cbn [Array_sort fold_right]. fold (Array_sort compareFn l). rewrite IH.
  destruct l as [|y l']; [reflexivity|].
  inversion Hx as [|? ? Hxy _]; subst. unfold mayPrecede in Hxy.
  cbn [sort_insert]. destruct (compareFn x y); [reflexivity..|contradiction].
Qed.

Lemma filter_all {A} (f : A -> bool) (l : list A) :
  Forall (fun x => f x = true) l -> List.filter f l = l.
Proof.
  induction 1 as [|x l Hx _ IH]; cbn; [reflexivity|].
  rewrite Hx, IH. reflexivity.
Qed.

(** X20. The list of the day is sorted outside its memo, in place and at
    every render; sorting the sorted list again leaves it as it is, and
    so does filtering it again by the same day: rendering again, with
    the same receipts and date, does not change the order shown. *)
Theorem dailyReceipts_rerender (receipts : list Receipt.t)
    (currentDate : string) :
  Array_sort byDateDescending (dailyReceipts receipts currentDate)
    = dailyReceipts receipts currentDate
  /\ dailyReceipts (dailyReceipts receipts currentDate) currentDate
     = dailyReceipts receipts currentDate.
Proof.
  assert (Hsorted : Array_sort byDateDescending
                      (dailyReceipts receipts currentDate)
                    = dailyReceipts receipts currentDate).
  { apply Array_sort_of_sorted. rewrite dailyReceipts_unfold.
    apply Array_sort_sorted;
      [exact byDateDescending_total | exact byDateDescending_trans]. }
  split; [exact Hsorted|].
  rewrite (dailyReceipts_unfold (dailyReceipts receipts currentDate)).
  rewrite filter_all; [exact Hsorted|].
  apply List.Forall_forall. intros r Hr.
  apply (Permutation_in _ (dailyReceipts_Permutation _ _)) in Hr.
  apply List.filter_In in Hr. apply Hr.
Qed.

(** ** Expenses *)




(** ** A new professional *)

Lemma addProfessional_state (tem : bool) (fd : ProfessionalForm)
    (newId nowISO : string) (w : World) :
  state (perform (AddProfessional (Some tem) fd newId nowISO) w)
    = setProfessionals
        (professionals (state w) ++
           [ Professional.mk newId (prof_name fd) (prof_spec fd) (prof_phone fd)
               (if tem then inject_Z (prof_perc fd) else 100%Q) nowISO ])
        (state w).
Proof.
  unfold perform, handler. rewrite state_then_rerender. reflexivity.
Qed.

(** X22. A professional registered without commission is stored with
    the percentage 100 whatever was typed in the percentage field, at
    the end of the list; of every receipt then registered for that
    professional the professional gets 0 and the clinic the whole gross
    value, and the receipt carries the id and the name of the
    professional. With no regime chosen the form is rejected with an
    alert and nothing is stored. *)
Theorem addProfessional_without_commission (fd : ProfessionalForm)
    (newId nowISO : string) (w : World) :
  let st := state w in
  let w1 := perform (AddProfessional (Some false) fd newId nowISO) w in
  (exists p,
     professionals (state w1) = professionals st ++ [p]
     /\ Professional.id p = newId
     /\ Professional.name p = prof_name fd
     /\ Professional.percentage p = 100%Q)
  /\ receipts (state w1) = receipts st
  /\ (forall formData now rid g,
        form_professional formData = Some (length (professionals st)) ->
        form_value formData = Some g ->
        exists r,
          receipts (state (perform (AddReceipt formData now rid) w1))
            = receipts st ++ [r]
          /\ Receipt.grossValue r = g
          /\ Receipt.professionalValue r = 0%Q
          /\ Receipt.netClinic r == g
          /\ Receipt.professionalId r = newId
          /\ Receipt.professionalName r = prof_name fd)
  /\ state (perform (AddProfessional None fd newId nowISO) w) = st
  /\ (scheduled w = false ->
      trace (perform (AddProfessional None fd newId nowISO) w)
        = trace w ++ [Alert "Defina o regime de comissão."]).
Proof.
  intros st w1.
  assert (Hst1 : state w1
                 = setProfessionals
                     (professionals st ++
                        [ Professional.mk newId (prof_name fd) (prof_spec fd)
                            (prof_phone fd) 100 nowISO ]) st)
    by apply addProfessional_state.
  split; [|split; [|split; [|split]]].
  - eexists. rewrite Hst1. cbn [professionals setProfessionals].
    split; [reflexivity|]. repeat split.
  - rewrite Hst1. reflexivity.
  - intros formData now rid g Hi Hg.
    assert (Hnth : nth_error (professionals (state w1))
                             (length (professionals st))
                   = Some (Professional.mk newId (prof_name fd) (prof_spec fd)
                             (prof_phone fd) 100 nowISO)).
    { rewrite Hst1. cbn [professionals setProfessionals].
      rewrite List.nth_error_app2 by lia. rewrite Nat.sub_diag. reflexivity. }
    destruct (addReceipt_valid formData now rid w1 _ _ g Hi Hnth Hg)
      as (r & Hadd & Hgross & Hpv & Hnet & Hpid & Hname & _).
    cbn [Professional.percentage Professional.id Professional.name]
      in Hpv, Hpid, Hname.
    change (Qeq_bool 100 100) with true in Hpv. cbv iota in Hpv.
    exists r. rewrite Hadd, Hst1. cbn [receipts setReceipts setProfessionals].
    split; [reflexivity|]. split; [exact Hgross|]. split; [exact Hpv|].
    split; [rewrite Hnet, Hpv; ring|]. split; assumption.
  - unfold perform, handler. rewrite state_then_rerender. reflexivity.
  - intros Hsch. rewrite perform_dispatch by reflexivity. cbn [handler].
    rewrite (dispatch_unscheduled _ w
               (mkWorld (state w) false (localStorage w)
                        (trace w ++ [Alert "Defina o regime de comissão."]))).
    + reflexivity.
    + unfold addProfessional, alert, emit. rewrite Hsch. reflexivity.
    + reflexivity.
Qed.

(** ** Session *)

Lemma App_step_invariant (a : App.t) (i : App.Input) :
  (App.isAuthenticated a = true <-> App.cm_auth a = Some "true") ->
  (App.isAuthenticated (App.step a i) = true
   <-> App.cm_auth (App.step a i) = Some "true").
Proof.
  intros Ha. destruct a as [auth item]. cbn in Ha.
  destruct i as [username password | | ]; cbn.
  - destruct auth; [exact Ha|]. unfold App.handleSubmit.
    destruct (String.eqb username "centromedico"
              && String.eqb password "miguel2406"); cbn; [tauto | exact Ha].
  - destruct auth; cbn; [|exact Ha]. split; discriminate.
  - unfold App.open, App.authEffect. cbn.
    destruct item as [s|]; [|split; discriminate].
    destruct (String.eqb_spec s "true") as [->|Hs]; cbn; [tauto|].
    split; [discriminate|]. intros [= H]. contradiction.
Qed.

Lemma App_open_invariant (item : option string) :
  App.isAuthenticated (App.open item) = true
  <-> App.cm_auth (App.open item) = Some "true".
Proof.
  unfold App.open, App.authEffect. cbn.
  destruct item as [s|]; [|split; discriminate].
  destruct (String.eqb_spec s "true") as [->|Hs]; cbn; [tauto|].
  split; [discriminate|]. intros [= H]. contradiction.
Qed.

Lemma App_run_invariant (inputs : list App.Input) (a : App.t) :
  (App.isAuthenticated a = true <-> App.cm_auth a = Some "true") ->
  (App.isAuthenticated (App.run inputs a) = true
   <-> App.cm_auth (App.run inputs a) = Some "true").
Proof.
  revert a. induction inputs as [|i inputs IH]; intros a Ha; [exact Ha|].
  cbn. apply IH, App_step_invariant, Ha.
Qed.

(** X24. The session is what the item [cm_auth] says: from the opening
    of the page on, through any sequence of login attempts, logouts and
    reloads, the user is authenticated exactly when the item holds the
    text "true"; so a reload keeps a user logged in or logged out as
    before. A submission of the login form logs in exactly when the
    user name is "centromedico" and the password "miguel2406", and a
    logout removes the item. *)
Theorem session_follows_cm_auth (item : option string)
    (inputs : list App.Input) :
  let a := App.run inputs (App.open item) in
  (App.isAuthenticated a = true <-> App.cm_auth a = Some "true")
  /\ App.isAuthenticated (App.step a App.ReloadPage) = App.isAuthenticated a
  /\ (forall username password,
        App.isAuthenticated a = false ->
        (App.isAuthenticated (App.step a (App.Submit username password)) = true
         <-> username = "centromedico" /\ password = "miguel2406"))
  /\ (App.isAuthenticated a = true ->
      App.step a App.Logout = App.mk false None).
Proof.
  intros a.
  assert (Ha : App.isAuthenticated a = true <-> App.cm_auth a = Some "true")
    by apply App_run_invariant, App_open_invariant.
  split; [exact Ha|]. split; [|split].
  - pose proof (App_step_invariant a App.ReloadPage Ha) as Hr.
    destruct (App.isAuthenticated a) eqn:E.
    + apply Hr. cbn. unfold App.open, App.authEffect. cbn.
      destruct Ha as [Ha _]. rewrite (Ha eq_refl). reflexivity.
    + destruct (App.isAuthenticated (App.step a App.ReloadPage)) eqn:E';
        [|reflexivity].
      cbn in E'. unfold App.open, App.authEffect in E'. cbn in E'.
      destruct (App.cm_auth a) as [s|]; [|discriminate].
      destruct (String.eqb_spec s "true") as [->|Hs]; [|discriminate].
      destruct Ha as [_ Ha]. discriminate (Ha eq_refl).
  - intros username password Hout. cbn. rewrite Hout.
    unfold App.handleSubmit.
    destruct (String.eqb_spec username "centromedico") as [->|Hu];
      destruct (String.eqb_spec password "miguel2406") as [->|Hp]; cbn.
    + tauto.
    + rewrite Hout. split; [discriminate | tauto].
    + rewrite Hout. split; [discriminate | tauto].
    + rewrite Hout. split; [discriminate | tauto].
  - intros Hin. cbn. rewrite Hin. reflexivity.
Qed.

(** ** The date of today *)

(** X26. The text that [getTodayString] writes for a calendar day of a
    year of four digits is read back, with the noon suffix the program
    appends, as that very day at 12:00:00; it is the text the second
    revision starts from, and the consulted date of a page that has
    just been opened on it is the date part of every timestamp written
    then. *)
Theorem getTodayString_roundtrip (f : DateFields) (now : Clock) :
  validDate (df_year f) (df_month f) (df_day f) ->
  new_Date (getTodayString f ++ "T12:00:00")
    = Some (mkDateFields (df_year f) (df_month f) (df_day f) 12 0 0)
  /\ getTodayString f = toLocaleDateString_en_CA (Some f)
  /\ split_0 "T" (localFullDate (getTodayString f) now) = getTodayString f
  /\ currentDate (state (boot None (getTodayString f))) = getTodayString f.
Proof.
  intros Hv. pose proof Hv as (_ & Hm & _).
  assert (Hs : getTodayString f
               = dateString (df_year f) (df_month f) (df_day f))
    by (apply getTodayString_dateString; lia).
  split; [|split; [|split]].
  - rewrite Hs. apply new_Date_noon, Hv.
  - rewrite Hs. reflexivity.
  - rewrite Hs.
    apply (split_0_dateString (df_year f) (df_month f) (df_day f)
             (padStart 2 "0" (String_of (getHours now)) ++ ":"
              ++ padStart 2 "0" (String_of (getMinutes now)) ++ ":"
              ++ padStart 2 "0" (String_of (getSeconds now))) Hv).
  - unfold boot. rewrite mount_eq. reflexivity.
Qed.

Lemma getTodayString_roundtrip_witness :
  new_Date (getTodayString (mkDateFields 2024 5 1 9 5 7) ++ "T12:00:00")
    = Some (mkDateFields 2024 5 1 12 0 0).
Proof.
  apply (getTodayString_roundtrip (mkDateFields 2024 5 1 9 5 7) sampleClock).
  unfold validDate; cbn; lia.
Defined.

(** ** The stock and the ledger *)

Lemma removeProduct_state (p : Product.t) (answer : bool) (w : World) :
  state (dispatch (removeProduct p answer) w)
    = if answer
      then setProducts
             (List.filter
                (fun x => negb (String.eqb (Product.id x) (Product.id p)))
                (products (state w)))
             (state w)
      else state w.
Proof.
  unfold dispatch. rewrite state_then_rerender.
  unfold removeProduct, bind, confirm. cbn. destruct answer; reflexivity.
Qed.

(** X27. The four handlers of the stock touch the stock only: the
    professionals, patients, receipts, expenses, cash records and
    service types of the store are what they were, and the slot follows
    at once. A product is added at the end with the quantity and minimum
    typed; removing it again, by its id, gives back the stock as it was
    when no other product carries that id; a declined removal changes
    nothing. *)
Theorem stock_handlers_frame (w : World) (fd : ProductForm) (newId : string)
    (p : Product.t) (answer : bool) :
  let others (st : State) :=
    (professionals st, patients st, receipts st, expenses st,
     dailyConfigs st, serviceTypes st, currentDate st, isLoaded st) in
  (forall h,
     h = addProduct fd newId \/ h = decrementProduct p
     \/ h = incrementProduct p \/ h = removeProduct p answer ->
     others (state (dispatch h w)) = others (state w)
     /\ (mirrored w -> mirrored (dispatch h w)))
  /\ products (state (dispatch (addProduct fd newId) w))
     = products (state w)
       ++ [Product.mk newId (prod_name fd) (inject_Z (prod_qty fd))
                      (inject_Z (prod_min fd))]
  /\ (Forall (fun x => Product.id x <> newId) (products (state w)) ->
      forall x,
        Product.id x = newId ->
        state (dispatch (removeProduct x true) (dispatch (addProduct fd newId) w))
          = state w)
  /\ state (dispatch (removeProduct p false) w) = state w.
Proof.
  intros others.
  split; [|split; [|split]].
  - intros h [-> | [-> | [-> | ->]]]; (split; [|apply dispatch_mirrored]).
    + unfold addProduct. rewrite dispatch_update. reflexivity.
    + apply addProduct_orderly.
    + unfold decrementProduct. rewrite dispatch_update. reflexivity.
    + apply decrementProduct_orderly.
    + unfold incrementProduct. rewrite dispatch_update. reflexivity.
    + apply incrementProduct_orderly.
    + rewrite removeProduct_state. destruct answer; reflexivity.
    + apply removeProduct_orderly.
  - unfold addProduct. rewrite dispatch_update. reflexivity.
  - intros Hfresh x Hx. rewrite removeProduct_state.
    unfold addProduct. rewrite dispatch_update.
    cbn [products setProducts]. rewrite List.filter_app, Hx. cbn [List.filter].
    cbn [Product.id]. rewrite String.eqb_refl. cbn [negb].
    rewrite app_nil_r.
    assert (Hf : List.filter (fun x0 => negb (String.eqb (Product.id x0) newId))
                             (products (state w))
                 = products (state w)).
    { apply filter_all. apply List.Forall_forall. intros y Hy.
      rewrite List.Forall_forall in Hfresh. specialize (Hfresh y Hy).
      apply String.eqb_neq in Hfresh. rewrite Hfresh. reflexivity. }
    rewrite Hf. destruct (state w); reflexivity.
  - apply removeProduct_state.
Qed.
